(** * MDALT: the active-learning loop, its configuration and its stoppers

    A shallow embedding of [mdalth/utils.py], [mdalth/learning.py] and
    [tmp/stopping/stoppers.py].  Python integers are [Z]; Python floats are
    IEEE-754 binary64 values, taken from the Standard Library's executable
    specification [SpecFloat] (53 bits of precision, exponent bound 1024);
    exceptions are an explicit error type threaded through a small monad;
    objects that are mutated in place are passed as explicit state. *)

From Stdlib Require Import ZArith QArith Qround List String Ascii Bool Lia.
From Stdlib Require Import Floats.SpecFloat.
From stdpp Require Import base option list gmap.
Import ListNotations.

Local Open Scope Z_scope.

(* ===================================================================== *)
(** * Part I: the program                                                  *)
(* ===================================================================== *)

(** ** Exceptions, results and stateful computations *)

Module Py.

(** The exception classes the modelled code raises, directly or through
    the builtins it calls. *)
Inductive exn : Type :=
| RuntimeError
| AssertionError
| OverflowError
| ValueError
| ZeroDivisionError
| IndexError
| KeyError
| TypeError
| AttributeError
| FileExistsError
| FileNotFoundError
| StopIteration.

Inductive result (A : Type) : Type :=
| Ok (a : A)
| Raise (e : exn).
Arguments Ok {A} a.
Arguments Raise {A} e.

Definition bind {A B : Type} (r : result A) (k : A -> result B) : result B :=
  match r with
  | Ok a => k a
  | Raise e => Raise e
  end.

Definition is_ok {A : Type} (r : result A) : bool :=
  match r with Ok _ => true | Raise _ => false end.

(** A method that mutates the world [S] in place and may raise: the
    world it leaves behind is returned in both cases, since an exception
    does not undo the assignments made before it. *)
Definition M (S A : Type) : Type := S -> result A * S.

Definition ret {S A : Type} (a : A) : M S A := fun s => (Ok a, s).
Definition raise {S A : Type} (e : exn) : M S A := fun s => (Raise e, s).
Definition lift {S A : Type} (r : result A) : M S A := fun s => (r, s).
Definition get {S : Type} : M S S := fun s => (Ok s, s).
Definition modify {S : Type} (f : S -> S) : M S unit := fun s => (Ok tt, f s).

Definition mbind {S A B : Type} (c : M S A) (k : A -> M S B) : M S B :=
  fun s =>
    match c s with
    | (Ok a, s') => k a s'
    | (Raise e, s') => (Raise e, s')
    end.

End Py.
Export Py.

Declare Scope py_scope.
Delimit Scope py_scope with py.
Notation "'let?' x ':=' c 'in' k" := (Py.bind c (fun x => k))
  (at level 10, x name, c at level 100, k at level 200) : py_scope.
Notation "'let*' x ':=' c 'in' k" := (Py.mbind c (fun x => k))
  (at level 10, x name, c at level 100, k at level 200) : py_scope.
Notation "c1 ';;' c2" := (Py.mbind c1 (fun _ => c2))
  (at level 100, c2 at level 200, right associativity) : py_scope.
Local Open Scope py_scope.

(** ** Python floats *)

Module Float.

Definition prec : Z := 53.
Definition emax : Z := 1024.

Definition float : Type := spec_float.

Definition nan : float := S754_nan.
Definition zero : float := S754_zero false.
(** [1.0], i.e. [2^52 * 2^-52]. *)
Definition one : float := S754_finite false 4503599627370496 (-52).

Definition mul (x y : float) : float := SFmul prec emax x y.
Definition leb (x y : float) : bool := SFleb x y.
Definition ltb (x y : float) : bool := SFltb x y.

Definition is_finite (x : float) : bool :=
  match x with
  | S754_zero _ | S754_finite _ _ _ => true
  | S754_infinity _ | S754_nan => false
  end.

(** The signed mantissa of a finite float. *)
Definition signed (s : bool) (m : positive) : Z := cond_Zopp s (Zpos m).

(** [float(n)], as float-by-int arithmetic converts its integer operand:
    correctly rounded (ties to even), and an [OverflowError] when the
    integer is too large for a double. *)
Definition float_of_int (n : Z) : result float :=
  match binary_normalize prec emax n 0 false with
  | S754_infinity _ | S754_nan => Raise OverflowError
  | f => Ok f
  end.

(** [x.is_integer()]: finite with no fractional part. *)
Definition is_integer (x : float) : bool :=
  match x with
  | S754_zero _ => true
  | S754_finite _ m e =>
      if 0 <=? e then true else (Zpos m mod 2 ^ (- e) =? 0)
  | S754_infinity _ | S754_nan => false
  end.

(** [int(x)]: truncation toward zero; [int(inf)] is an [OverflowError]
    and [int(nan)] a [ValueError]. *)
Definition int_of_float (x : float) : result Z :=
  match x with
  | S754_zero _ => Ok 0
  | S754_finite s m e =>
      if 0 <=? e then Ok (signed s m * 2 ^ e)
      else Ok (Z.quot (signed s m) (2 ^ (- e)))
  | S754_infinity _ => Raise OverflowError
  | S754_nan => Raise ValueError
  end.

(** The rational number a finite float denotes (0 for the others, which
    denote no number). *)
Definition to_Q (x : float) : Q :=
  match x with
  | S754_finite s m e =>
      if 0 <=? e then inject_Z (signed s m * 2 ^ e)
      else Qmake (signed s m) (Z.to_pos (2 ^ (- e)))
  | _ => 0%Q
  end.

End Float.

(** ** Numbers as the configuration holds them

    A [ProportionOrInteger] field holds a Python [float] until it is
    resolved and a Python [int] afterwards. *)

Module Num.
Import Float.

Inductive num : Type :=
| PyInt (z : Z)
| PyFloat (f : float).

(** [x >= 1.0]; Python compares an int with a float exactly. *)
Definition ge_one (x : num) : bool :=
  match x with
  | PyInt z => 1 <=? z
  | PyFloat f => leb one f
  end.

(** [x.is_integer()]; an [int] always answers [True]. *)
Definition is_integer (x : num) : bool :=
  match x with
  | PyInt _ => true
  | PyFloat f => Float.is_integer f
  end.

(** [int(x)] *)
Definition int (x : num) : result Z :=
  match x with
  | PyInt z => Ok z
  | PyFloat f => int_of_float f
  end.

(** [0 <= x <= 1.0] *)
Definition in_unit_interval (x : num) : bool :=
  match x with
  | PyInt z => (0 <=? z) && (z <=? 1)
  | PyFloat f => leb zero f && leb f one
  end.

(** [x * total] for an integer [total]: exact between ints, and the
    rounded binary64 product, after converting [total], for a float. *)
Definition times_int (x : num) (total : Z) : result num :=
  match x with
  | PyInt z => Ok (PyInt (z * total))
  | PyFloat f =>
      let? ft := float_of_int total in
      Ok (PyFloat (mul f ft))
  end.

End Num.
Export Num.

(** ** mdalth/utils.py *)

Module Utils.

(** [proportion_or_integer_to_int(x: float, total: Optional[int]) -> int] *)
Definition proportion_or_integer_to_int (x : num) (total : option Z)
  : result Z :=
  if ge_one x && is_integer x then
    int x
  else
    match total with
    | Some t =>
        if in_unit_interval x then
          let? p := times_int x t in
          int p
        else Raise RuntimeError
    | None => Raise RuntimeError
    end.

(** *** Paths *)

(** A [pathlib.Path], by its parent and its final component. *)
Record Path : Type := {
  parent : list string;
  name : string
}.

(** [s.rfind('.')], counting from [pos]: the last position of a dot. *)
Fixpoint rfind_dot (s : string) (pos : nat) : option nat :=
  match s with
  | EmptyString => None
  | String c rest =>
      match rfind_dot rest (S pos) with
      | Some i => Some i
      | None => if Ascii.eqb c "."%char then Some pos else None
      end
  end.

(** [Path.stem]: the name without its last suffix; a dot that starts or
    ends the name opens no suffix. *)
Definition stem (p : Path) : string :=
  match rfind_dot (name p) 0 with
  | Some i =>
      if ((0 <? i) && (i <? String.length (name p) - 1))%nat
      then substring 0 i (name p)
      else name p
  | None => name p
  end.

Fixpoint mem_char (c : ascii) (chars : string) : bool :=
  match chars with
  | EmptyString => false
  | String d rest => Ascii.eqb c d || mem_char c rest
  end.

(** [s.lstrip(chars)] *)
Fixpoint lstrip (chars : string) (s : string) : string :=
  match s with
  | EmptyString => EmptyString
  | String c rest => if mem_char c chars then lstrip chars rest else s
  end.

(** [s.rstrip(chars)] *)
Fixpoint rstrip (chars : string) (s : string) : string :=
  match s with
  | EmptyString => EmptyString
  | String c rest =>
      match rstrip chars rest with
      | EmptyString => if mem_char c chars then EmptyString else String c EmptyString
      | r => String c r
      end
  end.

Section HighestPath.

(** The builtin [int] on a string: [None] stands for its [ValueError]. *)
Variable int_of_str : string -> option Z.
(** [Path.iterdir()] of the file system at hand. *)
Variable iterdir : Path -> result (list Path).

(** The argument is a directory to list or a collection of paths. *)
Inductive path_or_files : Type :=
| APath (p : Path)
| Files (files : list Path).

(** The sort key [int(p.stem.lstrip(lstrip).rstrip(rstrip))]. *)
Definition key (ls rs : string) (p : Path) : result Z :=
  match int_of_str (rstrip rs (lstrip ls (stem p))) with
  | Some z => Ok z
  | None => Raise ValueError
  end.

(** [sorted] computes the key of every element before it compares any. *)
Fixpoint keyed (ls rs : string) (files : list Path) : result (list (Z * Path)) :=
  match files with
  | [] => Ok []
  | p :: rest =>
      let? k := key ls rs p in
      let? r := keyed ls rs rest in
      Ok ((k, p) :: r)
  end.

(** [sorted] is stable: among equal keys the earlier element stays first. *)
Fixpoint insert_keyed (x : Z * Path) (l : list (Z * Path)) : list (Z * Path) :=
  match l with
  | [] => [x]
  | h :: t => if fst x <=? fst h then x :: h :: t else h :: insert_keyed x t
  end.

Fixpoint sorted (l : list (Z * Path)) : list (Z * Path) :=
  match l with
  | [] => []
  | x :: t => insert_keyed x (sorted t)
  end.

(** In ascending order: every element is below all that follow it. *)
Fixpoint ascending (l : list (Z * Path)) : Prop :=
  match l with
  | [] => True
  | x :: t => Forall (fun y => fst x <= fst y) t /\ ascending t
  end.

(** [get_highest_path(path_or_files, lstrip, rstrip)] *)
Definition get_highest_path (arg : path_or_files) (ls rs : string)
  : result Path :=
  let? files := match arg with
                | APath p => iterdir p
                | Files l => Ok l
                end in
  let? ks := keyed ls rs files in
  match last (sorted ks) with
  | Some kp => Ok (snd kp)
  | None => Raise IndexError
  end.

End HighestPath.

End Utils.

(** ** mdalth/learning.py: the iteration count and the configuration *)

Module Learning.
Import Utils.

(** [compute_total_al_iterations]; Python's [divmod] rounds the quotient
    toward minus infinity, as [Z.div] and [Z.modulo] do, and raises
    [ZeroDivisionError] on a zero divisor. *)
Definition compute_total_al_iterations (n_rows n_start n_query : Z)
  : result Z :=
  if n_query =? 0 then Raise ZeroDivisionError
  else
    let q := (n_rows - n_start) / n_query in
    let r := (n_rows - n_start) mod n_query in
    if r =? 0 then Ok q else Ok (q + 1).

(** The one warning [configure] emits. *)
Inductive warning : Type :=
| ClampedIterations (configured possible : Z).

Record Config : Type := {
  n_rows : option Z;
  n_start : num;
  n_query : num;
  val_set_size : num;
  n_iterations : num;
  learn : bool;
  evaluate : bool;
  resume : bool;
  resume_from_checkpoint : option Z;
  _configured : bool
}.

Definition set_n_rows (v : option Z) (c : Config) : Config :=
  {| n_rows := v; n_start := n_start c; n_query := n_query c;
     val_set_size := val_set_size c; n_iterations := n_iterations c;
     learn := learn c; evaluate := evaluate c; resume := resume c;
     resume_from_checkpoint := resume_from_checkpoint c;
     _configured := _configured c |}.

Definition set_n_start (v : num) (c : Config) : Config :=
  {| n_rows := n_rows c; n_start := v; n_query := n_query c;
     val_set_size := val_set_size c; n_iterations := n_iterations c;
     learn := learn c; evaluate := evaluate c; resume := resume c;
     resume_from_checkpoint := resume_from_checkpoint c;
     _configured := _configured c |}.

Definition set_n_query (v : num) (c : Config) : Config :=
  {| n_rows := n_rows c; n_start := n_start c; n_query := v;
     val_set_size := val_set_size c; n_iterations := n_iterations c;
     learn := learn c; evaluate := evaluate c; resume := resume c;
     resume_from_checkpoint := resume_from_checkpoint c;
     _configured := _configured c |}.

Definition set_n_iterations (v : num) (c : Config) : Config :=
  {| n_rows := n_rows c; n_start := n_start c; n_query := n_query c;
     val_set_size := val_set_size c; n_iterations := v;
     learn := learn c; evaluate := evaluate c; resume := resume c;
     resume_from_checkpoint := resume_from_checkpoint c;
     _configured := _configured c |}.

Definition set_configured (v : bool) (c : Config) : Config :=
  {| n_rows := n_rows c; n_start := n_start c; n_query := n_query c;
     val_set_size := val_set_size c; n_iterations := n_iterations c;
     learn := learn c; evaluate := evaluate c; resume := resume c;
     resume_from_checkpoint := resume_from_checkpoint c;
     _configured := v |}.

(** The world of a [Config] method: the instance and the warnings
    emitted so far. *)
Record ConfigWorld : Type := {
  self : Config;
  warnings : list warning
}.

Definition update (f : Config -> Config) : M ConfigWorld unit :=
  modify (fun w => {| self := f (self w); warnings := warnings w |}).

Definition warn (x : warning) : M ConfigWorld unit :=
  modify (fun w => {| self := self w; warnings := warnings w ++ [x] |}).

Definition read {A : Type} (f : Config -> A) : M ConfigWorld A :=
  fun w => (Ok (f (self w)), w).

(** [Config.configure(self, n_rows)].  Each field is read back right
    after its assignment, so the value just assigned stands for it. *)
Definition configure (n_rows_arg : Z) : M ConfigWorld unit :=
  let* configured := read _configured in
  if configured : bool then raise AssertionError
  else
    update (set_n_rows (Some n_rows_arg)) ;;
    let* rows := read n_rows in
    let* x_start := read n_start in
    let* start := lift (proportion_or_integer_to_int x_start rows) in
    update (set_n_start (PyInt start)) ;;
    let* x_query := read n_query in
    let* query := lift (proportion_or_integer_to_int x_query rows) in
    update (set_n_query (PyInt query)) ;;
    let* total := lift (compute_total_al_iterations n_rows_arg start query) in
    let* x_iter := read n_iterations in
    let* iters := lift (proportion_or_integer_to_int x_iter (Some total)) in
    update (set_n_iterations (PyInt iters)) ;;
    (if total <? iters then
       warn (ClampedIterations iters total) ;;
       update (set_n_iterations (PyInt total))
     else ret tt) ;;
    update (set_configured true).

(** [Config.__post_init__]; [if self.n_rows] is false for [None] and
    for [0]. *)
Definition __post_init__ : M ConfigWorld unit :=
  update (set_configured false) ;;
  let* rows := read n_rows in
  match rows with
  | Some n =>
      if n =? 0 then ret tt
      else configure n ;; update (set_configured true)
  | None => ret tt
  end.

(** [Config(...)]: the dataclass constructor stores the fields and runs
    [__post_init__]; an exception there leaves no instance behind. *)
Definition new_Config (rows : option Z) (start query val iters : num)
    (l e r : bool) (ckpt : option Z) : result Config * list warning :=
  let c := {| n_rows := rows; n_start := start; n_query := query;
              val_set_size := val; n_iterations := iters;
              learn := l; evaluate := e; resume := r;
              resume_from_checkpoint := ckpt; _configured := false |} in
  match __post_init__ {| self := c; warnings := [] |} with
  | (Ok _, w) => (Ok (self w), warnings w)
  | (Raise x, w) => (Raise x, warnings w)
  end.

(** [Config.validation_set_size(self, num_labeled)] *)
Definition validation_set_size (c : Config) (num_labeled : option Z)
  : result Z :=
  if negb (_configured c) then Raise AssertionError
  else
    match val_set_size c, num_labeled with
    | PyInt z, _ => Ok z
    | PyFloat f, Some k =>
        let? p := times_int (PyFloat f) k in
        int p
    | PyFloat _, None => Raise RuntimeError
    end.

(** [len(obj)] on an object whose [__len__] returns [v]: the builtin
    wants an [int] that is not negative and fits a machine index
    ([sys.maxsize], 2^63 - 1 on the usual 64-bit build). *)
Definition py_len (v : num) : result Z :=
  match v with
  | PyFloat _ => Raise TypeError
  | PyInt z =>
      if z <? 0 then Raise ValueError
      else if 2 ^ 63 <=? z then Raise OverflowError
      else Ok z
  end.

(** What the loop takes from outside the repository: the datasets,
    models, trainers and their outputs of the training engine, the state
    of the random number generators, and the default random querier. *)
Class Engine : Type := {
  Dataset : Type;
  Split : Type;
  Model : Type;
  Trainer : Type;
  TrainOutput : Type;
  Metrics : Type;
  Rng : Type;
  num_rows : Dataset -> Z;
  trainer_model : Trainer -> Model;
  load_best_model_at_end : Trainer -> bool;
  (** [pool.labeled.train_test_split], [trainer_fact(train, test)] and
      [trainer.train()], in one step of the engine; the boolean tells
      whether the trainer left checkpoints in its output directory. *)
  fit : Rng -> Dataset -> list Z -> Z ->
        Split * Trainer * TrainOutput * bool * Rng;
  (** [trainer_fact(model=model).predict] over the selected rows,
      followed by the softmax: one row of class probabilities per
      selected row. *)
  predict_probs : option Model -> Dataset -> list Z -> list (list Float.float);
  (** [ts_trainer_fact(None, ts_dataset, model).evaluate(ts_dataset)] *)
  evaluate_model : Model -> Dataset -> Trainer * Metrics;
  (** [RandomQuerier()(n, idx)]: the call of the instance the default
      constructor builds. *)
  default_sampler : Rng -> num -> list Z -> result (list Z) * Rng
}.

Section Engine.

Context {E : Engine}.

(** *** The pool *)

(** Modelled from the spec: [mdalth.helpers.Pool] is not among the
    sources.  A pool is a dataset with the set of its labeled rows;
    the unlabeled rows are the others of [0 .. num_rows), in order;
    [label] wants every index of the batch unlabeled. *)
Record Pool : Type := {
  dataset : Dataset;
  labeled_idx : gset Z
}.

Definition new_Pool (d : Dataset) : Pool :=
  {| dataset := d; labeled_idx := ∅ |}.

Definition unlabeled_idx (p : Pool) : list Z :=
  List.filter (fun i => negb (bool_decide (i ∈ labeled_idx p)))
              (seqZ 0 (num_rows (dataset p))).

Definition label (batch : list Z) (p : Pool) : result Pool :=
  if forallb (fun i => bool_decide (i ∈ unlabeled_idx p)) batch
  then Ok {| dataset := dataset p;
             labeled_idx := labeled_idx p ∪ list_to_set batch |}
  else Raise AssertionError.

(** *** The run directory *)

(** Modelled from the spec: [mdalth.helpers.IOHelper] is not among
    the sources.  The run directory holds the configuration, the two
    dataset snapshots and, per iteration, a batch file, a model
    directory, a trainer-output file, a checkpoints directory and a
    test-metrics file. *)
Record Disk : Type := {
  root_exists : bool;
  config_path : option Config;
  tr_dataset_path : option Dataset;
  ts_dataset_path : option Dataset;
  batch_path : gmap Z (list Z);
  model_path : gmap Z Model;
  trainer_output_path : gmap Z TrainOutput;
  checkpoints_path : gset Z;
  test_metrics_path : gmap Z Metrics
}.

Definition is_directory_empty (d : Disk) : bool :=
  match config_path d, tr_dataset_path d, ts_dataset_path d with
  | None, None, None =>
      bool_decide (batch_path d = ∅) && bool_decide (model_path d = ∅)
      && bool_decide (trainer_output_path d = ∅)
      && bool_decide (checkpoints_path d = ∅)
      && bool_decide (test_metrics_path d = ∅)
  | _, _, _ => false
  end.

(** [io_helper.valid]: the root is absent, or empty, or may be
    overwritten. *)
Definition valid (overwrite : bool) (d : Disk) : bool :=
  negb (root_exists d) || is_directory_empty d || overwrite.

(** *** Queriers and their wrappers *)

(** A querier is the object one calls: [RandomQuerier] draws from a
    collection of candidate indices, the three others rank the rows
    of a matrix of class probabilities.  [mdalth.querying] is not
    among the sources, so an instance is given by what its call
    does. *)
Definition sampler : Type := Rng -> num -> list Z -> result (list Z) * Rng.
Definition ranker : Type := num -> list (list Float.float) -> result (list Z).

Inductive Querier : Type :=
| RandomQuerier (call : sampler)
| UncertaintyQuerier (call : ranker)
| MarginQuerier (call : ranker)
| EntropyQuerier (call : ranker)
| OtherQuerier.

Inductive QuerierWrapper : Type :=
| RandomQuerierWrapper (querier : sampler)
| ClasswiseProbsQuerierWrapper (querier : ranker).

(** [querier_wrapper_factory] *)
Definition querier_wrapper_factory (q : Querier) : result QuerierWrapper :=
  match q with
  | RandomQuerier f => Ok (RandomQuerierWrapper f)
  | UncertaintyQuerier f | MarginQuerier f | EntropyQuerier f =>
      Ok (ClasswiseProbsQuerierWrapper f)
  | OtherQuerier => Raise TypeError
  end.

(** [idx_map[i] for i in idx_]: positions among the unlabeled rows
    back to rows of the pool. *)
Fixpoint translate (unl : list Z) (idx_ : list Z) : result (list Z) :=
  match idx_ with
  | [] => Ok []
  | i :: rest =>
      if i <? 0 then Raise KeyError
      else match unl !! Z.to_nat i with
           | None => Raise KeyError
           | Some a => let? r := translate unl rest in Ok (a :: r)
           end
  end.

(** [QuerierWrapper.__call__(n_query, model)].  The wrapper holds the
    very pool the learner mutates, so it is handed the pool as it is
    when the call is made. *)
Definition wrapper_call (w : QuerierWrapper) (p : Pool) (n_query : num)
    (model : option Model) (g : Rng) : result (list Z) * Rng :=
  match w with
  | RandomQuerierWrapper q => q g n_query (unlabeled_idx p)
  | ClasswiseProbsQuerierWrapper q =>
      let unl := unlabeled_idx p in
      let classwise_probs := predict_probs model (dataset p) unl in
      (let? idx_ := q n_query classwise_probs in translate unl idx_, g)
  end.

(** *** LearnerState *)

Record LearnerState : Type := {
  batch : list Z;
  state_dataset : option Split;
  state_iteration : Z;
  trainer : option Trainer;
  train_output : option TrainOutput;
  best_model : option Model
}.

(** [LearnerState(...)] with its [__post_init__]. *)
Definition new_LearnerState (b : list Z) (d : option Split) (i : Z)
    (t : option Trainer) (o : option TrainOutput) (best : option Model)
  : LearnerState :=
  let best' :=
    match t with
    | Some tr =>
        if load_best_model_at_end tr || negb (bool_decide (is_Some best))
        then Some (trainer_model tr) else best
    | None => best
    end in
  {| batch := b; state_dataset := d; state_iteration := i;
     trainer := t; train_output := o; best_model := best' |}.

(** *** Learner *)

Record Learner : Type := {
  pool : Pool;
  config : Config;
  iteration : Z;
  querier : QuerierWrapper;
  state : option LearnerState
}.

(** What a [Learner] method can touch: the instance, the run
    directory and the random number generators. *)
Record LearnerWorld : Type := {
  learner : Learner;
  disk : Disk;
  rng : Rng
}.

Definition on_learner (f : Learner -> Learner) : M LearnerWorld unit :=
  modify (fun w => {| learner := f (learner w); disk := disk w; rng := rng w |}).
Definition on_disk (f : Disk -> Disk) : M LearnerWorld unit :=
  modify (fun w => {| learner := learner w; disk := f (disk w); rng := rng w |}).
Definition the {A : Type} (f : Learner -> A) : M LearnerWorld A :=
  fun w => (Ok (f (learner w)), w).
Definition the_disk {A : Type} (f : Disk -> A) : M LearnerWorld A :=
  fun w => (Ok (f (disk w)), w).
(** A call that consumes randomness. *)
Definition draw {A : Type} (f : Rng -> result A * Rng) : M LearnerWorld A :=
  fun w => let '(r, g) := f (rng w) in
           (r, {| learner := learner w; disk := disk w; rng := g |}).

Definition set_pool (p : Pool) (l : Learner) : Learner :=
  {| pool := p; config := config l; iteration := iteration l;
     querier := querier l; state := state l |}.
Definition set_iteration (i : Z) (l : Learner) : Learner :=
  {| pool := pool l; config := config l; iteration := i;
     querier := querier l; state := state l |}.
Definition set_state (s : option LearnerState) (l : Learner) : Learner :=
  {| pool := pool l; config := config l; iteration := iteration l;
     querier := querier l; state := s |}.

Definition set_querier (q : QuerierWrapper) (l : Learner) : Learner :=
  {| pool := pool l; config := config l; iteration := iteration l;
     querier := q; state := state l |}.

(** The same world, but for the querier the learner was built with. *)
Definition with_querier (q : QuerierWrapper) (w : LearnerWorld) : LearnerWorld :=
  {| learner := set_querier q (learner w); disk := disk w; rng := rng w |}.

(** A method ignores the querier the learner was built with when, run
    on a learner with another querier, it returns the same result and
    leaves the same world, but for that querier. *)
Definition ignores_querier {A : Type} (c : M LearnerWorld A) : Prop :=
  forall (q : QuerierWrapper) (w : LearnerWorld),
    c (with_querier q w) = (fst (c w), with_querier q (snd (c w))).

(** [Learner.__init__]; a missing querier is a fresh [RandomQuerier]. *)
Definition new_Learner (p : Pool) (c : Config) (overwrite : bool)
    (q : option Querier) (_iteration : Z) (d : Disk) : result Learner :=
  if negb (valid overwrite d) then Raise FileExistsError
  else
    let q' := match q with
              | None => RandomQuerier default_sampler
              | Some q0 => q0
              end in
    let? w := querier_wrapper_factory q' in
    Ok {| pool := p; config := c; iteration := _iteration;
          querier := w; state := None |}.

(** [Learner.pre] *)
Definition pre : M LearnerWorld unit := ret tt.

(** [Learner.post]: [shutil.rmtree] of the iteration's checkpoints. *)
Definition post : M LearnerWorld unit :=
  let* i := the iteration in
  let* ckpts := the_disk checkpoints_path in
  if bool_decide (i ∈ ckpts) then
    on_disk (fun d =>
      {| root_exists := root_exists d; config_path := config_path d;
         tr_dataset_path := tr_dataset_path d;
         ts_dataset_path := ts_dataset_path d;
         batch_path := batch_path d; model_path := model_path d;
         trainer_output_path := trainer_output_path d;
         checkpoints_path := checkpoints_path d ∖ {[ i ]};
         test_metrics_path := test_metrics_path d |})
  else raise FileNotFoundError.

(** [Learner.query_first]: a [RandomQuerier()] built on the spot. *)
Definition query_first : M LearnerWorld (list Z) :=
  let* c := the config in
  let* p := the pool in
  draw (fun g => default_sampler g (n_start c) (unlabeled_idx p)).

(** [Learner.query]: the wrapped querier of the constructor. *)
Definition query : M LearnerWorld (list Z) :=
  let* c := the config in
  let* st := the state in
  match st with
  | None => raise AttributeError
  | Some s =>
      let* q := the querier in
      let* p := the pool in
      draw (wrapper_call q p (n_query c) (best_model s))
  end.

(** [Learner.train] *)
Definition train (b : list Z)
  : M LearnerWorld (Split * Trainer * TrainOutput) :=
  let* p := the pool in
  let* p' := lift (label b p) in
  on_learner (set_pool p') ;;
  let* c := the config in
  let* test_size :=
    lift (validation_set_size c (Some (Z.of_nat (size (labeled_idx p'))))) in
  let* i := the iteration in
  let* r := draw (fun g =>
              let '(sp, tr, out, saved, g') :=
                fit g (dataset p') (elements (labeled_idx p')) test_size in
              (Ok (sp, tr, out, saved), g')) in
  let '(sp, tr, out, saved) := r in
  (if saved : bool then
     on_disk (fun d =>
       {| root_exists := root_exists d; config_path := config_path d;
          tr_dataset_path := tr_dataset_path d;
          ts_dataset_path := ts_dataset_path d;
          batch_path := batch_path d; model_path := model_path d;
          trainer_output_path := trainer_output_path d;
          checkpoints_path := checkpoints_path d ∪ {[ i ]};
          test_metrics_path := test_metrics_path d |})
   else ret tt) ;;
  ret (sp, tr, out).

(** [Learner.save_to_disk] *)
Definition save_to_disk (b : list Z) (m : Model) (o : TrainOutput)
  : M LearnerWorld unit :=
  let* i := the iteration in
  let* c := the config in
  let* p := the pool in
  (if i =? 0 then
     on_disk (fun d =>
       {| root_exists := true; config_path := Some c;
          tr_dataset_path := Some (dataset p);
          ts_dataset_path := ts_dataset_path d;
          batch_path := batch_path d; model_path := model_path d;
          trainer_output_path := trainer_output_path d;
          checkpoints_path := checkpoints_path d;
          test_metrics_path := test_metrics_path d |})
   else ret tt) ;;
  on_disk (fun d =>
    {| root_exists := root_exists d; config_path := config_path d;
       tr_dataset_path := tr_dataset_path d;
       ts_dataset_path := ts_dataset_path d;
       batch_path := <[ i := b ]> (batch_path d);
       model_path := <[ i := m ]> (model_path d);
       trainer_output_path := <[ i := o ]> (trainer_output_path d);
       checkpoints_path := checkpoints_path d;
       test_metrics_path := test_metrics_path d |}).

(** The steps the first run and an advance share, after the batch is
    chosen. *)
Definition finish (b : list Z) : M LearnerWorld LearnerState :=
  let* r := train b in
  let '(sp, tr, out) := r in
  save_to_disk b (trainer_model tr) out ;;
  post ;;
  let* i := the iteration in
  on_learner (set_iteration (i + 1)) ;;
  let st := new_LearnerState b (Some sp) (i + 1) (Some tr) (Some out) None in
  on_learner (set_state (Some st)) ;;
  ret st.

(** [Learner.__call__]: the first run. *)
Definition __call__ : M LearnerWorld LearnerState :=
  let* i := the iteration in
  if negb (i =? 0) then raise RuntimeError
  else
    pre ;;
    let* b := query_first in
    finish b.

(** [Learner.__len__] under the builtin [len]. *)
Definition learner_len : M LearnerWorld Z :=
  let* c := the config in
  lift (py_len (n_iterations c)).

(** [Learner.__next__]: an advance of the iterator. *)
Definition __next__ : M LearnerWorld LearnerState :=
  let* i := the iteration in
  if i =? 0 then raise RuntimeError
  else
    let* n := learner_len in
    if n <? i then raise StopIteration
    else
      pre ;;
      let* b := query in
      finish b.

(** *** Evaluator *)

Record Evaluator : Type := {
  ts_dataset : Dataset;
  ev_iteration : Z;
  ev_config : Config;
  ev_pool : Pool
}.

Record EvaluatorWorld : Type := {
  evaluator : Evaluator;
  ev_disk : Disk
}.

(** [io_helper.exists(ts_dataset)] *)
Definition exists_ (need_ts : bool) (d : Disk) : bool :=
  root_exists d && (negb need_ts || bool_decide (is_Some (ts_dataset_path d))).

(** [Evaluator.__init__]: the configuration and the training dataset
    are read back from the run directory. *)
Definition new_Evaluator (ts : Dataset) (_iteration : Z) (d : Disk)
  : result Evaluator :=
  if negb (exists_ false d) then Raise FileNotFoundError
  else
    match config_path d, tr_dataset_path d with
    | Some c, Some tr =>
        Ok {| ts_dataset := ts; ev_iteration := _iteration;
              ev_config := c; ev_pool := new_Pool tr |}
    | _, _ => Raise FileNotFoundError
    end.

Definition on_evaluator (f : Evaluator -> Evaluator) : M EvaluatorWorld unit :=
  modify (fun w => {| evaluator := f (evaluator w); ev_disk := ev_disk w |}).
Definition on_ev_disk (f : Disk -> Disk) : M EvaluatorWorld unit :=
  modify (fun w => {| evaluator := evaluator w; ev_disk := f (ev_disk w) |}).
Definition its {A : Type} (f : Evaluator -> A) : M EvaluatorWorld A :=
  fun w => (Ok (f (evaluator w)), w).
Definition on_file {A : Type} (f : Disk -> option A) : M EvaluatorWorld A :=
  fun w => match f (ev_disk w) with
           | Some a => (Ok a, w)
           | None => (Raise FileNotFoundError, w)
           end.

(** [Evaluator.__len__] under the builtin [len]. *)
Definition evaluator_len : M EvaluatorWorld Z :=
  let* c := its ev_config in
  lift (py_len (n_iterations c)).

(** [Evaluator.eval] *)
Definition eval : M EvaluatorWorld (Trainer * Metrics) :=
  let* i := its ev_iteration in
  let* model := on_file (fun d => model_path d !! i) in
  let* ts := its ts_dataset in
  ret (evaluate_model model ts).

(** [Evaluator.save_to_disk] *)
Definition ev_save_to_disk (results : Metrics) : M EvaluatorWorld unit :=
  let* i := its ev_iteration in
  let* ts := its ts_dataset in
  (if i =? 0 then
     on_ev_disk (fun d =>
       {| root_exists := root_exists d; config_path := config_path d;
          tr_dataset_path := tr_dataset_path d;
          ts_dataset_path := Some ts;
          batch_path := batch_path d; model_path := model_path d;
          trainer_output_path := trainer_output_path d;
          checkpoints_path := checkpoints_path d;
          test_metrics_path := test_metrics_path d |})
   else ret tt) ;;
  on_ev_disk (fun d =>
    {| root_exists := root_exists d; config_path := config_path d;
       tr_dataset_path := tr_dataset_path d;
       ts_dataset_path := ts_dataset_path d;
       batch_path := batch_path d; model_path := model_path d;
       trainer_output_path := trainer_output_path d;
       checkpoints_path := checkpoints_path d;
       test_metrics_path := <[ i := results ]> (test_metrics_path d) |}).

(** [Evaluator.__next__]; its [pre] and [post] do nothing. *)
Definition ev_next : M EvaluatorWorld (Model * Metrics) :=
  let* i := its ev_iteration in
  let* n := evaluator_len in
  if n <? i then raise StopIteration
  else
    let* b := on_file (fun d => batch_path d !! i) in
    let* p := its ev_pool in
    let* p' := lift (label b p) in
    on_evaluator (fun e =>
      {| ts_dataset := ts_dataset e; ev_iteration := ev_iteration e;
         ev_config := ev_config e; ev_pool := p' |}) ;;
    let* r := eval in
    let '(tr, results) := r in
    ev_save_to_disk results ;;
    on_evaluator (fun e =>
      {| ts_dataset := ts_dataset e; ev_iteration := ev_iteration e + 1;
         ev_config := ev_config e; ev_pool := ev_pool e |}) ;;
    ret (trainer_model tr, results).

(** Advancing the iterator until it raises, as a [for] loop over the
    evaluator does: the number of advances that returned, the
    exception that ended the loop and the world left behind.  [None]
    when the fuel ran out first. *)
Fixpoint exhaust (fuel : nat) (w : EvaluatorWorld)
  : option (nat * exn * EvaluatorWorld) :=
  match fuel with
  | O => None
  | S fuel' =>
      match ev_next w with
      | (Raise e, w') => Some (O, e, w')
      | (Ok _, w') =>
          match exhaust fuel' w' with
          | Some (k, e, w'') => Some (S k, e, w'')
          | None => None
          end
      end
  end.

(** The run directory can be replayed for [k] iterations from iteration
    [i]: each has its batch file and its model directory, and the batches
    can be labeled one after the other, starting from the pool [p]. *)
Fixpoint replayable (k : nat) (i : Z) (p : Pool) (d : Disk) : bool :=
  match k with
  | O => true
  | S k' =>
      match batch_path d !! i, model_path d !! i with
      | Some b, Some _ =>
          match label b p with
          | Ok p' => replayable k' (i + 1) p' d
          | Raise _ => false
          end
      | _, _ => false
      end
  end.

End Engine.

End Learning.

(** ** mdalth/learning.py: a run to the end

    [Learner.__iter__] returns the learner itself, so a loop over a
    learner is a sequence of calls of [__next__]. *)

Module Loop.
Import Learning.

Section Loop.

Context {E : Engine}.

(** [k] advances of the iterator, one after the other, with the states
    they return; the first exception ends them. *)
Fixpoint advances (k : nat) : M LearnerWorld (list LearnerState) :=
  match k with
  | O => ret []
  | S k' =>
      let* st := __next__ in
      let* sts := advances k' in
      ret (st :: sts)
  end.

(** The pool an [Evaluator] holds after [k] iterations read back from the
    run directory, from iteration [i] and the pool [p]; [None] when a
    batch file or a model directory is missing or a batch cannot be
    labeled. *)
Fixpoint replay (k : nat) (i : Z) (p : Pool) (d : Disk) : option Pool :=
  match k with
  | O => Some p
  | S k' =>
      match batch_path d !! i, model_path d !! i with
      | Some b, Some _ =>
          match label b p with
          | Ok p' => replay k' (i + 1) p' d
          | Raise _ => None
          end
      | _, _ => None
      end
  end.

End Loop.

End Loop.


(** ** tmp/stopping/stoppers.py *)

Module Stoppers.
Import Float.

(** [collections.deque(maxlen=n).append(x)]: a full deque drops its
    leftmost element, and a deque of capacity 0 stays empty. *)
Definition deque_append {A : Type} (maxlen : nat) (d : list A) (x : A) : list A :=
  if (maxlen =? 0)%nat then d
  else if (length d <? maxlen)%nat then d ++ [x]
  else List.tl d ++ [x].

(** [deque(maxlen=windows)] refuses a negative capacity. *)
Definition new_deque (windows : Z) : result nat :=
  if windows <? 0 then Raise ValueError else Ok (Z.to_nat windows).

Section Stoppers.

(** The arrays and what numpy and scikit-learn compute on them. *)
Variable ndarray : Type.
Variable array_equal : ndarray -> ndarray -> bool.
Variable cohen_kappa_score : ndarray -> ndarray -> float.
(** [np.mean] of an array, and of a deque of floats. *)
Variable mean_of_array : ndarray -> float.
Variable mean : list float -> float.

(** *** StabilizingPredictionsStopper *)

Record StabilizingPredictionsStopper : Type := {
  sp_windows : nat;
  threshold : float;
  agreement_scores : list float;
  prv_stop_set_preds : option ndarray
}.

Definition new_StabilizingPredictionsStopper (windows : Z) (t : float)
  : result StabilizingPredictionsStopper :=
  let? w := new_deque windows in
  Ok {| sp_windows := w; threshold := t;
        agreement_scores := []; prv_stop_set_preds := None |}.

(** The agreement of a call with the one before. *)
Definition agreement (prv : option ndarray) (stop_set_preds : ndarray) : float :=
  match prv with
  | None => nan
  | Some p =>
      if array_equal p stop_set_preds then one
      else cohen_kappa_score p stop_set_preds
  end.

(** [StabilizingPredictionsStopper.__call__] *)
Definition sp_call (stop_set_preds : ndarray) (st : StabilizingPredictionsStopper)
  : bool * StabilizingPredictionsStopper :=
  let a := agreement (prv_stop_set_preds st) stop_set_preds in
  let scores := deque_append (sp_windows st) (agreement_scores st) a in
  let st' := {| sp_windows := sp_windows st; threshold := threshold st;
                agreement_scores := scores;
                prv_stop_set_preds := Some stop_set_preds |} in
  if (length scores <? sp_windows st)%nat then (false, st')
  else if ltb (threshold st) (mean scores) then (true, st')
  else (false, st').

(** The stopper after a sequence of calls, oldest first. *)
Definition sp_feed (calls : list ndarray) (st : StabilizingPredictionsStopper)
  : StabilizingPredictionsStopper :=
  fold_left (fun s p => snd (sp_call p s)) calls st.

(** *** ChangingConfidenceStopper *)

Record ChangingConfidenceStopper : Type := {
  cc_windows : nat;
  mode : string;
  conf_scores : list float
}.

Definition new_ChangingConfidenceStopper (windows : Z) (m : string)
  : result ChangingConfidenceStopper :=
  let? w := new_deque windows in
  Ok {| cc_windows := w; mode := m; conf_scores := [] |}.

(** [ChangingConfidenceStopper.__call__]; [popleft] on an empty deque
    raises [IndexError]. *)
Definition cc_call (stop_set_confs : ndarray) (st : ChangingConfidenceStopper)
  : result bool * ChangingConfidenceStopper :=
  let c := mean_of_array stop_set_confs in
  if (length (conf_scores st) <? cc_windows st)%nat then
    (Ok false, {| cc_windows := cc_windows st; mode := mode st;
                  conf_scores := deque_append (cc_windows st) (conf_scores st) c |})
  else
    match conf_scores st with
    | [] => (Raise IndexError, st)
    | prv :: rest =>
        let scores := deque_append (cc_windows st) rest c in
        let st' := {| cc_windows := cc_windows st; mode := mode st;
                      conf_scores := scores |} in
        if String.eqb (mode st) "D" && forallb (fun c' => ltb c' prv) scores
        then (Ok true, st')
        else if String.eqb (mode st) "N" && forallb (fun c' => leb c' prv) scores
        then (Ok true, st')
        else (Ok false, st')
    end.

(** *** ClassificationChangeStopper *)

Record ClassificationChangeStopper : Type := {
  cl_windows : nat;
  unlabeled_preds : list ndarray
}.

Definition new_ClassificationChangeStopper (windows : Z)
  : result ClassificationChangeStopper :=
  let? w := new_deque windows in
  Ok {| cl_windows := w; unlabeled_preds := [] |}.

(** The loop [for i in range(n): if not array_equal(d[i], d[i + 1]):
    return False], started at index [i]; indexing a deque out of range
    raises [IndexError]. *)
Fixpoint all_unchanged (d : list ndarray) (i n : nat) : result bool :=
  match n with
  | O => Ok true
  | S n' =>
      match d !! i, d !! S i with
      | Some a, Some b =>
          if array_equal a b then all_unchanged d (S i) n' else Ok false
      | _, _ => Raise IndexError
      end
  end.

(** [ClassificationChangeStopper.__call__] *)
Definition cl_call (preds : ndarray) (st : ClassificationChangeStopper)
  : result bool * ClassificationChangeStopper :=
  let d := deque_append (cl_windows st) (unlabeled_preds st) preds in
  let st' := {| cl_windows := cl_windows st; unlabeled_preds := d |} in
  if (length d <? cl_windows st)%nat then (Ok false, st')
  else (all_unchanged d 0 (cl_windows st - 1), st').

End Stoppers.

Arguments sp_windows {ndarray} _.
Arguments threshold {ndarray} _.
Arguments agreement_scores {ndarray} _.
Arguments prv_stop_set_preds {ndarray} _.
Arguments Build_StabilizingPredictionsStopper {ndarray} _ _ _ _.
Arguments agreement {ndarray} _ _ _ _.
Arguments sp_call {ndarray} _ _ _ _ _.
Arguments sp_feed {ndarray} _ _ _ _ _.
Arguments cc_call {ndarray} _ _ _.
Arguments cl_windows {ndarray} _.
Arguments unlabeled_preds {ndarray} _.
Arguments Build_ClassificationChangeStopper {ndarray} _ _.
Arguments all_unchanged {ndarray} _ _ _ _.
Arguments cl_call {ndarray} _ _ _.

End Stoppers.

(** ** tmp/stopping/stoppers.py: a stopper asked again and again *)

Module Calls.
Import Float Stoppers.

Section Calls.

Variable ndarray : Type.
Variable mean_of_array : ndarray -> float.

(** A [ChangingConfidenceStopper] called on one array after the other,
    oldest first: the answers, and the stopper left behind.  The first
    exception ends the calls, as it ends the loop that makes them. *)
Fixpoint cc_run (calls : list ndarray) (st : ChangingConfidenceStopper)
  : result (list bool) * ChangingConfidenceStopper :=
  match calls with
  | [] => (Ok [], st)
  | c :: rest =>
      match cc_call mean_of_array c st with
      | (Ok b, st') =>
          match cc_run rest st' with
          | (Ok bs, st'') => (Ok (b :: bs), st'')
          | (Raise e, st'') => (Raise e, st'')
          end
      | (Raise e, st') => (Raise e, st')
      end
  end.

End Calls.

Arguments cc_run {ndarray} _ _ _.

End Calls.

(** ** The numbers of the worked examples *)

Module Examples.
Import Float.

(** [0.5], [0.1], [1.5] and [5.0] as binary64 values. *)
Definition half : float := S754_finite false 4503599627370496 (-53).
Definition tenth : float := S754_finite false 7205759403792794 (-56).
Definition one_and_half : float := S754_finite false 6755399441055744 (-52).
Definition five : float := S754_finite false 5629499534213120 (-50).

(** [int] on a string of decimal digits, which is all the examples
    need of it; anything else is refused. *)
Definition digit_of (c : ascii) : option Z :=
  let n := Z.of_nat (nat_of_ascii c) in
  if (48 <=? n) && (n <=? 57) then Some (n - 48) else None.

Fixpoint int_of_digits (acc : Z) (s : string) : option Z :=
  match s with
  | EmptyString => Some acc
  | String c rest =>
      match digit_of c with
      | Some d => int_of_digits (10 * acc + d) rest
      | None => None
      end
  end.

Definition int_of_decimal (s : string) : option Z :=
  match s with
  | EmptyString => None
  | _ => int_of_digits 0 s
  end.

(** A file system where no directory can be listed. *)
Definition no_iterdir (p : Utils.Path) : result (list Utils.Path) :=
  Raise FileNotFoundError.

Definition file (n : string) : Utils.Path :=
  {| Utils.parent := ["run"%string; "iterations"%string]; Utils.name := n |}.

(** [np.mean] of a short sequence of floats: the sum, left to right,
    over the length. *)
Definition mean_seq (l : list float) : float :=
  SFdiv prec emax
    (fold_left (SFadd prec emax) l zero)
    (binary_normalize prec emax (Z.of_nat (length l)) 0 false).

(** [np.array_equal] on arrays of integer predictions. *)
Definition int_array_equal (a b : list Z) : bool := bool_decide (a = b).

(** A stand-in for [cohen_kappa_score] where the arrays never differ. *)
Definition constant_kappa (a b : list Z) : float := zero.

(** [0.9] *)
Definition nine_tenths : float := S754_finite false 8106479329266893 (-53).

(** [Config()] with every default, before [__post_init__] has run. *)
Definition default_fields : Learning.Config :=
  {| Learning.n_rows := None;
     Learning.n_start := PyFloat tenth;
     Learning.n_query := PyFloat tenth;
     Learning.val_set_size := PyFloat tenth;
     Learning.n_iterations := PyFloat one;
     Learning.learn := false;
     Learning.evaluate := false;
     Learning.resume := false;
     Learning.resume_from_checkpoint := Some 0;
     Learning._configured := false |}.

(** [Config(n_rows=rows)] with the other fields at their defaults. *)
Definition default_Config (rows : option Z)
  : result Learning.Config * list Learning.warning :=
  Learning.new_Config rows (PyFloat tenth) (PyFloat tenth) (PyFloat tenth)
    (PyFloat one) false false false (Some 0).

(** A toy engine to run the loop on: a dataset is its number of rows, a
    model the rows it was trained on, the metrics their number, and the
    default random querier draws the first candidates. *)
Definition toy_sampler (g : Z) (n : num) (idx : list Z) : result (list Z) * Z :=
  match n with
  | PyInt k =>
      if (0 <=? k) && (k <=? Z.of_nat (length idx))
      then (Ok (firstn (Z.to_nat k) idx), g + 1)
      else (Raise ValueError, g)
  | PyFloat _ => (Raise TypeError, g)
  end.

Definition toy_engine : Learning.Engine :=
  {| Learning.Dataset := Z;
     Learning.Split := list Z * Z;
     Learning.Model := list Z;
     Learning.Trainer := list Z;
     Learning.TrainOutput := Z;
     Learning.Metrics := Z;
     Learning.Rng := Z;
     Learning.num_rows := fun d => d;
     Learning.trainer_model := fun t => t;
     Learning.load_best_model_at_end := fun _ => false;
     Learning.fit := fun g _ rows test_size =>
       ((rows, test_size), rows, Z.of_nat (length rows), true, g + 1);
     Learning.predict_probs := fun _ _ rows =>
       List.map (fun _ => [half; half]) rows;
     Learning.evaluate_model := fun m _ => (m, Z.of_nat (length m));
     Learning.default_sampler := toy_sampler |}.

(** A configured [Config] for 4 rows: 2 to start, 1 per query, and
    [n_iterations = 1]. *)
Definition toy_config : Learning.Config :=
  {| Learning.n_rows := Some 4;
     Learning.n_start := PyInt 2;
     Learning.n_query := PyInt 1;
     Learning.val_set_size := PyInt 1;
     Learning.n_iterations := PyInt 1;
     Learning.learn := true;
     Learning.evaluate := true;
     Learning.resume := false;
     Learning.resume_from_checkpoint := Some 0;
     Learning._configured := true |}.

(** The run directory a learner leaves for [toy_config]: the batches and
    models of iterations 0 and 1. *)
Definition toy_disk : @Learning.Disk toy_engine :=
  @Learning.Build_Disk toy_engine
    true                                       (* root_exists *)
    (Some toy_config)                          (* config_path *)
    (Some 4)                                   (* tr_dataset_path *)
    None                                       (* ts_dataset_path *)
    (<[ 1 := [2] ]> (<[ 0 := [0; 1] ]> ∅))     (* batch_path *)
    (<[ 1 := [0; 1; 2] ]> (<[ 0 := [0; 1] ]> ∅)) (* model_path *)
    (<[ 1 := 3 ]> (<[ 0 := 2 ]> ∅))            (* trainer_output_path *)
    ∅                                          (* checkpoints_path *)
    ∅.                                         (* test_metrics_path *)

(** [Evaluator(ts_trainer_fact, ts_dataset, io_helper)] over it, with a
    test set of 5 rows. *)
Definition toy_evaluator_world : @Learning.EvaluatorWorld toy_engine :=
  @Learning.Build_EvaluatorWorld toy_engine
    (@Learning.Build_Evaluator toy_engine
       5 0 toy_config (@Learning.new_Pool toy_engine 4))
    toy_disk.

(** An empty place for a run directory. *)
Definition toy_empty_disk : @Learning.Disk toy_engine :=
  @Learning.Build_Disk toy_engine false None None None ∅ ∅ ∅ ∅ ∅.

(** An uncertainty querier that always asks for the first candidate. *)
Definition toy_ranker : @Learning.ranker :=
  fun _ _ => Ok [0].

(** [Learner(pool, config, io_helper, trainer_fact, UncertaintyQuerier())]
    over 4 unlabeled rows, before its first run. *)
Definition toy_learner_world : @Learning.LearnerWorld toy_engine :=
  @Learning.Build_LearnerWorld toy_engine
    (@Learning.Build_Learner toy_engine
       (@Learning.new_Pool toy_engine 4) toy_config 0
       (@Learning.ClasswiseProbsQuerierWrapper toy_engine toy_ranker) None)
    toy_empty_disk 0.

End Examples.

(* ===================================================================== *)
(** * Part II: the properties                                              *)
(* ===================================================================== *)

Import Float Utils Learning Examples.

(** ** The iteration count *)

(** For a positive [n_query] the count is the least [k] whose [k]
    queries cover the rows left after the start. *)
Lemma compute_total_al_iterations_covers (n_rows n_start n_query : Z) :
  0 < n_query ->
  exists k,
    compute_total_al_iterations n_rows n_start n_query = Ok k
    /\ (k - 1) * n_query < n_rows - n_start <= k * n_query
    /\ ((n_rows - n_start) mod n_query = 0 ->
        k = (n_rows - n_start) / n_query)
    /\ ((n_rows - n_start) mod n_query <> 0 ->
        k = (n_rows - n_start) / n_query + 1).
Proof.
  intros Hq.
  unfold compute_total_al_iterations.
  destruct (Z.eqb_spec n_query 0) as [->|_]; [lia|].
  set (n := n_rows - n_start).
  pose proof (Z.div_mod n n_query ltac:(lia)) as Hdm.
  pose proof (Z.mod_pos_bound n n_query Hq) as Hb.
  destruct (Z.eqb_spec (n mod n_query) 0) as [Hr|Hr].
  - exists (n / n_query). repeat split; lia.
  - exists (n / n_query + 1). repeat split; lia.
Qed.

(** C2: for [n_start < n_rows] and [n_query > 0] the iteration count is
    the ceiling of [(n_rows - n_start) / n_query]: the least [k] with
    [n_rows - n_start <= k * n_query]; it is the floored quotient when
    [n_query] divides [n_rows - n_start] and that quotient plus one
    otherwise; 100 rows, 10 to start and 10 per query give exactly 9. *)
Theorem compute_total_al_iterations_is_ceiling (n_rows n_start n_query : Z) :
  n_start < n_rows -> 0 < n_query ->
  exists k,
    compute_total_al_iterations n_rows n_start n_query = Ok k
    /\ (k - 1) * n_query < n_rows - n_start <= k * n_query
    /\ k = Qceiling (Qmake (n_rows - n_start) (Z.to_pos n_query))
    /\ ((n_rows - n_start) mod n_query = 0 ->
        k = (n_rows - n_start) / n_query)
    /\ ((n_rows - n_start) mod n_query <> 0 ->
        k = (n_rows - n_start) / n_query + 1)
    /\ compute_total_al_iterations 100 10 10 = Ok 9.
Proof.
  intros _ Hq.
  destruct (compute_total_al_iterations_covers n_rows n_start n_query Hq)
    as (k & Hk & Hb & Hd & Hnd).
  exists k. repeat split; try tauto.
  unfold Qceiling, Qfloor, Qopp; simpl. rewrite Z2Pos.id by lia.
  set (n := n_rows - n_start) in *.
  assert (Hc : (- n) / n_query = - k).
  { symmetry. apply (Z.div_unique_pos (- n) n_query (- k) (k * n_query - n)); lia. }
  lia.
Qed.

Lemma compute_total_al_iterations_is_ceiling_witness :
  exists k,
    compute_total_al_iterations 103 10 10 = Ok k
    /\ (k - 1) * 10 < 103 - 10 <= k * 10
    /\ k = Qceiling (Qmake (103 - 10) (Z.to_pos 10))
    /\ ((103 - 10) mod 10 = 0 -> k = (103 - 10) / 10)
    /\ ((103 - 10) mod 10 <> 0 -> k = (103 - 10) / 10 + 1)
    /\ compute_total_al_iterations 100 10 10 = Ok 9.
Proof.
  apply (compute_total_al_iterations_is_ceiling 103 10 10); lia.
Defined.

(** ** Floats and the integers they denote *)

Lemma pow2_pos (k : Z) : 0 <= k -> 0 < 2 ^ k.
Proof. intros; apply Z.pow_pos_nonneg; lia. Qed.

Lemma Zpos_to_pos_pow2 (k : Z) : 0 <= k -> Zpos (Z.to_pos (2 ^ k)) = 2 ^ k.
Proof. intros; apply Z2Pos.id, pow2_pos; assumption. Qed.

(** On a float without fractional part [int] returns the very number
    the float denotes. *)
Lemma int_of_float_integral (x : float) :
  Float.is_integer x = true ->
  exists n, int_of_float x = Ok n /\ (to_Q x == inject_Z n)%Q.
Proof.
  destruct x as [s|s| |s m e]; simpl; try discriminate.
  - intros _. exists 0. split; reflexivity.
  - destruct (Z.leb_spec 0 e) as [He|He].
    + intros _. eexists; split; reflexivity.
    + intros Hm%Z.eqb_eq. eexists; split; [reflexivity|].
      unfold Qeq; simpl. rewrite Zpos_to_pos_pow2 by lia.
      assert (Hp : 0 < 2 ^ (- e)) by (apply pow2_pos; lia).
      assert (Hs : signed s m mod 2 ^ (- e) = 0).
      { destruct s; simpl; [|exact Hm].
        change (Z.neg m) with (- Z.pos m).
        apply Z.mod_opp_l_z; [lia|exact Hm]. }
      rewrite Z.quot_div_exact; [|lia|apply Z.mod_divide; [lia|exact Hs]].
      pose proof (Z.div_mod (signed s m) (2 ^ (- e)) ltac:(lia)). nia.
Qed.

(** [int] truncates a finite float toward zero. *)
Lemma int_of_float_truncates (p : float) :
  is_finite p = true ->
  exists n, int_of_float p = Ok n
    /\ ((0 <= to_Q p)%Q -> n = Qfloor (to_Q p))
    /\ ((to_Q p <= 0)%Q -> n = Qceiling (to_Q p)).
Proof.
  destruct p as [s|s| |s m e]; simpl; try discriminate; intros _.
  - exists 0. repeat split.
  - destruct (Z.leb_spec 0 e) as [He|He]; eexists; (split; [reflexivity|]).
    + split; intros _.
      * rewrite Qfloor_Z. reflexivity.
      * rewrite Qceiling_Z. reflexivity.
    + assert (Hp : 0 < 2 ^ (- e)) by (apply pow2_pos; lia).
      unfold Qceiling, Qfloor, Qle; simpl.
      rewrite !Zpos_to_pos_pow2 by lia.
      split; intros Hs.
      * rewrite Z.quot_div_nonneg; lia.
      * rewrite <- (Z.opp_involutive (signed s m)) at 1.
        rewrite Z.quot_opp_l by lia.
        rewrite Z.quot_div_nonneg by lia. reflexivity.
Qed.

(** A rounded result carries the sign it was given, whatever it rounds to. *)
Lemma binary_round_aux_sign (s : bool) (m e : Z) (l : location) :
  match binary_round_aux prec emax s m e l with
  | S754_zero s' | S754_infinity s' | S754_finite s' _ _ => s' = s
  | S754_nan => True
  end.
Proof.
  unfold binary_round_aux.
  destruct (shr_fexp prec emax m e l) as [mrs' e'].
  destruct (shr_fexp prec emax _ e' loc_Exact) as [mrs'' e''].
  destruct (shr_m mrs''); auto.
  destruct (_ <=? _); reflexivity.
Qed.

Lemma to_Q_nonneg (x : float) :
  match x with
  | S754_finite true _ _ => False
  | _ => True
  end -> (0 <= to_Q x)%Q.
Proof.
  destruct x as [s|s| |s m e]; simpl; try (intros; apply Qle_refl).
  destruct s; [contradiction|intros _].
  destruct (Z.leb_spec 0 e) as [He|He].
  - unfold Qle; simpl. pose proof (pow2_pos e He). nia.
  - unfold Qle; simpl. lia.
Qed.

(** The float of an integer that is not negative is not negative. *)
Lemma float_of_int_nonneg (t : Z) (ft : float) :
  0 <= t -> float_of_int t = Ok ft ->
  match ft with
  | S754_zero s | S754_finite s _ _ => s = false
  | _ => False
  end.
Proof.
  intros Ht. unfold float_of_int, binary_normalize.
  destruct t as [|p|p]; [| |lia].
  - intros [= <-]. reflexivity.
  - unfold binary_round.
    destruct (shl_align _ _ _) as [mz ez].
    pose proof (binary_round_aux_sign false (Zpos mz) ez loc_Exact) as Hs.
    destruct (binary_round_aux _ _ _ _ _ _); intros [= <-]; exact Hs.
Qed.

(** What [0 <= x] leaves of the floats. *)
Lemma leb_zero_inv (x : float) :
  leb zero x = true ->
  match x with
  | S754_zero _ | S754_finite false _ _ | S754_infinity false => True
  | _ => False
  end.
Proof. destruct x as [s|[]| |[] m e]; simpl; auto; discriminate. Qed.

(** A proportion times a count that is not negative is not negative. *)
Lemma mul_nonneg (x ft : float) (t : Z) :
  leb zero x = true -> 0 <= t -> float_of_int t = Ok ft ->
  (0 <= to_Q (mul x ft))%Q.
Proof.
  intros Hx%leb_zero_inv Ht Hft.
  pose proof (float_of_int_nonneg t ft Ht Hft) as Hs.
  apply to_Q_nonneg.
  destruct x as [sx|sx| |sx mx ex], ft as [sy|sy| |sy my ey];
    simpl in *; try contradiction; auto.
  destruct sx; [contradiction|]. subst sy.
  pose proof (binary_round_aux_sign false (Zpos (mx * my)) (ex + ey) loc_Exact) as H.
  simpl. destruct (binary_round_aux _ _ _ _ _ _); auto. subst; exact I.
Qed.

(** Comparing the other way round gives the opposite answer. *)
Lemma SFcompare_antisym (x y : float) :
  SFcompare y x = option_map CompOpp (SFcompare x y).
Proof.
  destruct x as [sx|sx| |sx mx ex], y as [sy|sy| |sy my ey];
    try reflexivity;
    try (destruct sx; reflexivity); try (destruct sy; reflexivity);
    try (destruct sx, sy; reflexivity).
  unfold SFcompare.
  change (Pos.compare_cont Eq mx my) with (mx ?= my)%positive.
  change (Pos.compare_cont Eq my mx) with (my ?= mx)%positive.
  rewrite (Z.compare_antisym ex ey), (Pos.compare_antisym mx my).
  destruct sx, sy; try reflexivity;
    destruct (ex ?= ey); try reflexivity;
    destruct (mx ?= my)%positive; reflexivity.
Qed.

(** Two finite floats compare equal only when they are the same. *)
Lemma SFcompare_Eq_finite (x : float) (s : bool) (m : positive) (e : Z) :
  SFcompare x (S754_finite s m e) = Some Eq -> x = S754_finite s m e.
Proof.
  destruct x as [sx|sx| |sx mx ex]; unfold SFcompare;
    try discriminate;
    try (destruct sx; discriminate); try (destruct s; discriminate).
  change (Pos.compare_cont Eq mx m) with (mx ?= m)%positive.
  destruct sx, s; try discriminate;
    destruct (Z.compare_spec ex e) as [->|?|?]; try discriminate;
    destruct (Pos.compare_spec mx m) as [->|?|?]; try discriminate;
    reflexivity.
Qed.

(** [x < 1.0] excludes [1.0 <= x]. *)
Lemma ltb_one_not_leb (x : float) : ltb x one = true -> leb one x = false.
Proof.
  unfold ltb, leb, SFltb, SFleb.
  rewrite (SFcompare_antisym x one).
  destruct (SFcompare x one) as [[]|]; simpl; try discriminate; reflexivity.
Qed.

(** [x <= 1.0] without [x < 1.0] leaves [1.0] itself. *)
Lemma leb_one_not_ltb (x : float) :
  leb x one = true -> ltb x one = false -> x = one.
Proof.
  unfold ltb, leb, SFltb, SFleb.
  destruct (SFcompare x one) as [[]|] eqn:E; try discriminate.
  intros _ _. exact (SFcompare_Eq_finite x _ _ _ E).
Qed.

(** ** Proportions and counts *)

(** C1, as stated, fails: the proportion reading does not hold on all of
    [0 <= x <= 1] with a total.  At [(1.0, 20)] the result is 1 and not
    the floor 20 of the product, and at [(0.5, -3)] it is -1, the
    truncation of -1.5, and not its floor -2. *)
Lemma proportion_or_integer_to_int_not_always_floor :
  (in_unit_interval (PyFloat one) = true
   /\ proportion_or_integer_to_int (PyFloat one) (Some 20) = Ok 1
   /\ Qfloor (to_Q one * inject_Z 20) = 20)
  /\ (in_unit_interval (PyFloat half) = true
      /\ proportion_or_integer_to_int (PyFloat half) (Some (-3)) = Ok (-1)
      /\ Qfloor (to_Q half * inject_Z (-3)) = -2).
Proof. vm_compute. repeat split. Qed.

(** C1, amended: on a float [x] and an optional [total],
    - when [x >= 1.0] has no fractional part the result is the integer
      [x] denotes (so [1.0] is a count, whatever the total);
    - when [0 <= x < 1.0] and a total [t] is given, the result is
      [int(x * t)]: an [OverflowError] if [t] does not fit a float, and
      otherwise the rounded product truncated toward zero, which is its
      floor whenever [t >= 0];
    - in every other case the call raises [RuntimeError];
    and [(0.5, 20)] gives 10, [(5.0, None)] gives 5, while [(0.5, None)]
    and [(1.5, 10)] fail. *)
Theorem proportion_or_integer_to_int_cases (x : float) (total : option Z) :
  let r := proportion_or_integer_to_int (PyFloat x) total in
  (leb one x = true -> Float.is_integer x = true ->
   exists n, r = Ok n /\ (to_Q x == inject_Z n)%Q)
  /\ (forall t, total = Some t -> leb zero x = true -> ltb x one = true ->
      match float_of_int t with
      | Raise _ => r = Raise OverflowError
      | Ok ft =>
          r = int_of_float (mul x ft)
          /\ (is_finite (mul x ft) = true ->
              exists n, r = Ok n
                /\ ((0 <= to_Q (mul x ft))%Q -> n = Qfloor (to_Q (mul x ft)))
                /\ ((to_Q (mul x ft) <= 0)%Q -> n = Qceiling (to_Q (mul x ft)))
                /\ (0 <= t -> n = Qfloor (to_Q (mul x ft))))
      end)
  /\ (leb one x && Float.is_integer x = false ->
      total = None \/ leb zero x && ltb x one = false ->
      r = Raise RuntimeError)
  /\ (proportion_or_integer_to_int (PyFloat half) (Some 20) = Ok 10
      /\ proportion_or_integer_to_int (PyFloat five) None = Ok 5
      /\ proportion_or_integer_to_int (PyFloat half) None = Raise RuntimeError
      /\ proportion_or_integer_to_int (PyFloat one_and_half) (Some 10)
         = Raise RuntimeError).
Proof.
  cbv zeta. unfold proportion_or_integer_to_int; cbn [ge_one Num.is_integer int in_unit_interval times_int].
  split; [|split; [|split]].
  - intros H1 Hi. rewrite H1, Hi. cbn [andb].
    exact (int_of_float_integral x Hi).
  - intros t -> H0 H1.
    rewrite (ltb_one_not_leb x H1). cbn [andb].
    assert (Hle : leb x one = true).
    { revert H1. unfold ltb, leb, SFltb, SFleb.
      destruct (SFcompare x one) as [[]|]; auto. }
    rewrite H0, Hle. cbn [andb].
    destruct (float_of_int t) as [ft|e] eqn:Hft; cbn [bind].
    + split; [reflexivity|]. intros Hfin.
      destruct (int_of_float_truncates _ Hfin) as (n & Hn & Hfl & Hce).
      exists n. repeat split; auto.
      intros Ht. apply Hfl. exact (mul_nonneg x ft t H0 Ht Hft).
    + revert Hft. unfold float_of_int.
      destruct (binary_normalize _ _ _ _ _); congruence.
  - intros Hb Hor. rewrite Hb.
    destruct total as [t|]; [|reflexivity].
    destruct Hor as [|Hor]; [discriminate|].
    destruct (leb zero x) eqn:H0; [|reflexivity].
    destruct (leb x one) eqn:Hle; [|reflexivity].
    cbn [andb] in Hor.
    rewrite (leb_one_not_ltb x Hle Hor) in Hb.
    vm_compute in Hb. discriminate.
  - vm_compute. repeat split.
Qed.

Lemma proportion_or_integer_to_int_cases_witness :
  (exists n, proportion_or_integer_to_int (PyFloat five) None = Ok n
             /\ (to_Q five == inject_Z n)%Q)
  /\ (exists n, proportion_or_integer_to_int (PyFloat half) (Some 20) = Ok n
                /\ n = 10)
  /\ proportion_or_integer_to_int (PyFloat one_and_half) (Some 10)
     = Raise RuntimeError.
Proof.
  destruct (proportion_or_integer_to_int_cases five None) as (A & _).
  destruct (proportion_or_integer_to_int_cases half (Some 20)) as (_ & B & _).
  destruct (proportion_or_integer_to_int_cases one_and_half (Some 10))
    as (_ & _ & C & _).
  split; [|split].
  - apply A; reflexivity.
  - specialize (B 20 eq_refl eq_refl eq_refl).
    vm_compute in B. destruct B as (_ & B).
    destruct (B eq_refl) as (n & Hn & _ & _ & Hfloor).
    exists n. split; [vm_compute; exact Hn|].
    rewrite Hfloor; [reflexivity|discriminate].
  - apply C; [reflexivity|right; reflexivity].
Defined.

(** ** Stepping through a stateful computation *)

Lemma mbind_Ok {S A B : Type} (c : M S A) (k : A -> M S B) (s s' : S) (b : B) :
  mbind c k s = (Ok b, s') ->
  exists a s1, c s = (Ok a, s1) /\ k a s1 = (Ok b, s').
Proof.
  unfold mbind. destruct (c s) as [[a|e] s1]; [eauto|discriminate].
Qed.

Lemma mbind_Raise {S A B : Type} (c : M S A) (k : A -> M S B) (s s' : S) (e : exn) :
  mbind c k s = (Raise e, s') ->
  c s = (Raise e, s') \/ exists a s1, c s = (Ok a, s1) /\ k a s1 = (Raise e, s').
Proof.
  unfold mbind. destruct (c s) as [[a|e0] s1]; [eauto|].
  intros [= -> ->]. left; reflexivity.
Qed.

Ltac mstep H :=
  let a := fresh "a" in
  let s := fresh "s" in
  let E := fresh "E" in
  apply mbind_Ok in H; destruct H as (a & s & E & H).

(** ** The configuration *)

(** What a [configure] that returns has done. *)
Lemma configure_inv (n : Z) (w w' : ConfigWorld) (u : unit) :
  configure n w = (Ok u, w') ->
  _configured (self w) = false
  /\ exists start query total iters,
       proportion_or_integer_to_int (n_start (self w)) (Some n) = Ok start
       /\ proportion_or_integer_to_int (n_query (self w)) (Some n) = Ok query
       /\ compute_total_al_iterations n start query = Ok total
       /\ proportion_or_integer_to_int (n_iterations (self w)) (Some total) = Ok iters
       /\ self w' =
          set_configured true
            (set_n_iterations (PyInt (Z.min iters total))
               (set_n_query (PyInt query)
                  (set_n_start (PyInt start) (set_n_rows (Some n) (self w))))).
Proof.
  unfold configure. intros H.
  mstep H. unfold read in E; injection E as <- <-.
  destruct (_configured (self w)) eqn:Hc; [discriminate|].
  split; [reflexivity|].
  repeat (mstep H).
  unfold read, update, modify, lift, warn, ret in *.
  repeat match goal with
         | E : (_, _) = (_, _) |- _ => injection E as ? ?
         end.
  subst; simpl in *.
  match goal with
  | H1 : proportion_or_integer_to_int (n_start _) _ = Ok ?st,
    H2 : proportion_or_integer_to_int (n_query _) _ = Ok ?q,
    E : (if ?t <? ?i then _ else _) _ = _ |- _ =>
      exists st, q, t, i
  end.
  repeat (split; [assumption|]).
  match goal with
  | E : (if ?t <? ?i then _ else _) _ = _ |- _ =>
      destruct (Z.ltb_spec t i); unfold mbind in E; simpl in E;
      injection E as _ <-; simpl
  end.
  - rewrite Z.min_r by lia. reflexivity.
  - rewrite Z.min_l by lia. reflexivity.
Qed.

(** A [configure] that returns has marked the instance configured. *)
Lemma configure_marks (n : Z) (w w' : ConfigWorld) (u : unit) :
  configure n w = (Ok u, w') -> _configured (self w') = true.
Proof.
  intros (_ & start & query & total & iters & _ & _ & _ & _ & ->)%configure_inv.
  reflexivity.
Qed.

(** On a configured instance [configure] raises at its assertion. *)
Lemma configure_configured (m : Z) (w : ConfigWorld) :
  _configured (self w) = true -> configure m w = (Raise AssertionError, w).
Proof.
  intros Hc. unfold configure, mbind, read. rewrite Hc. reflexivity.
Qed.

(** The constructor, given a number of rows, is a [configure] on the
    fields as given. *)
Lemma new_Config_inv (rows : Z) (start query val iters : num)
    (l e r : bool) (ckpt : option Z) (c : Config) (ws : list warning) :
  rows <> 0 ->
  new_Config (Some rows) start query val iters l e r ckpt = (Ok c, ws) ->
  exists w',
    configure rows
      {| self := {| n_rows := Some rows; n_start := start; n_query := query;
                    val_set_size := val; n_iterations := iters;
                    learn := l; evaluate := e; resume := r;
                    resume_from_checkpoint := ckpt; _configured := false |};
         warnings := [] |} = (Ok tt, w')
    /\ c = self w'.
Proof.
  intros Hrows. unfold new_Config, __post_init__.
  match goal with
  | |- context [mbind ?c ?k ?w] => destruct (mbind c k w) as [[u|x] w'] eqn:H
  end; [|discriminate].
  intros [= <- <-].
  mstep H. unfold update, modify in E. injection E as _ <-.
  mstep H. unfold read in E. injection E as <- <-. simpl in H.
  destruct (Z.eqb_spec rows 0); [contradiction|].
  mstep H.
  match goal with
  | E : configure _ _ = (Ok ?a, ?s) |- _ =>
      destruct a; exists s; split; [exact E|];
      pose proof (configure_marks _ _ _ _ E) as Hc;
      unfold update, modify in H; injection H as <-; simpl;
      destruct (self s); simpl in *; subst; reflexivity
  end.
Qed.

(** An instance built with a number of rows leaves the constructor
    configured. *)
Lemma new_Config_configured (rows : Z) (start query val iters : num)
    (l e r : bool) (ckpt : option Z) (c : Config) (ws : list warning) :
  rows <> 0 ->
  new_Config (Some rows) start query val iters l e r ckpt = (Ok c, ws) ->
  _configured c = true.
Proof.
  intros Hrows H.
  destruct (new_Config_inv _ _ _ _ _ _ _ _ _ _ _ Hrows H) as (w' & Hw & ->).
  exact (configure_marks _ _ _ _ Hw).
Qed.

(** C5: once [configure] has completed on an instance, through the
    constructor given a number of rows or through an explicit call, every
    further call of [configure] fails at its assertion, whatever its
    argument, and leaves the instance as it was. *)
Theorem configure_twice_rejected :
  (forall (n m : Z) (w w' : ConfigWorld) (u : unit),
      configure n w = (Ok u, w') ->
      configure m w' = (Raise AssertionError, w'))
  /\ (forall (rows m : Z) (start query val iters : num) (l e r : bool)
             (ckpt : option Z) (c : Config) (ws log : list warning),
         rows <> 0 ->
         new_Config (Some rows) start query val iters l e r ckpt = (Ok c, ws) ->
         configure m {| self := c; warnings := log |}
         = (Raise AssertionError, {| self := c; warnings := log |})).
Proof.
  split.
  - intros n m w w' u H. apply configure_configured.
    exact (configure_marks n w w' u H).
  - intros rows m start query val iters l e r ckpt c ws log Hrows H.
    apply configure_configured. simpl.
    exact (new_Config_configured rows start query val iters l e r ckpt c ws Hrows H).
Qed.

Lemma configure_twice_rejected_witness :
  (exists w',
      configure 100 {| self := default_fields; warnings := [] |} = (Ok tt, w')
      /\ configure 7 w' = (Raise AssertionError, w'))
  /\ (exists c ws,
         default_Config (Some 100) = (Ok c, ws)
         /\ configure 7 {| self := c; warnings := ws |}
            = (Raise AssertionError, {| self := c; warnings := ws |})).
Proof.
  split.
  - eexists. split; [vm_compute; reflexivity|].
    apply (proj1 configure_twice_rejected 100 7
             {| self := default_fields; warnings := [] |} _ tt).
    vm_compute; reflexivity.
  - eexists. eexists. split; [vm_compute; reflexivity|].
    apply (proj2 configure_twice_rejected 100 7 (PyFloat tenth) (PyFloat tenth)
             (PyFloat tenth) (PyFloat one) false false false (Some 0) _ [] []).
    + discriminate.
    + vm_compute; reflexivity.
Defined.

(** [1.0] is an absolute count, whatever the total. *)
Lemma proportion_one (total : option Z) :
  proportion_or_integer_to_int (PyFloat one) total = Ok 1.
Proof. reflexivity. Qed.

(** C9: [proportion_or_integer_to_int(1.0, total)] is 1 for every total,
    [None] included: at 1.0 the absolute-count branch is taken before the
    proportion branch.  So a [Config] whose [n_iterations] is the default
    1.0 is configured, whether by [configure] or by its constructor, to
    the lesser of 1 and the feasible count: a single iteration as soon as
    rows are left after the start and the query size is positive, however
    many iterations are feasible. *)
Theorem default_n_iterations_is_one :
  (forall total : option Z,
      proportion_or_integer_to_int (PyFloat one) total = Ok 1)
  /\ (forall (n : Z) (w w' : ConfigWorld) (u : unit),
         n_iterations (self w) = PyFloat one ->
         configure n w = (Ok u, w') ->
         exists start query total,
           n_start (self w') = PyInt start
           /\ n_query (self w') = PyInt query
           /\ compute_total_al_iterations n start query = Ok total
           /\ n_iterations (self w') = PyInt (Z.min 1 total)
           /\ (start < n -> 0 < query ->
               1 <= total /\ n_iterations (self w') = PyInt 1))
  /\ (forall (rows : Z) (start query val : num) (l e r : bool)
             (ckpt : option Z) (c : Config) (ws : list warning),
         rows <> 0 ->
         new_Config (Some rows) start query val (PyFloat one) l e r ckpt
         = (Ok c, ws) ->
         exists start' query' total,
           n_start c = PyInt start'
           /\ n_query c = PyInt query'
           /\ compute_total_al_iterations rows start' query' = Ok total
           /\ n_iterations c = PyInt (Z.min 1 total)
           /\ (start' < rows -> 0 < query' ->
               1 <= total /\ n_iterations c = PyInt 1)).
Proof.
  assert (Hconf : forall (n : Z) (w w' : ConfigWorld) (u : unit),
             n_iterations (self w) = PyFloat one ->
             configure n w = (Ok u, w') ->
             exists start query total,
               n_start (self w') = PyInt start
               /\ n_query (self w') = PyInt query
               /\ compute_total_al_iterations n start query = Ok total
               /\ n_iterations (self w') = PyInt (Z.min 1 total)
               /\ (start < n -> 0 < query ->
                   1 <= total /\ n_iterations (self w') = PyInt 1)).
  { intros n w w' u Hit H.
    destruct (configure_inv n w w' u H)
      as (_ & start & query & total & iters & _ & _ & Ht & Hi & ->).
    rewrite Hit, proportion_one in Hi. injection Hi as <-.
    exists start, query, total. simpl. repeat split; auto.
    - destruct (compute_total_al_iterations_covers n start query H1)
        as (k & Hk & Hb & _).
      rewrite Hk in Ht. injection Ht as <-. nia.
    - destruct (compute_total_al_iterations_covers n start query H1)
        as (k & Hk & Hb & _).
      rewrite Hk in Ht. injection Ht as <-.
      rewrite Z.min_l by nia. reflexivity. }
  split; [exact proportion_one|]. split; [exact Hconf|].
  intros rows start query val l e r ckpt c ws Hrows H.
  destruct (new_Config_inv _ _ _ _ _ _ _ _ _ _ _ Hrows H) as (w' & Hw & ->).
  refine (Hconf rows _ w' tt _ Hw). reflexivity.
Qed.

Lemma default_n_iterations_is_one_witness :
  exists c ws,
    default_Config (Some 100) = (Ok c, ws)
    /\ n_start c = PyInt 10 /\ n_query c = PyInt 10
    /\ compute_total_al_iterations 100 10 10 = Ok 9
    /\ n_iterations c = PyInt 1.
Proof.
  destruct (default_Config (Some 100)) as [[c|x] ws] eqn:H;
    [|vm_compute in H; discriminate].
  exists c, ws. split; [reflexivity|].
  destruct (proj2 (proj2 default_n_iterations_is_one) 100
              (PyFloat tenth) (PyFloat tenth) (PyFloat tenth)
              false false false (Some 0) c ws ltac:(discriminate) H)
    as (s' & q' & t & Hs & Hq & Ht & _ & Hone).
  vm_compute in H. injection H as <- <-.
  injection Hs as <-. injection Hq as <-.
  split; [reflexivity|]. split; [reflexivity|]. split; [reflexivity|].
  apply Hone; lia.
Defined.

(** ** The stoppers *)

Section StopperFacts.

Import Stoppers.

Variable ndarray : Type.
Variable array_equal : ndarray -> ndarray -> bool.
Variable cohen_kappa_score : ndarray -> ndarray -> float.
Variable mean_of_array : ndarray -> float.
Variable mean : list float -> float.

Lemma length_deque_append {A : Type} (w : nat) (d : list A) (x : A) :
  (length d <= w)%nat ->
  length (deque_append w d x) = Nat.min (S (length d)) w.
Proof.
  intros Hd. unfold deque_append.
  destruct (Nat.eqb_spec w 0) as [->|Hw]; [lia|].
  destruct (Nat.ltb_spec (length d) w).
  - rewrite length_app; cbn [length]; lia.
  - destruct d; cbn [length tl] in *; [lia|]. rewrite length_app; cbn [length]; lia.
Qed.

(** C10: a [ClassificationChangeStopper] of window capacity 1 answers
    true at its very first call, whatever the prediction array: the one
    slot is full after the append and there is no pair of neighbours to
    compare.  (It does so at every later call too.) *)
Theorem classification_change_window_one_true (preds : ndarray) :
  new_ClassificationChangeStopper ndarray 1
  = Ok {| cl_windows := 1; unlabeled_preds := [] |}
  /\ cl_call array_equal preds {| cl_windows := 1; unlabeled_preds := [] |}
     = (Ok true, {| cl_windows := 1; unlabeled_preds := [preds] |})
  /\ forall d : list ndarray,
       fst (cl_call array_equal preds {| cl_windows := 1; unlabeled_preds := d |})
       = Ok true.
Proof.
  split; [reflexivity|]. split; [reflexivity|].
  intros d. unfold cl_call, deque_append; simpl.
  destruct d as [|a d]; simpl; [reflexivity|].
  rewrite length_app; simpl.
  destruct (Nat.ltb_spec (length d + 1) 1); [lia|reflexivity].
Qed.

(** The stopper a call leaves behind, whatever it answers. *)
Lemma snd_sp_call (preds : ndarray) (st : StabilizingPredictionsStopper ndarray) :
  snd (sp_call array_equal cohen_kappa_score mean preds st)
  = {| sp_windows := sp_windows st; threshold := threshold st;
       agreement_scores :=
         deque_append (sp_windows st) (agreement_scores st)
           (agreement array_equal cohen_kappa_score (prv_stop_set_preds st) preds);
       prv_stop_set_preds := Some preds |}.
Proof.
  unfold sp_call.
  destruct (_ <? _)%nat; [reflexivity|].
  destruct (ltb _ _); reflexivity.
Qed.

(** What a call answers, in terms of the window it leaves behind. *)
Lemma fst_sp_call (preds : ndarray) (st : StabilizingPredictionsStopper ndarray) :
  let st' := snd (sp_call array_equal cohen_kappa_score mean preds st) in
  fst (sp_call array_equal cohen_kappa_score mean preds st)
  = negb (length (agreement_scores st') <? sp_windows st)%nat
    && ltb (threshold st) (mean (agreement_scores st')).
Proof.
  cbv zeta. rewrite snd_sp_call. unfold sp_call. cbn [agreement_scores].
  destruct (_ <? _)%nat; [reflexivity|].
  destruct (ltb _ _); reflexivity.
Qed.

(** After any calls a fresh stopper keeps its capacity and threshold,
    remembers the last array it was given, and holds one score per call
    up to its capacity. *)
Lemma sp_feed_inv (w : nat) (t : float) (calls : list ndarray) :
  let st := sp_feed array_equal cohen_kappa_score mean calls
              {| sp_windows := w; threshold := t;
                 agreement_scores := []; prv_stop_set_preds := None |} in
  sp_windows st = w /\ threshold st = t
  /\ prv_stop_set_preds st = last calls
  /\ length (agreement_scores st) = Nat.min (length calls) w.
Proof.
  induction calls as [|p calls IH] using rev_ind.
  - simpl. repeat split.
  - cbv zeta in *. unfold sp_feed in *. rewrite fold_left_app. simpl.
    destruct IH as (Hw & Ht & Hp & Hl).
    rewrite snd_sp_call. simpl. rewrite Hw, Ht, last_snoc.
    repeat split.
    rewrite length_deque_append by lia.
    rewrite Hl, length_app. cbn [length]. lia.
Qed.

(** C6: at each call of a [StabilizingPredictionsStopper] built with
    capacity [windows] and threshold [t], the agreement score pushed into
    the window is not-a-number at the very first call, 1.0 when the
    incoming array equals the one of the call before, and Cohen's kappa of
    the two otherwise; the call answers false while the window holds fewer
    scores than its capacity, and answers true exactly when the window
    holds as many scores as its capacity and their mean exceeds [t]. *)
Theorem stabilizing_predictions_call (windows : Z) (t : float)
    (st0 : StabilizingPredictionsStopper ndarray) (calls : list ndarray)
    (preds : ndarray) :
  new_StabilizingPredictionsStopper ndarray windows t = Ok st0 ->
  let w := Z.to_nat windows in
  let st := sp_feed array_equal cohen_kappa_score mean calls st0 in
  let a := match last calls with
           | None => nan
           | Some p =>
               if array_equal p preds then one else cohen_kappa_score p preds
           end in
  let b := fst (sp_call array_equal cohen_kappa_score mean preds st) in
  let st' := snd (sp_call array_equal cohen_kappa_score mean preds st) in
  agreement_scores st' = deque_append w (agreement_scores st) a
  /\ length (agreement_scores st') = Nat.min (S (length calls)) w
  /\ ((length (agreement_scores st') < w)%nat -> b = false)
  /\ (b = true <->
      length (agreement_scores st') = w
      /\ ltb t (mean (agreement_scores st')) = true).
Proof.
  unfold new_StabilizingPredictionsStopper, new_deque.
  destruct (Z.ltb_spec windows 0); [discriminate|].
  intros [= <-]. cbv zeta.
  pose proof (sp_feed_inv (Z.to_nat windows) t calls) as Hinv.
  cbv zeta in Hinv.
  set (st := sp_feed _ _ _ calls _) in *.
  destruct Hinv as (Hw & Ht & Hp & Hl).
  assert (Hs : agreement_scores
                 (snd (sp_call array_equal cohen_kappa_score mean preds st))
               = deque_append (Z.to_nat windows) (agreement_scores st)
                   match last calls with
                   | None => nan
                   | Some p =>
                       if array_equal p preds then one
                       else cohen_kappa_score p preds
                   end).
  { rewrite snd_sp_call. simpl. rewrite Hw, Hp. reflexivity. }
  assert (Hlen : length (agreement_scores
                   (snd (sp_call array_equal cohen_kappa_score mean preds st)))
                 = Nat.min (S (length calls)) (Z.to_nat windows)).
  { rewrite Hs, length_deque_append by lia. rewrite Hl. lia. }
  split; [exact Hs|]. split; [exact Hlen|].
  rewrite fst_sp_call, Hw, Ht.
  set (scores := agreement_scores
                   (snd (sp_call array_equal cohen_kappa_score mean preds st)))
    in *.
  destruct (Nat.ltb_spec (length scores) (Z.to_nat windows)) as [Hlt|Hge];
    cbn [negb andb].
  - split; [reflexivity|]. split; [discriminate|]. intros [? _]. lia.
  - split; [lia|]. split.
    + intros Hm. split; [lia|exact Hm].
    + intros [_ Hm]. exact Hm.
Qed.

(** [all(... for c in window)] as a property of every stored mean. *)
Lemma forallb_Forall {A : Type} (f : A -> bool) (l : list A) :
  forallb f l = true <-> Forall (fun v => f v = true) l.
Proof.
  rewrite forallb_forall, List.Forall_forall. reflexivity.
Qed.

(** C7: a [ChangingConfidenceStopper] whose window has a capacity [w] of
    at least one takes the mean [c] of the incoming confidences; while it
    stores fewer than [w] means it appends [c] and answers false; once it
    stores [w] it pops the oldest, [prv], appends [c], and answers true
    if and only if, in mode "D", every mean then stored, [c] included, is
    strictly less than [prv], or, in mode "N", every one is less than or
    equal to [prv]. *)
Theorem changing_confidence_call (windows : Z) (m : string)
    (scores : list float) (confs : ndarray) :
  0 < windows ->
  let w := Z.to_nat windows in
  let st := {| cc_windows := w; mode := m; conf_scores := scores |} in
  let c := mean_of_array confs in
  new_ChangingConfidenceStopper windows m
  = Ok {| cc_windows := w; mode := m; conf_scores := [] |}
  /\ ((length scores < w)%nat ->
      cc_call mean_of_array confs st
      = (Ok false,
         {| cc_windows := w; mode := m; conf_scores := scores ++ [c] |}))
  /\ (length scores = w ->
      exists prv rest b,
        scores = prv :: rest
        /\ cc_call mean_of_array confs st
           = (Ok b, {| cc_windows := w; mode := m; conf_scores := rest ++ [c] |})
        /\ (b = true <->
            (m = "D"%string /\ Forall (fun v => ltb v prv = true) (rest ++ [c]))
            \/ (m = "N"%string /\ Forall (fun v => leb v prv = true) (rest ++ [c])))).
Proof.
  intros Hw. cbv zeta.
  assert (Hn : (0 < Z.to_nat windows)%nat) by lia.
  split; [|split].
  - unfold new_ChangingConfidenceStopper, new_deque.
    destruct (Z.ltb_spec windows 0); [lia|reflexivity].
  - intros Hlt. unfold cc_call, deque_append; cbn [cc_windows conf_scores mode].
    destruct (Nat.ltb_spec (length scores) (Z.to_nat windows)); [|lia].
    destruct (Nat.eqb_spec (Z.to_nat windows) 0); [lia|reflexivity].
  - intros Hlen. destruct scores as [|prv rest]; cbn [length] in Hlen; [lia|].
    unfold cc_call, deque_append; cbn [cc_windows conf_scores mode length].
    destruct (Nat.ltb_spec (S (length rest)) (Z.to_nat windows)); [lia|].
    destruct (Nat.eqb_spec (Z.to_nat windows) 0); [lia|].
    destruct (Nat.ltb_spec (length rest) (Z.to_nat windows)); [|lia].
    exists prv, rest.
    destruct (String.eqb m "D"
              && forallb (fun c' => ltb c' prv) (rest ++ [mean_of_array confs]))
      eqn:ED.
    { exists true. split; [reflexivity|]. split; [reflexivity|].
      split; [intros _|reflexivity].
      apply andb_true_iff in ED as [HD HF].
      left. split; [apply String.eqb_eq, HD|apply forallb_Forall, HF]. }
    destruct (String.eqb m "N"
              && forallb (fun c' => leb c' prv) (rest ++ [mean_of_array confs]))
      eqn:EN.
    { exists true. split; [reflexivity|]. split; [reflexivity|].
      split; [intros _|reflexivity].
      apply andb_true_iff in EN as [HN HF].
      right. split; [apply String.eqb_eq, HN|apply forallb_Forall, HF]. }
    exists false. split; [reflexivity|]. split; [reflexivity|].
    split; [discriminate|].
    intros [[HD HF]|[HN HF]].
    + apply String.eqb_eq in HD. apply forallb_Forall in HF.
      rewrite HD, HF in ED. discriminate.
    + apply String.eqb_eq in HN. apply forallb_Forall in HF.
      rewrite HN, HF in EN. discriminate.
Qed.

End StopperFacts.

Lemma stabilizing_predictions_call_witness :
  let call := Stoppers.sp_call int_array_equal constant_kappa mean_seq in
  let st3 := Stoppers.sp_feed int_array_equal constant_kappa mean_seq
               [[1; 0; 1]; [1; 0; 1]; [1; 0; 1]]
               {| Stoppers.sp_windows := 3; Stoppers.threshold := nine_tenths;
                  Stoppers.agreement_scores := [];
                  Stoppers.prv_stop_set_preds := None |} in
  Stoppers.agreement_scores st3 = [nan; one; one]
  /\ Stoppers.agreement_scores (snd (call [1; 0; 1] st3)) = [one; one; one]
  /\ fst (call [1; 0; 1] st3) = true.
Proof.
  cbv zeta.
  destruct (stabilizing_predictions_call (list Z) int_array_equal constant_kappa
              mean_seq 3 nine_tenths _ [[1; 0; 1]; [1; 0; 1]; [1; 0; 1]]
              [1; 0; 1] eq_refl)
    as (Hs & Hl & _ & Hiff).
  split; [reflexivity|]. split; [exact Hs|].
  apply Hiff. split; [exact Hl|]. vm_compute. reflexivity.
Defined.

Lemma changing_confidence_call_witness :
  Stoppers.cc_call mean_seq [tenth]
    {| Stoppers.cc_windows := 2; Stoppers.mode := "D";
       Stoppers.conf_scores := [nine_tenths; half] |}
  = (Ok true,
     {| Stoppers.cc_windows := 2; Stoppers.mode := "D";
        Stoppers.conf_scores := [half; mean_seq [tenth]] |}).
Proof.
  destruct (changing_confidence_call (list float) mean_seq 2 "D"
              [nine_tenths; half] [tenth] ltac:(lia)) as (_ & _ & H).
  destruct (H eq_refl) as (prv & rest & b & Heq & Hcall & Hiff).
  injection Heq as <- <-.
  assert (Hb : b = true).
  { apply Hiff. left. split; [reflexivity|].
    repeat constructor; vm_compute; reflexivity. }
  rewrite Hb in Hcall. exact Hcall.
Defined.

(** A window of capacity 0 is full while empty: the first call finds
    nothing to pop. *)
Remark changing_confidence_capacity_zero (m : string) (confs : list float) :
  fst (Stoppers.cc_call mean_seq confs
         {| Stoppers.cc_windows := 0; Stoppers.mode := m;
            Stoppers.conf_scores := [] |})
  = Raise IndexError.
Proof. reflexivity. Qed.

(** ** The highest path *)

Section HighestPathFacts.

Variable int_of_str : string -> option Z.
Variable iterdir : Path -> result (list Path).

Lemma key_cases (ls rs : string) (p : Path) :
  (exists k, Utils.key int_of_str ls rs p = Ok k) \/ Utils.key int_of_str ls rs p = Raise ValueError.
Proof.
  unfold Utils.key. destruct (int_of_str _); eauto.
Qed.

(** When every key parses, [keyed] pairs each path with its key. *)
Lemma keyed_Ok (ls rs : string) (files : list Path) :
  (forall p, In p files -> exists k, Utils.key int_of_str ls rs p = Ok k) ->
  exists ks, Utils.keyed int_of_str ls rs files = Ok ks
    /\ List.map snd ks = files
    /\ Forall (fun kp => Utils.key int_of_str ls rs (snd kp) = Ok (fst kp)) ks.
Proof.
  induction files as [|p files IH]; intros H.
  - exists []. repeat split. constructor.
  - destruct (H p (or_introl eq_refl)) as (k & Hk).
    destruct IH as (ks & Hks & Hmap & Hall); [intros; apply H; right; auto|].
    exists ((k, p) :: ks). cbn [Utils.keyed]. rewrite Hk, Hks. cbn [bind].
    repeat split; [cbn; congruence|]. constructor; auto.
Qed.

(** One key that does not parse makes [keyed] raise [ValueError]. *)
Lemma keyed_Raise (ls rs : string) (files : list Path) (p : Path) :
  In p files -> Utils.key int_of_str ls rs p = Raise ValueError ->
  Utils.keyed int_of_str ls rs files = Raise ValueError.
Proof.
  induction files as [|q files IH]; intros Hin Hp; [destruct Hin|].
  cbn [Utils.keyed].
  destruct (key_cases ls rs q) as [(k & Hk)|Hk]; rewrite Hk; cbn [bind];
    [|reflexivity].
  destruct Hin as [->|Hin]; [congruence|].
  rewrite (IH Hin Hp). reflexivity.
Qed.

Lemma In_insert_keyed (x y : Z * Path) (l : list (Z * Path)) :
  In y (insert_keyed x l) <-> y = x \/ In y l.
Proof.
  induction l as [|h t IH]; cbn [insert_keyed].
  - cbn. intuition.
  - destruct (fst x <=? fst h); cbn [In]; [intuition|].
    rewrite IH. intuition.
Qed.

Lemma In_sorted (y : Z * Path) (l : list (Z * Path)) :
  In y (sorted l) <-> In y l.
Proof.
  induction l as [|x t IH]; cbn [sorted]; [reflexivity|].
  rewrite In_insert_keyed, IH. cbn. intuition.
Qed.

Lemma ascending_insert_keyed (x : Z * Path) (l : list (Z * Path)) :
  ascending l -> ascending (insert_keyed x l).
Proof.
  induction l as [|h t IH]; cbn [insert_keyed ascending]; intros Hl.
  - split; [constructor|exact I].
  - destruct Hl as (Hh & Ht).
    destruct (Z.leb_spec (fst x) (fst h)) as [Hle|Hgt]; cbn [ascending].
    + split; [|split; assumption].
      constructor; [exact Hle|].
      eapply Forall_impl; [exact Hh|]. cbn; intros; lia.
    + split; [|apply IH, Ht].
      apply List.Forall_forall. intros y Hy%In_insert_keyed.
      destruct Hy as [->|Hy]; [lia|].
      rewrite List.Forall_forall in Hh. apply Hh, Hy.
Qed.

Lemma ascending_sorted (l : list (Z * Path)) : ascending (sorted l).
Proof.
  induction l as [|x t IH]; cbn [sorted]; [exact I|].
  apply ascending_insert_keyed, IH.
Qed.

(** The last element of an ascending list is one of its greatest. *)
Lemma last_ascending (l : list (Z * Path)) :
  l <> [] -> ascending l ->
  exists m, last l = Some m /\ In m l /\ forall y, In y l -> fst y <= fst m.
Proof.
  induction l as [|x t IH]; [congruence|]. intros _ (Hx & Ht).
  destruct t as [|x' t'].
  - exists x. repeat split; [left; reflexivity|].
    intros y [->|[]]; lia.
  - destruct IH as (m & Hm & Hin & Hmax); [discriminate|exact Ht|].
    exists m. repeat split; [exact Hm|right; exact Hin|].
    intros y [->|Hy]; [|apply Hmax, Hy].
    rewrite List.Forall_forall in Hx. apply Hx, Hin.
Qed.

(** C8: over a collection of paths whose stems, once stripped, all
    parse as integers, [get_highest_path] returns a path of the
    collection whose stripped stem has the greatest integer value; it
    fails, with [ValueError], as soon as one stripped stem does not
    parse, and, with [IndexError], on an empty collection. *)
Theorem get_highest_path_greatest (files : list Path) (ls rs : string) :
  (files <> [] ->
   (forall p, In p files -> exists k, Utils.key int_of_str ls rs p = Ok k) ->
   exists p k,
     get_highest_path int_of_str iterdir (Files files) ls rs = Ok p
     /\ In p files
     /\ Utils.key int_of_str ls rs p = Ok k
     /\ forall q kq,
          In q files -> Utils.key int_of_str ls rs q = Ok kq -> kq <= k)
  /\ ((exists p, In p files
                 /\ int_of_str (rstrip rs (lstrip ls (stem p))) = None) ->
      get_highest_path int_of_str iterdir (Files files) ls rs
      = Raise ValueError)
  /\ get_highest_path int_of_str iterdir (Files []) ls rs = Raise IndexError.
Proof.
  split; [|split].
  - intros Hne Hall.
    destruct (keyed_Ok ls rs files Hall) as (ks & Hks & Hmap & Hkeys).
    assert (Hks_ne : sorted ks <> []).
    { intros Hnil. destruct ks as [|kp ks']; [cbn in Hmap; congruence|].
      assert (Hin : In kp (sorted (kp :: ks')))
        by (apply (proj2 (In_sorted _ _)); left; auto).
      rewrite Hnil in Hin. destruct Hin. }
    destruct (last_ascending (sorted ks) Hks_ne (ascending_sorted ks))
      as (m & Hlast & Hin & Hmax).
    apply (proj1 (In_sorted _ _)) in Hin.
    rewrite List.Forall_forall in Hkeys.
    exists (snd m), (fst m).
    unfold get_highest_path. cbn [bind]. rewrite Hks. cbn [bind]. rewrite Hlast.
    split; [reflexivity|]. split; [|split].
    + rewrite <- Hmap. apply in_map, Hin.
    + apply Hkeys, Hin.
    + intros q kq Hq Hkq. rewrite <- Hmap in Hq.
      apply in_map_iff in Hq as (kp & <- & Hkp).
      rewrite (Hkeys kp Hkp) in Hkq. injection Hkq as <-.
      apply Hmax. apply (proj2 (In_sorted _ _)), Hkp.
  - intros (p & Hin & Hnone).
    unfold get_highest_path. cbn [bind].
    rewrite (keyed_Raise ls rs files p Hin); [reflexivity|].
    unfold Utils.key. rewrite Hnone. reflexivity.
  - reflexivity.
Qed.

End HighestPathFacts.

Lemma get_highest_path_greatest_witness :
  get_highest_path int_of_decimal no_iterdir
    (Files [file "3"; file "10"; file "2"]) "" "" = Ok (file "10")
  /\ get_highest_path int_of_decimal no_iterdir
       (Files [file "3"; file "ten"; file "2"]) "" "" = Raise ValueError.
Proof.
  destruct (get_highest_path_greatest int_of_decimal no_iterdir
              [file "3"; file "10"; file "2"] "" "") as (Hmax & _ & _).
  destruct (get_highest_path_greatest int_of_decimal no_iterdir
              [file "3"; file "ten"; file "2"] "" "") as (_ & Hbad & _).
  split.
  - destruct Hmax as (p & k & Hp & _ & _ & _).
    + discriminate.
    + intros p [<-|[<-|[<-|[]]]]; eexists; vm_compute; reflexivity.
    + rewrite Hp. vm_compute in Hp. exact (eq_sym Hp).
  - apply Hbad. exists (file "ten"). split; [right; left; reflexivity|].
    vm_compute. reflexivity.
Defined.

(** Numeric and not lexicographic: among files named 3, 10 and 2, with a
    prefix and a suffix to strip, the highest is the one named 10. *)
Example get_highest_path_numeric :
  get_highest_path int_of_decimal no_iterdir
    (Files [file "iter_3.txt"; file "iter_10.txt"; file "iter_2.txt"])
    "iter_" ""
  = Ok (file "iter_10.txt")
  /\ stem (file "iter_10.txt") = "iter_10"%string
  /\ lstrip "iter_" "iter_10" = "10"%string
  /\ rstrip "0" "100" = "1"%string.
Proof. vm_compute. repeat split. Qed.

(** ** The evaluator *)

Section EvaluatorFacts.

Context {E : Engine}.

Ltac run_ev_next :=
  cbv [ev_next mbind its evaluator_len lift raise on_file on_evaluator eval
       ev_save_to_disk on_ev_disk modify ret].

(** [label] raises nothing but its assertion. *)
Lemma label_raises (b : list Z) (p : Pool) (e : exn) :
  label b p = Raise e -> e = AssertionError.
Proof. unfold label. destruct (forallb _ _); congruence. Qed.

(** Past the configured number of iterations an advance stops and
    touches nothing. *)
Lemma ev_next_stop (N : Z) (w : EvaluatorWorld) :
  n_iterations (ev_config (evaluator w)) = PyInt N -> 0 <= N < 2 ^ 63 ->
  N < ev_iteration (evaluator w) ->
  ev_next w = (Raise StopIteration, w).
Proof.
  intros HN [H0 H63] Hi. run_ev_next. rewrite HN. cbv [py_len].
  destruct (Z.ltb_spec N 0); [lia|].
  destruct (Z.leb_spec (2 ^ 63) N); [lia|].
  destruct (Z.ltb_spec N (ev_iteration (evaluator w))); [reflexivity|lia].
Qed.

(** Up to the configured number of iterations an advance does not stop
    the iteration, whatever else it does. *)
Lemma ev_next_no_stop (N : Z) (w : EvaluatorWorld) :
  n_iterations (ev_config (evaluator w)) = PyInt N -> 0 <= N < 2 ^ 63 ->
  ev_iteration (evaluator w) <= N ->
  fst (ev_next w) <> Raise StopIteration.
Proof.
  intros HN [H0 H63] Hi. run_ev_next. rewrite HN. cbv [py_len].
  destruct (Z.ltb_spec N 0); [lia|].
  destruct (Z.leb_spec (2 ^ 63) N); [lia|].
  destruct (Z.ltb_spec N (ev_iteration (evaluator w))); [lia|].
  destruct (batch_path (ev_disk w) !! ev_iteration (evaluator w));
    [|discriminate].
  destruct (label l (ev_pool (evaluator w))) as [p'|e] eqn:Hl;
    [|apply label_raises in Hl; subst; discriminate].
  cbn [ev_disk evaluator ev_iteration].
  destruct (model_path (ev_disk w) !! ev_iteration (evaluator w));
    [|discriminate].
  cbn [ts_dataset evaluator].
  destruct (evaluate_model m (ts_dataset (evaluator w))) as [tr results].
  cbn [ev_disk evaluator ev_iteration].
  destruct (ev_iteration (evaluator w) =? 0); cbn [fst]; discriminate.
Qed.

(** An advance that finds its batch file and its model directory, and
    can label the batch, returns: it has moved to the next iteration and
    written the metrics file of the one it visited. *)
Lemma ev_next_advance (N : Z) (w : EvaluatorWorld) (b : list Z) (p' : Pool)
    (m : Model) :
  n_iterations (ev_config (evaluator w)) = PyInt N -> 0 <= N < 2 ^ 63 ->
  ev_iteration (evaluator w) <= N ->
  batch_path (ev_disk w) !! ev_iteration (evaluator w) = Some b ->
  label b (ev_pool (evaluator w)) = Ok p' ->
  model_path (ev_disk w) !! ev_iteration (evaluator w) = Some m ->
  exists r w',
    ev_next w = (Ok r, w')
    /\ ev_iteration (evaluator w') = ev_iteration (evaluator w) + 1
    /\ ev_config (evaluator w') = ev_config (evaluator w)
    /\ ev_pool (evaluator w') = p'
    /\ batch_path (ev_disk w') = batch_path (ev_disk w)
    /\ model_path (ev_disk w') = model_path (ev_disk w)
    /\ test_metrics_path (ev_disk w')
       = <[ ev_iteration (evaluator w)
            := snd (evaluate_model m (ts_dataset (evaluator w))) ]>
           (test_metrics_path (ev_disk w)).
Proof.
  intros HN [H0 H63] Hi Hb Hl Hm. run_ev_next. rewrite HN. cbv [py_len].
  destruct (Z.ltb_spec N 0); [lia|].
  destruct (Z.leb_spec (2 ^ 63) N); [lia|].
  destruct (Z.ltb_spec N (ev_iteration (evaluator w))); [lia|].
  rewrite Hb, Hl. cbn [ev_disk evaluator ev_iteration]. rewrite Hm.
  cbn [ts_dataset evaluator].
  destruct (evaluate_model m (ts_dataset (evaluator w))) as [tr results].
  cbn [ev_disk evaluator ev_iteration].
  destruct (ev_iteration (evaluator w) =? 0);
    eexists; eexists; (split; [reflexivity|]); cbn; repeat split.
Qed.

(** Replaying reads the batch files and the model directories only. *)
Lemma replayable_ext (k : nat) (i : Z) (p : Pool) (d d' : Disk) :
  batch_path d = batch_path d' -> model_path d = model_path d' ->
  replayable k i p d = replayable k i p d'.
Proof.
  intros Hb Hm. revert i p.
  induction k as [|k IH]; intros i p; cbn [replayable]; [reflexivity|].
  rewrite Hb, Hm.
  destruct (batch_path d' !! i); [|reflexivity].
  destruct (model_path d' !! i); [|reflexivity].
  destruct (label l p); [apply IH|reflexivity].
Qed.

(** From any iteration, over a run directory that can be replayed up to
    the last configured iteration, the loop over the evaluator makes one
    advance per remaining iteration and then stops. *)
Lemma exhaust_replay (N : Z) (k : nat) :
  forall (w : EvaluatorWorld) (fuel : nat),
    n_iterations (ev_config (evaluator w)) = PyInt N -> 0 <= N < 2 ^ 63 ->
    ev_iteration (evaluator w) + Z.of_nat k = N + 1 ->
    replayable k (ev_iteration (evaluator w)) (ev_pool (evaluator w)) (ev_disk w)
    = true ->
    (k < fuel)%nat ->
    exists w',
      exhaust fuel w = Some (k, StopIteration, w')
      /\ ev_iteration (evaluator w') = N + 1
      /\ forall j,
           is_Some (test_metrics_path (ev_disk w') !! j)
           <-> is_Some (test_metrics_path (ev_disk w) !! j)
               \/ ev_iteration (evaluator w) <= j <= N.
Proof.
  induction k as [|k IH]; intros w fuel HN HR Hi Hrep Hfuel;
    (destruct fuel as [|fuel]; [lia|]); cbn [exhaust].
  - rewrite (ev_next_stop N w HN HR) by lia.
    exists w. split; [reflexivity|]. split; [lia|].
    intros j. split; [auto|]. intros [?|?]; [assumption|lia].
  - cbn [replayable] in Hrep.
    destruct (batch_path (ev_disk w) !! ev_iteration (evaluator w))
      as [b|] eqn:Hb; [|discriminate].
    destruct (model_path (ev_disk w) !! ev_iteration (evaluator w))
      as [m|] eqn:Hm; [|discriminate].
    destruct (label b (ev_pool (evaluator w))) as [p'|] eqn:Hl; [|discriminate].
    destruct (ev_next_advance N w b p' m HN HR ltac:(lia) Hb Hl Hm)
      as (r & w1 & Hnext & Hi1 & Hc1 & Hp1 & Hb1 & Hm1 & Ht1).
    rewrite Hnext.
    destruct (IH w1 fuel) as (w' & Hex & Hi' & Hdom).
    + rewrite Hc1. exact HN.
    + exact HR.
    + lia.
    + rewrite Hi1, Hp1.
      rewrite (replayable_ext k _ p' (ev_disk w1) (ev_disk w) Hb1 Hm1).
      exact Hrep.
    + lia.
    + exists w'. rewrite Hex. split; [reflexivity|]. split; [exact Hi'|].
      intros j. rewrite Hdom, Ht1, Hi1, lookup_insert_is_Some.
      destruct (decide (ev_iteration (evaluator w) = j)); intuition lia.
Qed.

(** C4: for an [Evaluator] whose configuration holds [n_iterations = N],
    a count, an advance raises [StopIteration] exactly when the iteration
    counter is strictly greater than [N]; so, started at iteration 0 over
    a run directory that holds the batches and models of iterations 0 to
    [N], the advances for iterations 0 to [N] all return and the next one
    stops: [N + 1] advances, which write the metrics files of iterations
    0 to [N] and no other. *)
Theorem evaluator_stops_after_n_iterations (N : Z) (w : EvaluatorWorld) :
  n_iterations (ev_config (evaluator w)) = PyInt N -> 0 <= N < 2 ^ 63 ->
  (fst (ev_next w) = Raise StopIteration <-> N < ev_iteration (evaluator w))
  /\ (ev_iteration (evaluator w) = 0 ->
      replayable (Z.to_nat (N + 1)) 0 (ev_pool (evaluator w)) (ev_disk w) = true ->
      forall fuel : nat,
        (Z.to_nat (N + 1) < fuel)%nat ->
        exists w',
          exhaust fuel w = Some (Z.to_nat (N + 1), StopIteration, w')
          /\ ev_iteration (evaluator w') = N + 1
          /\ forall j,
               is_Some (test_metrics_path (ev_disk w') !! j)
               <-> is_Some (test_metrics_path (ev_disk w) !! j)
                   \/ 0 <= j <= N).
Proof.
  intros HN HR. split.
  - split.
    + intros Hstop.
      destruct (Z.lt_ge_cases N (ev_iteration (evaluator w))) as [?|Hle];
        [assumption|].
      exfalso. exact (ev_next_no_stop N w HN HR ltac:(lia) Hstop).
    + intros Hlt. rewrite (ev_next_stop N w HN HR Hlt). reflexivity.
  - intros H0 Hrep fuel Hfuel.
    destruct (exhaust_replay N (Z.to_nat (N + 1)) w fuel HN HR) as (w' & H);
      [rewrite H0; lia|rewrite H0; exact Hrep|exact Hfuel|].
    exists w'. rewrite H0 in H. exact H.
Qed.

End EvaluatorFacts.

Lemma evaluator_stops_after_n_iterations_witness :
  (fst (@ev_next toy_engine toy_evaluator_world) = Raise StopIteration <-> 1 < 0)
  /\ exists w',
       @exhaust toy_engine 5 toy_evaluator_world = Some (2%nat, StopIteration, w')
       /\ ev_iteration (evaluator w') = 2
       /\ forall j,
            is_Some (test_metrics_path (ev_disk w') !! j) <-> 0 <= j <= 1.
Proof.
  destruct (@evaluator_stops_after_n_iterations toy_engine 1 toy_evaluator_world
              eq_refl ltac:(lia)) as (Hstop & Hrun).
  split; [exact Hstop|].
  destruct (Hrun eq_refl ltac:(vm_compute; reflexivity) 5%nat ltac:(simpl; lia))
    as (w' & Hex & Hi & Hdom).
  exists w'. split; [exact Hex|]. split; [exact Hi|].
  intros j. rewrite Hdom. cbn [test_metrics_path ev_disk toy_evaluator_world toy_disk].
  rewrite lookup_empty. split; [intros [[? ?]|?]; [discriminate|assumption]|auto].
Defined.

(** ** The learner *)

Section LearnerFacts.

Context {E : Engine}.

Lemma ignores_ret {A : Type} (a : A) : ignores_querier (ret a).
Proof. intros q w. reflexivity. Qed.

Lemma ignores_raise {A : Type} (e : exn) : ignores_querier (@raise _ A e).
Proof. intros q w. reflexivity. Qed.

Lemma ignores_lift {A : Type} (r : result A) : ignores_querier (lift r).
Proof. intros q w. reflexivity. Qed.

Lemma ignores_the {A : Type} (f : Learner -> A) :
  (forall q l, f (set_querier q l) = f l) -> ignores_querier (the f).
Proof. intros Hf q w. unfold the. cbn. rewrite Hf. reflexivity. Qed.

Lemma ignores_the_disk {A : Type} (f : Disk -> A) : ignores_querier (the_disk f).
Proof. intros q w. reflexivity. Qed.

Lemma ignores_on_learner (f : Learner -> Learner) :
  (forall q l, f (set_querier q l) = set_querier q (f l)) ->
  ignores_querier (on_learner f).
Proof.
  intros Hf q w. unfold on_learner, modify, with_querier. cbn.
  rewrite Hf. reflexivity.
Qed.

Lemma ignores_on_disk (f : Disk -> Disk) : ignores_querier (on_disk f).
Proof. intros q w. reflexivity. Qed.

Lemma ignores_draw {A : Type} (f : Rng -> result A * Rng) :
  ignores_querier (draw f).
Proof.
  intros q w. unfold draw, with_querier. cbn.
  destruct (f (rng w)) as [r g]. reflexivity.
Qed.

Lemma ignores_mbind {A B : Type} (c : M LearnerWorld A) (k : A -> M LearnerWorld B) :
  ignores_querier c -> (forall a, ignores_querier (k a)) ->
  ignores_querier (mbind c k).
Proof.
  intros Hc Hk q w. unfold mbind. rewrite Hc.
  destruct (c w) as [[a|e] w1]; cbn [fst snd]; [apply Hk|reflexivity].
Qed.

Ltac ignores :=
  repeat first
    [ apply ignores_ret
    | apply ignores_raise
    | apply ignores_lift
    | apply ignores_the_disk
    | apply ignores_on_disk
    | apply ignores_draw
    | apply ignores_the; reflexivity
    | apply ignores_on_learner; reflexivity
    | apply ignores_mbind; [|intros ?]
    | match goal with
      | |- ignores_querier (if ?b then _ else _) => destruct b
      | |- ignores_querier (match ?x with _ => _ end) => destruct x
      end ].

(** Training, saving and cleaning up never look at the querier. *)
Lemma finish_ignores_querier (b : list Z) : ignores_querier (finish b).
Proof. unfold finish, train, save_to_disk, post. ignores. Qed.

(** Nor does the choice of the first batch. *)
Lemma query_first_ignores_querier : ignores_querier query_first.
Proof. unfold query_first. ignores. Qed.

Ltac run_learner_in H :=
  cbv [__call__ __next__ finish train save_to_disk post pre query_first query
       learner_len mbind the the_disk draw on_learner on_disk lift raise get
       modify ret set_pool set_iteration set_state] in H.

Ltac simpl_world_in H :=
  cbn [learner disk rng pool config iteration querier state fst snd
       root_exists config_path tr_dataset_path ts_dataset_path batch_path
       model_path trainer_output_path checkpoints_path test_metrics_path] in H.

(** Case analysis on every test the computation in [H] makes, innermost
    first. *)
Ltac split_in H :=
  repeat (match type of H with
          | context [match ?x with _ => _ end] =>
              lazymatch x with
              | context [match _ with _ => _ end] => fail
              | _ => destruct x eqn:?
              end
          end;
          simpl_world_in H;
          try discriminate H).

(** What the steps after the choice of the batch leave behind when they
    return: the state of the iteration holds the batch, which is also the
    batch file of the iteration, and the counter has advanced. *)
Lemma finish_inv (b : list Z) (w w' : LearnerWorld) (st : LearnerState) :
  finish b w = (Ok st, w') ->
  batch st = b
  /\ batch_path (disk w') !! iteration (learner w) = Some b
  /\ iteration (learner w') = iteration (learner w) + 1
  /\ state (learner w') = Some st.
Proof.
  intros H. run_learner_in H. split_in H;
    injection H as <- <-; cbn; repeat split; apply lookup_insert_eq.
Qed.

(** C3: the first run of a [Learner] never consults the querier it was
    built with: run on a learner with any other querier it returns the
    same result and leaves the same world; it is refused unless the
    iteration counter is 0; and the batch it selects is the one a fresh
    [RandomQuerier()] draws, [n_start] indices out of all the unlabeled
    indices of the pool.  The querier of the constructor, wrapped by the
    factory (a fresh random one when none is given), is the one the
    later advances of the iterator call, with [n_query] and the best
    model of the state. *)
Theorem first_run_draws_random_batch :
  (forall (q : QuerierWrapper) (w : LearnerWorld),
      __call__ (with_querier q w)
      = (fst (__call__ w), with_querier q (snd (__call__ w))))
  /\ (forall w : LearnerWorld,
         iteration (learner w) <> 0 -> __call__ w = (Raise RuntimeError, w))
  /\ (forall (w w' : LearnerWorld) (st : LearnerState),
         __call__ w = (Ok st, w') ->
         iteration (learner w) = 0
         /\ exists g',
              default_sampler (rng w) (n_start (config (learner w)))
                (unlabeled_idx (pool (learner w)))
              = (Ok (batch st), g')
              /\ batch_path (disk w') !! 0 = Some (batch st))
  /\ (forall (w w' : LearnerWorld) (st : LearnerState),
         __next__ w = (Ok st, w') ->
         iteration (learner w) <> 0
         /\ exists s g',
              state (learner w) = Some s
              /\ wrapper_call (querier (learner w)) (pool (learner w))
                   (n_query (config (learner w))) (best_model s) (rng w)
                 = (Ok (batch st), g'))
  /\ (forall (p : Pool) (c : Config) (overwrite : bool) (q : option Querier)
             (i : Z) (d : Disk) (l : Learner),
         new_Learner p c overwrite q i d = Ok l ->
         querier_wrapper_factory
           (match q with
            | None => RandomQuerier default_sampler
            | Some q0 => q0
            end) = Ok (querier l)).
Proof.
  split; [|split; [|split; [|split]]].
  - assert (H : ignores_querier __call__); [|exact H].
    unfold __call__, pre. ignores.
  - intros w Hi. unfold __call__, mbind, the, raise.
    destruct (Z.eqb_spec (iteration (learner w)) 0); [contradiction|reflexivity].
  - intros w w' st H. unfold __call__ in H.
    mstep H. unfold the in E0. injection E0 as <- <-.
    destruct (Z.eqb_spec (iteration (learner w)) 0) as [Hi|Hi];
      [|discriminate].
    split; [exact Hi|]. cbn [negb] in H.
    mstep H. unfold pre, ret in E0. injection E0 as _ <-.
    mstep H. unfold query_first, mbind, the, draw in E0.
    destruct (default_sampler _ _ _) as [r g] eqn:Hs.
    injection E0 as -> <-.
    apply finish_inv in H as (Hb & Hfile & _).
    cbn [learner] in Hfile. rewrite Hi in Hfile.
    exists g. subst. split; [reflexivity|exact Hfile].
  - intros w w' st H. unfold __next__ in H.
    mstep H. unfold the in E0. injection E0 as <- <-.
    destruct (Z.eqb_spec (iteration (learner w)) 0) as [Hi|Hi];
      [discriminate|].
    split; [exact Hi|].
    mstep H. destruct (_ <? _); [discriminate|].
    assert (s = w) as ->.
    { unfold learner_len, mbind, the, lift in E0.
      destruct (py_len _); congruence. }
    mstep H. unfold pre, ret in E1. injection E1 as _ <-.
    mstep H. unfold query, mbind, the in E1.
    destruct (state (learner w)) as [s0|]; [|discriminate].
    unfold draw in E1.
    destruct (wrapper_call _ _ _ _ _) as [r g] eqn:Hq.
    injection E1 as -> <-.
    apply finish_inv in H as (Hb & _).
    exists s0, g. subst. split; [reflexivity|exact Hq].
  - intros p c overwrite q i d l. unfold new_Learner.
    destruct (negb (valid overwrite d)); [discriminate|].
    destruct (querier_wrapper_factory _) as [wq|e]; cbn [bind]; [|discriminate].
    intros [= <-]. reflexivity.
Qed.

End LearnerFacts.

Lemma first_run_draws_random_batch_witness :
  exists st w',
    @__call__ toy_engine toy_learner_world = (Ok st, w')
    /\ batch st = [0; 1]
    /\ batch_path (disk w') !! 0 = Some [0; 1]
    /\ exists st2 w'',
         @__next__ toy_engine w' = (Ok st2, w'') /\ batch st2 = [2].
Proof.
  destruct (@first_run_draws_random_batch toy_engine)
    as (_ & _ & Hfirst & Hnext & _).
  destruct (@__call__ toy_engine toy_learner_world) as [[st|e] w'] eqn:H;
    [|vm_compute in H; discriminate].
  exists st, w'. split; [reflexivity|].
  destruct (Hfirst _ _ _ H) as (_ & g' & Hs & Hfile).
  assert (Hb : batch st = [0; 1]).
  { revert Hs. generalize (batch st). intros bs Hs.
    vm_compute in Hs. congruence. }
  split; [exact Hb|]. split; [rewrite Hfile, Hb; reflexivity|].
  destruct (@__next__ toy_engine w') as [[st2|e] w''] eqn:H2.
  - exists st2, w''. split; [reflexivity|].
    destruct (Hnext _ _ _ H2) as (_ & s & g2 & Hst & Hq).
    revert Hq. generalize (batch st2). intros bs2 Hq.
    vm_compute in H. injection H as <- <-.
    vm_compute in Hst. injection Hst as <-.
    vm_compute in Hq. congruence.
  - vm_compute in H. injection H as <- <-. vm_compute in H2. discriminate.
Defined.

(* ===================================================================== *)
(** * Part III: more of the code                                           *)
(* ===================================================================== *)

(** ** Rounding stays within the format *)

Lemma digits2_pos_size (p : positive) : digits2_pos p = Pos.size p.
Proof. induction p; simpl; congruence. Qed.

(** A positive number lies between the powers of two its number of
    digits names. *)
Lemma Zdigits2_bounds (p : positive) :
  2 ^ (Zdigits2 (Zpos p) - 1) <= Zpos p < 2 ^ Zdigits2 (Zpos p).
Proof.
  unfold Zdigits2. rewrite digits2_pos_size.
  pose proof (Pos.size_gt p) as Hgt. pose proof (Pos.size_le p) as Hle.
  apply Pos2Z.pos_lt_pos in Hgt. apply Pos2Z.pos_le_pos in Hle.
  rewrite Pos2Z.inj_pow in Hgt, Hle.
  change (Zpos p~0) with (2 * Zpos p) in Hle.
  split; [|exact Hgt].
  replace (Zpos (Pos.size p)) with (Zpos (Pos.size p) - 1 + 1) in Hle by lia.
  rewrite Z.pow_add_r in Hle by lia. lia.
Qed.

Lemma shr_m_shr_1 (mrs : shr_record) :
  0 <= shr_m mrs -> shr_m (shr_1 mrs) = shr_m mrs / 2.
Proof.
  destruct mrs as [m r s]. simpl. intros Hm.
  destruct m as [|[p|p|]|p]; try lia; simpl.
  - reflexivity.
  - rewrite Pos2Z.inj_xI.
    apply (Z.div_unique_pos _ 2 (Zpos p) 1); lia.
  - rewrite Pos2Z.inj_xO.
    apply (Z.div_unique_pos _ 2 (Zpos p) 0); lia.
  - reflexivity.
Qed.

Lemma shr_m_iter_pos (p : positive) :
  forall mrs, 0 <= shr_m mrs ->
    shr_m (SpecFloat.iter_pos shr_1 p mrs) = shr_m mrs / 2 ^ Zpos p.
Proof.
  induction p as [p IH|p IH|]; intros mrs Hm; simpl SpecFloat.iter_pos.
  - assert (Hpow : 0 < 2 ^ Zpos p) by (apply Z.pow_pos_nonneg; lia).
    assert (H1 : 0 <= shr_m (shr_1 mrs))
      by (rewrite shr_m_shr_1 by lia; apply Z.div_pos; lia).
    assert (H2 : 0 <= shr_m (SpecFloat.iter_pos shr_1 p (shr_1 mrs)))
      by (rewrite IH by lia; apply Z.div_pos; lia).
    rewrite IH, IH, shr_m_shr_1 by lia.
    rewrite !Z.div_div by lia.
    f_equal.
    assert (Hd : Zpos p~1 = 1 + Zpos p + Zpos p) by lia. rewrite Hd.
    rewrite !Z.pow_add_r by lia. change (2 ^ 1) with 2. ring.
  - assert (Hpow : 0 < 2 ^ Zpos p) by (apply Z.pow_pos_nonneg; lia).
    assert (H2 : 0 <= shr_m (SpecFloat.iter_pos shr_1 p mrs))
      by (rewrite IH by lia; apply Z.div_pos; lia).
    rewrite IH, IH by lia.
    rewrite !Z.div_div by lia.
    f_equal.
    assert (Hd : Zpos p~0 = Zpos p + Zpos p) by lia. rewrite Hd.
    rewrite Z.pow_add_r by lia. reflexivity.
  - rewrite shr_m_shr_1 by lia. reflexivity.
Qed.

Lemma shr_m_shr_record_of_loc (m : Z) (l : location) :
  shr_m (shr_record_of_loc m l) = m.
Proof. destruct l as [|[]]; reflexivity. Qed.

(** Shifting to the exponent of the format divides the mantissa by the
    power of two the exponent gains. *)
Lemma shr_fexp_spec (m e : Z) (l : location) :
  0 <= m ->
  let '(mrs', e') := shr_fexp prec emax m e l in
  e <= e'
  /\ fexp prec emax (Zdigits2 m + e) <= e'
  /\ (e' = e \/ e' = fexp prec emax (Zdigits2 m + e))
  /\ shr_m mrs' = m / 2 ^ (e' - e).
Proof.
  intros Hm. unfold shr_fexp, shr.
  destruct (fexp prec emax (Zdigits2 m + e) - e) as [|p|p] eqn:Hn.
  - rewrite shr_m_shr_record_of_loc, Z.sub_diag, Z.div_1_r. lia.
  - rewrite shr_m_iter_pos by (rewrite shr_m_shr_record_of_loc; lia).
    rewrite shr_m_shr_record_of_loc.
    replace (e + Zpos p - e) with (Zpos p) by lia. lia.
  - rewrite shr_m_shr_record_of_loc, Z.sub_diag, Z.div_1_r. lia.
Qed.

Lemma round_nearest_even_bounds (m : Z) (l : location) :
  m <= round_nearest_even m l <= m + 1.
Proof.
  unfold round_nearest_even. destruct l as [|[]]; try lia.
  destruct (Z.even m); lia.
Qed.

Lemma fexp_eq (d : Z) : fexp prec emax d = Z.max (d - 53) (-1074).
Proof. reflexivity. Qed.

(** What rounding returns as a finite float fits the format. *)
Lemma binary_round_aux_bounded (s s' : bool) (m e : Z) (l : location)
    (m'' : positive) (e'' : Z) :
  0 <= m ->
  binary_round_aux prec emax s m e l = S754_finite s' m'' e'' ->
  Zpos m'' < 2 ^ 53 /\ e'' <= 971.
Proof.
  intros Hm. unfold binary_round_aux.
  pose proof (shr_fexp_spec m e l Hm) as H1.
  destruct (shr_fexp prec emax m e l) as [mrs' e'].
  destruct H1 as (He' & _ & _ & Hm').
  pose proof (round_nearest_even_bounds (shr_m mrs') (loc_of_shr_record mrs')) as Hr.
  set (m1 := round_nearest_even _ _) in *.
  assert (Hm1 : 0 <= m1).
  { rewrite Hm' in Hr. pose proof (Z.pow_pos_nonneg 2 (e' - e) ltac:(lia) ltac:(lia)).
    pose proof (Z.div_pos m (2 ^ (e' - e)) Hm ltac:(lia)). lia. }
  pose proof (shr_fexp_spec m1 e' loc_Exact Hm1) as H2.
  destruct (shr_fexp prec emax m1 e' loc_Exact) as [mrs'' e2].
  destruct H2 as (He2 & Hf & _ & Hm2).
  destruct (shr_m mrs'') as [|q|q] eqn:Hq; try discriminate.
  destruct (Z.leb_spec e2 (emax - prec)) as [Hle|]; [|discriminate].
  intros [= _ <- <-]. split; [|exact Hle].
  rewrite Hm2.
  assert (Hpow : 0 < 2 ^ (e2 - e')) by (apply Z.pow_pos_nonneg; lia).
  destruct m1 as [|p1|p1]; [rewrite Z.div_0_l in Hm2 by lia; lia| |lia].
  apply Z.div_lt_upper_bound; [lia|].
  pose proof (Zdigits2_bounds p1) as [_ Hd].
  rewrite fexp_eq in Hf.
  assert (Hdig : Zdigits2 (Zpos p1) <= e2 - e' + 53) by lia.
  assert (Hmono : 2 ^ Zdigits2 (Zpos p1) <= 2 ^ (e2 - e' + 53))
    by (apply Z.pow_le_mono_r; lia).
  rewrite Z.pow_add_r in Hmono by lia. lia.
Qed.

(** Rounding a positive number below the largest float, at an exponent
    within the format, does not overflow. *)
Lemma binary_round_aux_finite (s : bool) (p : positive) (e : Z) (l : location) :
  e <= 971 ->
  Zpos p < (2 ^ 53 - 1) * 2 ^ (971 - e) ->
  match binary_round_aux prec emax s (Zpos p) e l with
  | S754_zero _ | S754_finite _ _ _ => True
  | _ => False
  end.
Proof.
  intros He Hp. unfold binary_round_aux.
  pose proof (shr_fexp_spec (Zpos p) e l ltac:(lia)) as H1.
  destruct (shr_fexp prec emax (Zpos p) e l) as [mrs' e'].
  destruct H1 as (He' & _ & Hcase & Hm').
  assert (Hk0 : 0 < 2 ^ (971 - e)) by (apply Z.pow_pos_nonneg; lia).
  assert (He'max : e' <= 971).
  { destruct Hcase as [-> | ->]; [exact He|].
    rewrite fexp_eq.
    pose proof (Zdigits2_bounds p) as [Hd _].
    assert (Hlt : 2 ^ (Zdigits2 (Zpos p) - 1) < 2 ^ (53 + (971 - e))).
    { rewrite Z.pow_add_r by lia. nia. }
    apply Z.pow_lt_mono_r_iff in Hlt; lia. }
  pose proof (round_nearest_even_bounds (shr_m mrs') (loc_of_shr_record mrs')) as Hr.
  set (m1 := round_nearest_even _ _) in *.
  assert (Hpow : 0 < 2 ^ (e' - e)) by (apply Z.pow_pos_nonneg; lia).
  assert (Hk : 0 < 2 ^ (971 - e')) by (apply Z.pow_pos_nonneg; lia).
  assert (Hm'lt : shr_m mrs' < (2 ^ 53 - 1) * 2 ^ (971 - e')).
  { rewrite Hm'. apply Z.div_lt_upper_bound; [lia|].
    replace (971 - e) with ((e' - e) + (971 - e')) in Hp by lia.
    rewrite Z.pow_add_r in Hp by lia. lia. }
  assert (Hm'0 : 0 <= shr_m mrs') by (rewrite Hm'; apply Z.div_pos; lia).
  assert (Hm1 : 0 <= m1) by lia.
  pose proof (shr_fexp_spec m1 e' loc_Exact Hm1) as H2.
  destruct (shr_fexp prec emax m1 e' loc_Exact) as [mrs'' e2].
  destruct H2 as (He2 & _ & Hcase2 & Hm2).
  assert (He2max : e2 <= 971).
  { destruct Hcase2 as [-> | ->]; [exact He'max|].
    rewrite fexp_eq.
    destruct m1 as [|p1|p1]; [simpl; lia| |lia].
    pose proof (Zdigits2_bounds p1) as [Hd _].
    assert (Hlt : 2 ^ (Zdigits2 (Zpos p1) - 1) < 2 ^ (53 + (971 - e'))).
    { rewrite Z.pow_add_r by lia. nia. }
    apply Z.pow_lt_mono_r_iff in Hlt; lia. }
  assert (Hq : 0 <= shr_m mrs'').
  { rewrite Hm2. apply Z.div_pos; [lia|apply Z.pow_pos_nonneg; lia]. }
  destruct (shr_m mrs'') as [|q|q]; [exact I| |lia].
  destruct (Z.leb_spec e2 (emax - prec)) as [|Hgt]; [exact I|].
  unfold emax, prec in Hgt. lia.
Qed.

(** A valid float below 1.0 has a negative exponent that its mantissa
    does not make up for. *)
Lemma below_one_bound (mx : positive) (ex : Z) :
  valid_binary prec emax (S754_finite false mx ex) = true ->
  ltb (S754_finite false mx ex) one = true ->
  ex < 0 /\ Zpos mx < 2 ^ (- ex).
Proof.
  unfold valid_binary, bounded, canonical_mantissa.
  intros [Hc _]%andb_true_iff. apply Z.eqb_eq in Hc. rewrite fexp_eq in Hc.
  pose proof (Zdigits2_bounds mx) as [Hlo Hhi].
  change (Zdigits2 (Zpos mx)) with (Zpos (digits2_pos mx)) in Hlo, Hhi.
  unfold ltb, one.
  assert (H52 : Zpos 4503599627370496 = 2 ^ 52) by reflexivity.
  revert H52. generalize 4503599627370496%positive. intros c H52.
  unfold SFltb, SFcompare.
  change (Pos.compare_cont Eq mx c) with (Pos.compare mx c).
  destruct (Z.compare_spec ex (-52)) as [->|Hlt|Hgt]; try discriminate.
  - destruct (Pos.compare_spec mx c) as [|Hm|]; try discriminate.
    intros _. exfalso.
    assert (Hd : Zpos (digits2_pos mx) <= 52).
    { assert (Hp : 2 ^ (Zpos (digits2_pos mx) - 1) < 2 ^ 52).
      { apply Pos2Z.pos_lt_pos in Hm. lia. }
      apply Z.pow_lt_mono_r_iff in Hp; lia. }
    lia.
  - intros _. split; [lia|].
    assert (Hd : Zpos (digits2_pos mx) <= 53) by lia.
    assert (Hmono : 2 ^ Zpos (digits2_pos mx) <= 2 ^ (- ex))
      by (apply Z.pow_le_mono_r; lia).
    lia.
Qed.

(** A valid float that is at least 1.0 carries a mantissa at least as
    large as the power of two its exponent divides by. *)
Lemma at_least_one_bound (mx : positive) (ex : Z) :
  valid_binary prec emax (S754_finite false mx ex) = true ->
  leb one (S754_finite false mx ex) = true ->
  -52 <= ex /\ (ex < 0 -> 2 ^ (- ex) <= Zpos mx).
Proof.
  unfold valid_binary, bounded, canonical_mantissa.
  intros [Hc _]%andb_true_iff. apply Z.eqb_eq in Hc. rewrite fexp_eq in Hc.
  pose proof (Zdigits2_bounds mx) as [Hlo Hhi].
  change (Zdigits2 (Zpos mx)) with (Zpos (digits2_pos mx)) in Hlo, Hhi.
  unfold leb, one.
  generalize 4503599627370496%positive. intros c.
  unfold SFleb, SFcompare.
  destruct (Z.compare_spec (-52) ex) as [<-|Hlt|Hgt]; try discriminate.
  - intros _. split; [lia|]. intros _.
    assert (Hd : Zpos (digits2_pos mx) = 53) by lia.
    rewrite Hd in Hlo. exact Hlo.
  - intros _. split; [lia|]. intros Hneg.
    assert (Hd : Zpos (digits2_pos mx) = 53) by lia.
    rewrite Hd in Hlo.
    assert (Hmono : 2 ^ (- ex) <= 2 ^ (53 - 1))
      by (apply Z.pow_le_mono_r; lia).
    lia.
Qed.

(** A count read off a valid float that is at least 1.0 is at least 1. *)
Lemma int_of_float_at_least_one (x : float) (n : Z) :
  valid_binary prec emax x = true ->
  leb one x = true -> int_of_float x = Ok n -> 1 <= n.
Proof.
  intros Hv Hle Hi.
  destruct x as [s|s| |s mx ex]; try discriminate Hle; try discriminate Hi.
  destruct s; [discriminate Hle|].
  destruct (at_least_one_bound mx ex Hv Hle) as (He & Hm).
  revert Hi. cbn [int_of_float signed cond_Zopp].
  destruct (Z.leb_spec 0 ex) as [Hpos|Hneg]; intros [= <-].
  - pose proof (pow2_pos ex Hpos). nia.
  - specialize (Hm Hneg). pose proof (pow2_pos (- ex) ltac:(lia)).
    rewrite Z.quot_div_nonneg by lia.
    apply Z.div_le_lower_bound; lia.
Qed.

(** The float of an integer, when there is one, fits the format. *)
Lemma float_of_int_bounded (t : Z) (s : bool) (m : positive) (e : Z) :
  float_of_int t = Ok (S754_finite s m e) -> Zpos m < 2 ^ 53 /\ e <= 971.
Proof.
  unfold float_of_int, binary_normalize.
  destruct t as [|p|p]; [discriminate| |]; unfold binary_round;
    destruct (shl_align _ _ _) as [mz ez];
    destruct (binary_round_aux prec emax _ (Zpos mz) ez loc_Exact)
      as [s'|s'| |s' m' e'] eqn:Hr; try discriminate;
    intros [= -> -> ->];
    exact (binary_round_aux_bounded _ _ (Zpos mz) _ _ _ _
             (Pos2Z.is_nonneg mz) Hr).
Qed.

(** The float of an integer is a zero or a finite float. *)
Lemma float_of_int_finite (t : Z) (ft : float) :
  float_of_int t = Ok ft -> is_finite ft = true.
Proof.
  unfold float_of_int.
  destruct (binary_normalize _ _ _ _ _); intros [= <-]; reflexivity.
Qed.

(** A valid proportion below 1.0 times the float of an integer never
    overflows: the product is a zero or a finite float. *)
Lemma mul_finite (x ft : float) (t : Z) :
  valid_binary prec emax x = true ->
  leb zero x = true -> ltb x one = true ->
  float_of_int t = Ok ft ->
  is_finite (mul x ft) = true.
Proof.
  intros Hv H0 H1 Hft.
  pose proof (float_of_int_finite t ft Hft) as Hfin.
  destruct x as [sx|sx| |sx mx ex].
  - destruct ft as [sy|sy| |sy my ey]; try discriminate; reflexivity.
  - destruct sx; discriminate.
  - discriminate.
  - destruct sx; [discriminate|].
    destruct ft as [sy|sy| |sy my ey]; try discriminate; [reflexivity|].
    destruct (below_one_bound mx ex Hv H1) as (Hex & Hmx).
    destruct (float_of_int_bounded t sy my ey Hft) as (Hmy & Hey).
    unfold mul, SFmul.
    pose proof (binary_round_aux_finite (xorb false sy) (mx * my) (ex + ey)
                  loc_Exact ltac:(lia)) as Hr.
    destruct (binary_round_aux _ _ _ _ _ _); try reflexivity;
      exfalso; apply Hr.
    all: replace (971 - (ex + ey)) with ((- ex) + (971 - ey)) by lia;
      rewrite Z.pow_add_r by lia;
      pose proof (pow2_pos (971 - ey) ltac:(lia));
      pose proof (pow2_pos (- ex) ltac:(lia));
      rewrite Pos2Z.inj_mul; nia.
Qed.

(** ** Proportions of valid floats *)

(** X1: on a valid binary64 [x], [proportion_or_integer_to_int] either
    returns, or raises [RuntimeError], or raises [OverflowError] because
    the total does not fit a float: [int] never meets an infinity or a
    NaN.  A count it returns is at least 1, and a proportion of a total
    that is not negative is not negative. *)
Theorem proportion_or_integer_to_int_outcomes (x : float) (total : option Z) :
  valid_binary prec emax x = true ->
  match proportion_or_integer_to_int (PyFloat x) total with
  | Ok n =>
      (leb one x = true -> 1 <= n)
      /\ (ltb x one = true -> forall t, total = Some t -> 0 <= t -> 0 <= n)
  | Raise RuntimeError => True
  | Raise OverflowError =>
      exists t, total = Some t /\ float_of_int t = Raise OverflowError
  | Raise _ => False
  end.
Proof.
  intros Hv. unfold proportion_or_integer_to_int.
  cbn [ge_one Num.is_integer int in_unit_interval times_int].
  destruct (leb one x) eqn:H1; [destruct (Float.is_integer x) eqn:Hi|];
    cbn [andb].
  - destruct (int_of_float_integral x Hi) as (n & Hn & _). rewrite Hn.
    split.
    + intros _. exact (int_of_float_at_least_one x n Hv H1 Hn).
    + intros Hlt. rewrite (ltb_one_not_leb x Hlt) in H1. discriminate.
  - destruct total as [t|]; [|exact I].
    destruct (leb zero x) eqn:H0; [|exact I].
    destruct (leb x one) eqn:Hle; [|exact I]. cbn [andb].
    exfalso.
    destruct (ltb x one) eqn:Hlt.
    + rewrite (ltb_one_not_leb x Hlt) in H1. discriminate.
    + rewrite (leb_one_not_ltb x Hle Hlt) in Hi. vm_compute in Hi. discriminate.
  - destruct total as [t|]; [|exact I].
    destruct (leb zero x) eqn:H0; [|exact I].
    destruct (leb x one) eqn:Hle; [|exact I]. cbn [andb].
    assert (Hlt : ltb x one = true).
    { destruct (ltb x one) eqn:Hlt; [reflexivity|].
      rewrite (leb_one_not_ltb x Hle Hlt) in H1. vm_compute in H1. discriminate. }
    destruct (float_of_int t) as [ft|e] eqn:Hft; cbn [bind int].
    + destruct (int_of_float_truncates _ (mul_finite x ft t Hv H0 Hlt Hft))
        as (n & Hn & Hfloor & _).
      rewrite Hn. split; [discriminate|].
      intros _ t' [= <-] Ht.
      pose proof (mul_nonneg x ft t H0 Ht Hft) as Hq.
      rewrite (Hfloor Hq).
      apply (Qfloor_resp_le 0) in Hq. exact Hq.
    + assert (e = OverflowError) as ->.
      { revert Hft. unfold float_of_int.
        destruct (binary_normalize _ _ _ _ _); congruence. }
      exists t. split; [reflexivity|exact Hft].
Qed.

Lemma proportion_or_integer_to_int_outcomes_witness :
  exists n,
    proportion_or_integer_to_int (PyFloat tenth) (Some 37) = Ok n /\ 0 <= n.
Proof.
  pose proof (proportion_or_integer_to_int_outcomes tenth (Some 37) eq_refl) as H.
  destruct (proportion_or_integer_to_int (PyFloat tenth) (Some 37)) as [n|e] eqn:E;
    [|vm_compute in E; discriminate].
  exists n. split; [reflexivity|].
  destruct H as (_ & H). apply (H eq_refl 37); [reflexivity|lia].
Defined.

(** ** The iteration count at its edges *)

(** X2: [compute_total_al_iterations] raises [ZeroDivisionError] on a
    query size of 0; for a positive query size the count is positive
    exactly when rows are left after the start, zero when the start
    overshoots the rows by less than one query, and negative beyond; it
    grows with the number of rows; for a negative query size it is still
    the ceiling of the quotient. *)
Theorem compute_total_al_iterations_edges :
  (forall n_rows n_start : Z,
      compute_total_al_iterations n_rows n_start 0 = Raise ZeroDivisionError)
  /\ (forall n_rows n_start n_query : Z,
         0 < n_query ->
         exists k,
           compute_total_al_iterations n_rows n_start n_query = Ok k
           /\ (0 < k <-> n_start < n_rows)
           /\ (k = 0 <-> n_rows <= n_start < n_rows + n_query)
           /\ (k < 0 <-> n_rows + n_query <= n_start))
  /\ (forall n_rows n_rows' n_start n_query k k' : Z,
         0 < n_query -> n_rows <= n_rows' ->
         compute_total_al_iterations n_rows n_start n_query = Ok k ->
         compute_total_al_iterations n_rows' n_start n_query = Ok k' ->
         k <= k')
  /\ (forall n_rows n_start n_query : Z,
         n_query < 0 ->
         exists k,
           compute_total_al_iterations n_rows n_start n_query = Ok k
           /\ k * n_query <= n_rows - n_start < (k - 1) * n_query).
Proof.
  split; [reflexivity|]. split; [|split].
  - intros r s q Hq.
    destruct (compute_total_al_iterations_covers r s q Hq) as (k & Hk & Hb & _).
    exists k. split; [exact Hk|].
    assert (HA : 1 <= k -> 0 <= (k - 1) * q)
      by (intros; apply Z.mul_nonneg_nonneg; lia).
    assert (HB : k <= 0 -> k * q <= 0)
      by (intros; apply Z.mul_nonpos_nonneg; lia).
    assert (HC : k <= -1 -> (k + 1) * q <= 0)
      by (intros; apply Z.mul_nonpos_nonneg; lia).
    assert (HD : 2 <= k -> 0 <= (k - 2) * q)
      by (intros; apply Z.mul_nonneg_nonneg; lia).
    repeat split; intros; lia.
  - intros r r' s q k k' Hq Hr Hk Hk'.
    destruct (compute_total_al_iterations_covers r s q Hq) as (k0 & Hk0 & Hb & _).
    destruct (compute_total_al_iterations_covers r' s q Hq) as (k1 & Hk1 & Hb' & _).
    rewrite Hk in Hk0. rewrite Hk' in Hk1.
    injection Hk0 as <-. injection Hk1 as <-. nia.
  - intros r s q Hq. unfold compute_total_al_iterations.
    destruct (Z.eqb_spec q 0) as [->|_]; [lia|].
    set (n := r - s).
    pose proof (Z.div_mod n q ltac:(lia)) as Hdm.
    pose proof (Z.mod_neg_bound n q Hq) as Hb.
    destruct (Z.eqb_spec (n mod q) 0) as [Hr|Hr]; eexists; (split; [reflexivity|]);
      nia.
Qed.

Lemma compute_total_al_iterations_edges_witness :
  exists k, compute_total_al_iterations 10 12 3 = Ok k /\ k = 0.
Proof.
  destruct (proj1 (proj2 compute_total_al_iterations_edges) 10 12 3 ltac:(lia))
    as (k & Hk & _ & Hzero & _).
  exists k. split; [exact Hk|]. apply Hzero. lia.
Defined.

(** ** The configuration, step by step *)

(** [configure] spelled out: what it returns and what it leaves behind
    at each place it can stop. *)
Lemma configure_unfold (n : Z) (w : ConfigWorld) :
  configure n w =
  if _configured (self w) then (Raise AssertionError, w)
  else
    let c1 := set_n_rows (Some n) (self w) in
    match proportion_or_integer_to_int (n_start (self w)) (Some n) with
    | Raise e => (Raise e, {| self := c1; warnings := warnings w |})
    | Ok start =>
        let c2 := set_n_start (PyInt start) c1 in
        match proportion_or_integer_to_int (n_query (self w)) (Some n) with
        | Raise e => (Raise e, {| self := c2; warnings := warnings w |})
        | Ok query =>
            let c3 := set_n_query (PyInt query) c2 in
            match compute_total_al_iterations n start query with
            | Raise e => (Raise e, {| self := c3; warnings := warnings w |})
            | Ok total =>
                match proportion_or_integer_to_int (n_iterations (self w))
                        (Some total) with
                | Raise e => (Raise e, {| self := c3; warnings := warnings w |})
                | Ok iters =>
                    if total <? iters then
                      (Ok tt,
                       {| self := set_configured true
                                    (set_n_iterations (PyInt total)
                                       (set_n_iterations (PyInt iters) c3));
                          warnings := warnings w ++ [ClampedIterations iters total] |})
                    else
                      (Ok tt,
                       {| self := set_configured true
                                    (set_n_iterations (PyInt iters) c3);
                          warnings := warnings w |})
                end
            end
        end
    end.
Proof.
  cbv [configure mbind read update modify lift warn raise ret].
  cbn [self warnings].
  destruct (_configured (self w)); [reflexivity|].
  cbn [n_rows n_start n_query n_iterations set_n_rows set_n_start set_n_query].
  destruct (proportion_or_integer_to_int (n_start (self w)) (Some n))
    as [start|e]; [|reflexivity].
  cbn [self warnings n_rows n_start n_query n_iterations
       set_n_rows set_n_start set_n_query].
  destruct (proportion_or_integer_to_int (n_query (self w)) (Some n))
    as [query|e]; [|reflexivity].
  cbn [self warnings n_rows n_start n_query n_iterations
       set_n_rows set_n_start set_n_query].
  destruct (compute_total_al_iterations n start query) as [total|e];
    [|reflexivity].
  cbn [self warnings n_rows n_start n_query n_iterations
       set_n_rows set_n_start set_n_query].
  destruct (proportion_or_integer_to_int (n_iterations (self w)) (Some total))
    as [iters|e]; [|reflexivity].
  destruct (total <? iters); reflexivity.
Qed.

Lemma int_of_float_raises (x : float) (e : exn) :
  int_of_float x = Raise e -> e = OverflowError \/ e = ValueError.
Proof.
  destruct x as [s|s| |s m ex]; cbn [int_of_float];
    try destruct (0 <=? ex); intros [= <-]; auto.
Qed.

Lemma float_of_int_raises (t : Z) (e : exn) :
  float_of_int t = Raise e -> e = OverflowError.
Proof.
  unfold float_of_int. destruct (binary_normalize _ _ _ _ _); congruence.
Qed.

(** The exceptions [proportion_or_integer_to_int] can raise. *)
Lemma proportion_or_integer_to_int_raises (x : num) (total : option Z) (e : exn) :
  proportion_or_integer_to_int x total = Raise e ->
  e = RuntimeError \/ e = OverflowError \/ e = ValueError.
Proof.
  unfold proportion_or_integer_to_int.
  destruct (ge_one x && Num.is_integer x).
  - destruct x as [z|f]; cbn [int]; [discriminate|].
    intros H%int_of_float_raises. tauto.
  - destruct total as [t|]; [|intros [= <-]; auto].
    destruct (in_unit_interval x); [|intros [= <-]; auto].
    destruct x as [z|f]; cbn [times_int bind int]; [discriminate|].
    destruct (float_of_int t) as [ft|e'] eqn:Hft; cbn [bind int].
    + intros H%int_of_float_raises. tauto.
    + intros [= <-]. apply float_of_int_raises in Hft. auto.
Qed.

(** X3: a [configure] that returns has stored the number of rows and
    resolved [n_start], [n_query] and [n_iterations] to integers, the last
    one lowered to the feasible count when it exceeded it, so that
    [n_iterations] never exceeds that count; it has left [val_set_size]
    and the scripting flags alone, marked the instance configured, and
    emitted one warning exactly when it lowered [n_iterations]. *)
Theorem configure_resolves (n : Z) (w w' : ConfigWorld) (u : unit) :
  configure n w = (Ok u, w') ->
  exists start query total iters,
    proportion_or_integer_to_int (n_start (self w)) (Some n) = Ok start
    /\ proportion_or_integer_to_int (n_query (self w)) (Some n) = Ok query
    /\ compute_total_al_iterations n start query = Ok total
    /\ proportion_or_integer_to_int (n_iterations (self w)) (Some total) = Ok iters
    /\ n_rows (self w') = Some n
    /\ n_start (self w') = PyInt start
    /\ n_query (self w') = PyInt query
    /\ n_iterations (self w') = PyInt (Z.min iters total)
    /\ Z.min iters total <= total
    /\ query <> 0
    /\ val_set_size (self w') = val_set_size (self w)
    /\ learn (self w') = learn (self w)
    /\ evaluate (self w') = evaluate (self w)
    /\ resume (self w') = resume (self w)
    /\ resume_from_checkpoint (self w') = resume_from_checkpoint (self w)
    /\ _configured (self w') = true
    /\ warnings w'
       = warnings w
         ++ (if total <? iters then [ClampedIterations iters total] else []).
Proof.
  rewrite configure_unfold. cbv zeta.
  destruct (_configured (self w)); [discriminate|].
  destruct (proportion_or_integer_to_int (n_start (self w)) (Some n))
    as [start|e] eqn:Hs; [|discriminate].
  destruct (proportion_or_integer_to_int (n_query (self w)) (Some n))
    as [query|e] eqn:Hq; [|discriminate].
  destruct (compute_total_al_iterations n start query) as [total|e] eqn:Ht;
    [|discriminate].
  destruct (proportion_or_integer_to_int (n_iterations (self w)) (Some total))
    as [iters|e] eqn:Hi; [|discriminate].
  assert (Hq0 : query <> 0).
  { intros ->. discriminate Ht. }
  intros H. exists start, query, total, iters. destruct u.
  destruct (Z.ltb_spec total iters); injection H as <-; cbn;
    repeat split; auto; try lia; try (f_equal; lia);
    try (symmetry; apply app_nil_r).
Qed.

Lemma configure_resolves_witness :
  exists w',
    configure 95 {| self := default_fields; warnings := [] |} = (Ok tt, w')
    /\ n_start (self w') = PyInt 9
    /\ n_query (self w') = PyInt 9
    /\ n_iterations (self w') = PyInt 1
    /\ warnings w' = [].
Proof.
  destruct (configure 95 {| self := default_fields; warnings := [] |})
    as [[[]|e] w'] eqn:H; [|vm_compute in H; discriminate].
  exists w'. split; [reflexivity|].
  destruct (configure_resolves 95 _ w' tt H)
    as (start & query & total & iters & Hs & Hq & Ht & Hi
        & _ & Hs' & Hq' & Hi' & _ & _ & _ & _ & _ & _ & _ & _ & Hw).
  vm_compute in Hs. injection Hs as <-.
  vm_compute in Hq. injection Hq as <-.
  vm_compute in Ht. injection Ht as <-.
  vm_compute in Hi. injection Hi as <-.
  repeat split; assumption.
Defined.

(** X4: a [configure] that raises emits no warning and leaves the
    instance as configured or not as it found it; the exception is the
    [AssertionError] exactly when the instance was configured already (and
    then nothing has changed), and otherwise a [RuntimeError],
    [OverflowError], [ValueError] or [ZeroDivisionError] raised after
    [n_rows] was overwritten: the failed call is not undone. *)
Theorem configure_failure (n : Z) (w w' : ConfigWorld) (e : exn) :
  configure n w = (Raise e, w') ->
  warnings w' = warnings w
  /\ _configured (self w') = _configured (self w)
  /\ n_iterations (self w') = n_iterations (self w)
  /\ val_set_size (self w') = val_set_size (self w)
  /\ (e = AssertionError <-> _configured (self w) = true)
  /\ (_configured (self w) = true -> w' = w)
  /\ (_configured (self w) = false ->
      n_rows (self w') = Some n
      /\ (e = RuntimeError \/ e = OverflowError \/ e = ValueError
          \/ e = ZeroDivisionError)).
Proof.
  rewrite configure_unfold. cbv zeta.
  destruct (_configured (self w)) eqn:Hc.
  { intros [= <- <-]. rewrite Hc. repeat split; auto; discriminate. }
  assert (Hp : forall x t e0,
             proportion_or_integer_to_int x t = Raise e0 ->
             e0 <> AssertionError
             /\ (e0 = RuntimeError \/ e0 = OverflowError \/ e0 = ValueError
                 \/ e0 = ZeroDivisionError)).
  { intros x t e0 H%proportion_or_integer_to_int_raises.
    destruct H as [-> | [-> | ->]]; split; auto; discriminate. }
  destruct (proportion_or_integer_to_int (n_start (self w)) (Some n))
    as [start|e1] eqn:Hs.
  2:{ intros [= <- <-]. destruct (Hp _ _ _ Hs) as (Hne & Hin). cbn.
      repeat split; auto; try discriminate; try contradiction. }
  destruct (proportion_or_integer_to_int (n_query (self w)) (Some n))
    as [query|e1] eqn:Hq.
  2:{ intros [= <- <-]. destruct (Hp _ _ _ Hq) as (Hne & Hin). cbn.
      repeat split; auto; try discriminate; try contradiction. }
  destruct (compute_total_al_iterations n start query) as [total|e1] eqn:Ht.
  2:{ intros [= <- <-]. cbn.
      assert (e1 = ZeroDivisionError) as ->.
      { revert Ht. unfold compute_total_al_iterations.
        destruct (query =? 0); [congruence|].
        destruct (_ =? 0); discriminate. }
      repeat split; auto; try discriminate. }
  destruct (proportion_or_integer_to_int (n_iterations (self w)) (Some total))
    as [iters|e1] eqn:Hi.
  2:{ intros [= <- <-]. destruct (Hp _ _ _ Hi) as (Hne & Hin). cbn.
      repeat split; auto; try discriminate; try contradiction. }
  destruct (total <? iters); discriminate.
Qed.

Lemma configure_failure_witness :
  exists w',
    configure 5 {| self := default_fields; warnings := [] |}
    = (Raise ZeroDivisionError, w')
    /\ _configured (self w') = false
    /\ n_rows (self w') = Some 5.
Proof.
  destruct (configure 5 {| self := default_fields; warnings := [] |})
    as [[[]|e] w'] eqn:H; [vm_compute in H; discriminate|].
  destruct (configure_failure 5 _ w' e H) as (_ & Hc & _ & _ & _ & _ & Hrows).
  exists w'. destruct (Hrows eq_refl) as (Hr & _).
  assert (e = ZeroDivisionError) as ->
    by (vm_compute in H; congruence).
  split; [reflexivity|]. split; [exact Hc|exact Hr].
Defined.

(** X5: a number of rows of 0 counts as none.  The constructor given
    [n_rows = 0], like the one given no [n_rows], returns an instance that
    is not configured, with the fields as given and no warning; its
    [validation_set_size] is refused; and [configure(0)] on an instance
    whose start size resolves and whose query size is a proportion below
    1.0 resolves that size to 0 and raises [ZeroDivisionError]. *)
Theorem zero_rows_are_no_rows :
  (forall (rows : option Z) (start query val iters : num) (l e r : bool)
          (ckpt : option Z),
      rows = None \/ rows = Some 0 ->
      new_Config rows start query val iters l e r ckpt
      = (Ok {| n_rows := rows; n_start := start; n_query := query;
               val_set_size := val; n_iterations := iters;
               learn := l; evaluate := e; resume := r;
               resume_from_checkpoint := ckpt; _configured := false |},
         []))
  /\ (forall (c : Config) (k : option Z),
         _configured c = false ->
         validation_set_size c k = Raise AssertionError)
  /\ (forall (w : ConfigWorld) (x : float) (start : Z),
         _configured (self w) = false ->
         n_query (self w) = PyFloat x ->
         leb zero x = true -> ltb x one = true ->
         proportion_or_integer_to_int (n_start (self w)) (Some 0) = Ok start ->
         fst (configure 0 w) = Raise ZeroDivisionError).
Proof.
  split; [|split].
  - intros rows start query val iters l e r ckpt [-> | ->]; reflexivity.
  - intros c k Hc. unfold validation_set_size. rewrite Hc. reflexivity.
  - intros w x start Hc Hq H0 H1 Hs.
    rewrite configure_unfold, Hc, Hs. cbv zeta.
    assert (Hzero : proportion_or_integer_to_int (n_query (self w)) (Some 0) = Ok 0).
    { rewrite Hq. unfold proportion_or_integer_to_int.
      cbn [ge_one Num.is_integer in_unit_interval times_int int].
      rewrite (ltb_one_not_leb x H1), H0. cbn [andb].
      assert (Hle : leb x one = true).
      { revert H1. unfold ltb, leb, SFltb, SFleb.
        destruct (SFcompare x one) as [[]|]; auto. }
      rewrite Hle.
      change (float_of_int 0) with (Ok (S754_zero false)). cbn [bind int].
      destruct x as [s|s| |s m ex]; try reflexivity.
      - destruct s; vm_compute in H0, H1; discriminate.
      - vm_compute in H0; discriminate. }
    rewrite Hzero. reflexivity.
Qed.

Lemma zero_rows_are_no_rows_witness :
  default_Config (Some 0) = (Ok (set_n_rows (Some 0) default_fields), [])
  /\ fst (configure 0 {| self := default_fields; warnings := [] |})
     = Raise ZeroDivisionError.
Proof.
  destruct zero_rows_are_no_rows as (Hnew & _ & Hconf).
  split.
  - unfold default_Config. rewrite Hnew by (right; reflexivity). reflexivity.
  - apply (Hconf _ tenth 0); reflexivity.
Defined.

(** X6: [configure] resolves [n_start], [n_query] and [n_iterations] but
    not [val_set_size].  Before it [validation_set_size] is refused at its
    assertion; after it an integer [val_set_size] is returned as it is,
    whatever the number of labeled rows, while a float one is still a
    proportion: without a number of labeled rows it raises [RuntimeError],
    and with one it is the truncated product, also for a float of 1.0 or
    more, which the other three fields read as a count.  For a proportion
    below 1.0 of a number of rows that is not negative the size is not
    negative, and the only failure is a number of rows too large for a
    float. *)
Theorem validation_set_size_after_configure (n : Z) (w w' : ConfigWorld)
    (u : unit) (k : option Z) :
  configure n w = (Ok u, w') ->
  validation_set_size (self w) k = Raise AssertionError
  /\ match val_set_size (self w), k with
     | PyInt z, _ => validation_set_size (self w') k = Ok z
     | PyFloat f, None => validation_set_size (self w') k = Raise RuntimeError
     | PyFloat f, Some t =>
         validation_set_size (self w') k
         = (let? ft := float_of_int t in int_of_float (mul f ft))
         /\ (valid_binary prec emax f = true -> leb zero f = true ->
             ltb f one = true -> 0 <= t ->
             match validation_set_size (self w') k with
             | Ok v => 0 <= v
             | Raise e => float_of_int t = Raise OverflowError
             end)
     end.
Proof.
  intros (Hc & start & query & total & iters & _ & _ & _ & _ & Hw)%configure_inv.
  split; [unfold validation_set_size; rewrite Hc; reflexivity|].
  unfold validation_set_size. rewrite Hw.
  cbv [set_configured set_n_iterations set_n_query set_n_start set_n_rows].
  cbn [_configured val_set_size negb times_int].
  destruct (val_set_size (self w)) as [z|f]; [reflexivity|].
  destruct k as [t|]; [|reflexivity].
  split; [destruct (float_of_int t); reflexivity|].
  intros Hv H0 H1 Ht.
  destruct (float_of_int t) as [ft|e] eqn:Hft; cbn [Py.bind].
  - destruct (int_of_float_truncates _ (mul_finite f ft t Hv H0 H1 Hft))
      as (v & Hn & Hfloor & _).
    cbn [int]. rewrite Hn.
    pose proof (mul_nonneg f ft t H0 Ht Hft) as Hq.
    rewrite (Hfloor Hq).
    apply (Qfloor_resp_le 0) in Hq. exact Hq.
  - apply float_of_int_raises in Hft as Hft'. subst e. reflexivity.
Qed.

Lemma validation_set_size_after_configure_witness :
  exists w',
    configure 95 {| self := default_fields; warnings := [] |} = (Ok tt, w')
    /\ validation_set_size (self w') None = Raise RuntimeError.
Proof.
  destruct (configure 95 {| self := default_fields; warnings := [] |})
    as [[[]|e] w'] eqn:H; [|vm_compute in H; discriminate].
  exists w'. split; [reflexivity|].
  exact (proj2 (validation_set_size_after_configure 95 _ w' tt None H)).
Defined.

(** ** One iteration of the learner *)

Import Loop.

Section LearnerSteps.

Context {E : Engine}.

Ltac run_learner_in H :=
  cbv [__call__ __next__ finish train save_to_disk post pre query_first query
       learner_len mbind the the_disk draw on_learner on_disk lift raise get
       modify ret set_pool set_iteration set_state] in H.

Ltac simpl_world_in H :=
  cbn [learner disk rng pool config iteration querier state fst snd
       root_exists config_path tr_dataset_path ts_dataset_path batch_path
       model_path trainer_output_path checkpoints_path test_metrics_path] in H.

Ltac split_in H :=
  repeat (match type of H with
          | context [match ?x with _ => _ end] =>
              lazymatch x with
              | context [match _ with _ => _ end] => fail
              | _ => destruct x eqn:?
              end
          end;
          simpl_world_in H;
          try discriminate H).

(** Everything the steps after the choice of the batch have done when
    they return. *)
Lemma finish_effects (b : list Z) (w w' : LearnerWorld) (st : LearnerState) :
  finish b w = (Ok st, w') ->
  let i := iteration (learner w) in
  exists p' test_size sp tr out saved g',
    label b (pool (learner w)) = Ok p'
    /\ validation_set_size (config (learner w))
         (Some (Z.of_nat (size (labeled_idx p')))) = Ok test_size
    /\ fit (rng w) (dataset p') (elements (labeled_idx p')) test_size
       = (sp, tr, out, saved, g')
    /\ (saved = true \/ i ∈ checkpoints_path (disk w))
    /\ st = new_LearnerState b (Some sp) (i + 1) (Some tr) (Some out) None
    /\ learner w' = {| pool := p'; config := config (learner w);
                       iteration := i + 1; querier := querier (learner w);
                       state := Some st |}
    /\ rng w' = g'
    /\ root_exists (disk w') = (if i =? 0 then true else root_exists (disk w))
    /\ config_path (disk w')
       = (if i =? 0 then Some (config (learner w)) else config_path (disk w))
    /\ tr_dataset_path (disk w')
       = (if i =? 0 then Some (dataset p') else tr_dataset_path (disk w))
    /\ ts_dataset_path (disk w') = ts_dataset_path (disk w)
    /\ batch_path (disk w') = <[ i := b ]> (batch_path (disk w))
    /\ model_path (disk w') = <[ i := trainer_model tr ]> (model_path (disk w))
    /\ trainer_output_path (disk w')
       = <[ i := out ]> (trainer_output_path (disk w))
    /\ checkpoints_path (disk w') = checkpoints_path (disk w) ∖ {[ i ]}
    /\ test_metrics_path (disk w') = test_metrics_path (disk w).
Proof.
  intros H i. subst i. run_learner_in H. split_in H.
  all: injection H as <- <-.
  all: do 7 eexists; cbn.
  all: split; [reflexivity|]; split; [eassumption|]; split; [eassumption|].
  all: split;
    [first [left; reflexivity
           |right; eapply bool_decide_eq_true_1; eassumption]|].
  all: repeat split; try reflexivity.
  all: apply set_eq; intros x;
    rewrite !elem_of_difference, elem_of_union; tauto.
Qed.

(** A first run that returns ran at iteration 0, on the batch the default
    random querier drew. *)
Lemma call_inv (w w' : LearnerWorld) (st : LearnerState) :
  __call__ w = (Ok st, w') ->
  iteration (learner w) = 0
  /\ exists b g,
       default_sampler (rng w) (n_start (config (learner w)))
         (unlabeled_idx (pool (learner w))) = (Ok b, g)
       /\ finish b {| learner := learner w; disk := disk w; rng := g |}
          = (Ok st, w').
Proof.
  unfold __call__, mbind at 1, the at 1.
  destruct (Z.eqb_spec (iteration (learner w)) 0) as [Hi|Hi];
    cbn [negb]; [|discriminate].
  intros H. split; [exact Hi|].
  unfold pre, mbind at 1, ret at 1, mbind at 1 in H.
  destruct (query_first w) as [[b|e] w1] eqn:Hq; [|discriminate].
  revert Hq. cbv [query_first mbind the draw].
  destruct (default_sampler _ _ _) as [[b'|e'] g]; intros [= <- <-].
  exists b', g. split; [reflexivity|exact H].
Qed.

(** An advance that returns ran after the first run, not past the
    configured number of iterations, on the batch the wrapped querier
    chose for the model of the previous state. *)
Lemma next_inv (w w' : LearnerWorld) (st : LearnerState) :
  __next__ w = (Ok st, w') ->
  iteration (learner w) <> 0
  /\ exists N s b g,
       n_iterations (config (learner w)) = PyInt N
       /\ 0 <= N < 2 ^ 63
       /\ iteration (learner w) <= N
       /\ state (learner w) = Some s
       /\ wrapper_call (querier (learner w)) (pool (learner w))
            (n_query (config (learner w))) (best_model s) (rng w) = (Ok b, g)
       /\ finish b {| learner := learner w; disk := disk w; rng := g |}
          = (Ok st, w').
Proof.
  unfold __next__, mbind at 1, the at 1.
  destruct (Z.eqb_spec (iteration (learner w)) 0) as [Hi|Hi]; [discriminate|].
  intros H. split; [exact Hi|].
  unfold mbind at 1, learner_len, mbind at 1, the at 1, lift, py_len in H.
  destruct (n_iterations (config (learner w))) as [N|f]; [|discriminate].
  destruct (Z.ltb_spec N 0); [discriminate|].
  destruct (Z.leb_spec (2 ^ 63) N); [discriminate|].
  destruct (Z.ltb_spec N (iteration (learner w))); [discriminate|].
  unfold pre, mbind at 1, ret at 1, mbind at 1 in H.
  destruct (query w) as [[b|e] w1] eqn:Hq; [|discriminate].
  revert Hq. cbv [query mbind the draw raise].
  destruct (state (learner w)) as [s|]; [|discriminate].
  destruct (wrapper_call _ _ _ _ _) as [[b'|e'] g] eqn:Hw; intros [= <- <-].
  exists N, s, b', g. repeat split; auto; lia.
Qed.

(** A row is unlabeled when it is a row of the dataset that is not
    labeled. *)
Lemma elem_of_unlabeled_idx (p : Pool) (i : Z) :
  i ∈ unlabeled_idx p <-> 0 <= i < num_rows (dataset p) /\ i ∉ labeled_idx p.
Proof.
  unfold unlabeled_idx.
  rewrite list_elem_of_In, filter_In, <- list_elem_of_In, elem_of_seqZ.
  rewrite negb_true_iff, bool_decide_eq_false.
  split; intros [? ?]; split; auto; lia.
Qed.

(** What labeling a batch does when it is accepted. *)
Lemma label_inv (b : list Z) (p p' : Pool) :
  label b p = Ok p' ->
  (forall i, i ∈ b -> i ∈ unlabeled_idx p)
  /\ dataset p' = dataset p
  /\ labeled_idx p' = labeled_idx p ∪ list_to_set b.
Proof.
  unfold label. destruct (forallb _ b) eqn:Hall; intros [= <-].
  split; [|split; reflexivity].
  intros i Hi. rewrite forallb_forall in Hall.
  apply list_elem_of_In, Hall, bool_decide_eq_true in Hi. exact Hi.
Qed.

(** A state built from a trainer and no model reports the trainer's. *)
Lemma best_model_of_trainer (b : list Z) (d : option Split) (i : Z)
    (tr : Trainer) (o : option TrainOutput) :
  best_model (new_LearnerState b d i (Some tr) o None)
  = Some (trainer_model tr).
Proof.
  unfold new_LearnerState. cbn [best_model].
  destruct (load_best_model_at_end tr); reflexivity.
Qed.

(** X7: what a step of the learner that returns, the first run or an
    advance of the iterator, has done.  The counter has advanced by one;
    every row of the batch was an unlabeled row of the dataset and is now
    labeled, with the rows labeled before and no other; the batch, the
    trained model and the trainer output are the files of the iteration
    just run, and the model of the returned state is the one saved; the
    files of every other iteration and the test metrics are as they were;
    no checkpoints of the iteration are left; the configuration and the
    dataset are written at iteration 0 and never after; and the learner
    keeps its configuration and its querier. *)
Theorem learner_step_effects (w w' : LearnerWorld) (st : LearnerState) :
  (__call__ w = (Ok st, w')) \/ (__next__ w = (Ok st, w')) ->
  let i := iteration (learner w) in
  let d := disk w in
  let d' := disk w' in
  iteration (learner w') = i + 1
  /\ state (learner w') = Some st
  /\ state_iteration st = i + 1
  /\ config (learner w') = config (learner w)
  /\ querier (learner w') = querier (learner w)
  /\ dataset (pool (learner w')) = dataset (pool (learner w))
  /\ (forall r, r ∈ batch st -> r ∈ unlabeled_idx (pool (learner w)))
  /\ labeled_idx (pool (learner w'))
     = labeled_idx (pool (learner w)) ∪ list_to_set (batch st)
  /\ batch_path d' !! i = Some (batch st)
  /\ model_path d' !! i = best_model st
  /\ trainer_output_path d' !! i = train_output st
  /\ (forall j, j <> i ->
        batch_path d' !! j = batch_path d !! j
        /\ model_path d' !! j = model_path d !! j
        /\ trainer_output_path d' !! j = trainer_output_path d !! j
        /\ (j ∈ checkpoints_path d' <-> j ∈ checkpoints_path d))
  /\ (i ∉ checkpoints_path d')
  /\ test_metrics_path d' = test_metrics_path d
  /\ ts_dataset_path d' = ts_dataset_path d
  /\ (i = 0 ->
        config_path d' = Some (config (learner w))
        /\ tr_dataset_path d' = Some (dataset (pool (learner w)))
        /\ root_exists d' = true)
  /\ (i <> 0 ->
        config_path d' = config_path d
        /\ tr_dataset_path d' = tr_dataset_path d
        /\ root_exists d' = root_exists d).
Proof.
  intros H i d d'.
  assert (exists b g,
             finish b {| learner := learner w; disk := disk w; rng := g |}
             = (Ok st, w')) as (b & g & Hf).
  { destruct H as [H|H].
    - apply call_inv in H as (_ & b & g & _ & Hf). eauto.
    - apply next_inv in H as (_ & N & s & b & g & _ & _ & _ & _ & _ & Hf).
      eauto. }
  apply finish_effects in Hf. cbn [learner disk rng] in Hf.
  destruct Hf as (p' & ts & sp & tr & out & saved & g' & Hl & _ & _ & _ & Hst
                  & Hlw & _ & Hroot & Hcfg & Htr & Hts & Hb & Hm & Ho & Hck & Htm).
  apply label_inv in Hl as (Hin & Hds & Hlab).
  subst d d' i. rewrite Hlw, Hb, Hm, Ho, Hck, Htm, Hts, Hroot, Hcfg, Htr.
  cbn [iteration state config querier pool].
  assert (Hbatch : batch st = b) by (rewrite Hst; reflexivity).
  rewrite Hbatch.
  repeat split; auto.
  - rewrite Hst. reflexivity.
  - apply lookup_insert_eq.
  - rewrite Hst, lookup_insert_eq, best_model_of_trainer. reflexivity.
  - rewrite Hst, lookup_insert_eq. reflexivity.
  - apply lookup_insert_ne. congruence.
  - apply lookup_insert_ne. congruence.
  - apply lookup_insert_ne. congruence.
  - rewrite elem_of_difference. tauto.
  - intros Hj. rewrite elem_of_difference, elem_of_singleton. tauto.
  - rewrite elem_of_difference, elem_of_singleton. tauto.
  - destruct (Z.eqb_spec (iteration (learner w)) 0); [reflexivity|contradiction].
  - destruct (Z.eqb_spec (iteration (learner w)) 0); [congruence|contradiction].
  - destruct (Z.eqb_spec (iteration (learner w)) 0); [reflexivity|contradiction].
  - destruct (Z.eqb_spec (iteration (learner w)) 0); [contradiction|reflexivity].
  - destruct (Z.eqb_spec (iteration (learner w)) 0); [contradiction|reflexivity].
  - destruct (Z.eqb_spec (iteration (learner w)) 0); [contradiction|reflexivity].
Qed.

(** How the steps after the choice of the batch can fail: at the
    labeling of the batch, with nothing changed; at the size of the
    validation set, with the batch labeled and nothing else changed; and
    at the removal of checkpoints that the trainer did not leave, after
    the files of the iteration were written. *)
Lemma finish_failure (b : list Z) (w w' : LearnerWorld) (e : exn) :
  finish b w = (Raise e, w') ->
  let i := iteration (learner w) in
  (e = AssertionError /\ label b (pool (learner w)) = Raise e /\ w' = w)
  \/ exists p',
       label b (pool (learner w)) = Ok p'
       /\ learner w' = set_pool p' (learner w)
       /\ ((validation_set_size (config (learner w))
              (Some (Z.of_nat (size (labeled_idx p')))) = Raise e
            /\ disk w' = disk w /\ rng w' = rng w)
           \/ (e = FileNotFoundError
               /\ (exists ts,
                      validation_set_size (config (learner w))
                        (Some (Z.of_nat (size (labeled_idx p')))) = Ok ts)
               /\ (i ∉ checkpoints_path (disk w))
               /\ batch_path (disk w') = <[ i := b ]> (batch_path (disk w))
               /\ is_Some (model_path (disk w') !! i))).
Proof.
  intros H i. subst i. run_learner_in H. split_in H.
  all: injection H as <- <-.
  all: try match goal with
           | H : bool_decide (_ ∈ _ ∪ {[ _ ]}) = false |- _ =>
               exfalso; apply bool_decide_eq_false in H; apply H;
               apply elem_of_union_r, elem_of_singleton; reflexivity
           end.
  all: try match goal with
           | H : label _ _ = Raise _ |- _ =>
               left; rewrite (label_raises _ _ _ H) in *;
               repeat split; auto; destruct w as [l d g]; reflexivity
           end.
  all: right; eexists; split; [reflexivity|]; split; [reflexivity|].
  all: try match goal with
           | H : validation_set_size _ _ = Raise _ |- _ =>
               left; cbn; repeat split; auto
           end.
  all: right; cbn; repeat split;
    [eexists; eassumption
    |eapply bool_decide_eq_false_1; eassumption
    |rewrite lookup_insert_eq; eauto].
Qed.

(** A step that raises does so before the batch is chosen, with the
    learner and the run directory as they were, or in the steps after. *)
Lemma step_failure_cases (w w' : LearnerWorld) (e : exn) :
  (__call__ w = (Raise e, w')) \/ (__next__ w = (Raise e, w')) ->
  (learner w' = learner w /\ disk w' = disk w)
  \/ exists b g,
       finish b {| learner := learner w; disk := disk w; rng := g |}
       = (Raise e, w').
Proof.
  intros [H|H].
  - revert H. unfold __call__, mbind at 1, the at 1.
    destruct (negb (iteration (learner w) =? 0)).
    { intros [= <- <-]. left. split; reflexivity. }
    unfold pre, mbind at 1, ret at 1, mbind at 1.
    destruct (query_first w) as [[b|e0] w1] eqn:Hq; revert Hq;
      cbv [query_first mbind the draw];
      destruct (default_sampler _ _ _) as [[b'|e'] g]; intros [= <- <-].
    + intros H. right. eauto.
    + intros [= <- <-]. left. split; reflexivity.
  - revert H. unfold __next__, mbind at 1, the at 1.
    destruct (iteration (learner w) =? 0).
    { intros [= <- <-]. left. split; reflexivity. }
    unfold mbind at 1, learner_len, mbind at 1, the at 1, lift, py_len.
    destruct (n_iterations (config (learner w))) as [N|f];
      [|intros [= <- <-]; left; split; reflexivity].
    destruct (N <? 0); [intros [= <- <-]; left; split; reflexivity|].
    destruct (2 ^ 63 <=? N); [intros [= <- <-]; left; split; reflexivity|].
    destruct (N <? iteration (learner w));
      [intros [= <- <-]; left; split; reflexivity|].
    unfold pre, mbind at 1, ret at 1, mbind at 1.
    destruct (query w) as [[b|e0] w1] eqn:Hq; revert Hq;
      cbv [query mbind the draw raise];
      destruct (state (learner w)) as [s|]; try discriminate;
      try (intros [= <- <-] [= <- <-]; left; split; reflexivity);
      destruct (wrapper_call _ _ _ _ _) as [[b'|e'] g]; intros [= <- <-].
    + intros H. right. eauto.
    + intros [= <- <-]. left. split; reflexivity.
Qed.


(** X9: a learner built on a configuration that was never configured
    ([Config()] without a number of rows, which [Learner] accepts) cannot
    complete a step: the first run and every advance raise, and neither
    writes anything to the run directory. *)
Theorem unconfigured_learner_never_steps (w : LearnerWorld) :
  _configured (config (learner w)) = false ->
  (exists e, fst (__call__ w) = Raise e)
  /\ (exists e, fst (__next__ w) = Raise e)
  /\ disk (snd (__call__ w)) = disk w
  /\ disk (snd (__next__ w)) = disk w.
Proof.
  intros Hc.
  assert (Hfin : forall b w0 st w',
             config (learner w0) = config (learner w) ->
             finish b w0 <> (Ok st, w')).
  { intros b w0 st w' Hcfg Hf. apply finish_effects in Hf.
    destruct Hf as (p' & ts & sp & tr & out & saved & g' & _ & Hv & _).
    revert Hv. rewrite Hcfg. unfold validation_set_size. rewrite Hc.
    discriminate. }
  assert (Hdisk : forall b w0 e w',
             config (learner w0) = config (learner w) ->
             finish b w0 = (Raise e, w') -> disk w' = disk w0).
  { intros b w0 e w' Hcfg Hf. apply finish_failure in Hf.
    destruct Hf
      as [(_ & _ & ->)|(p' & _ & _ & [(_ & Hd & _)|(_ & [ts Hv] & _)])];
      auto.
    exfalso. revert Hv. rewrite Hcfg. unfold validation_set_size.
    rewrite Hc. discriminate. }
  assert (Hstep : forall c : M LearnerWorld LearnerState,
             c = __call__ \/ c = __next__ ->
             (exists e, fst (c w) = Raise e) /\ disk (snd (c w)) = disk w).
  { intros c Hcn. destruct (c w) as [[st|e] w'] eqn:Hcw.
    - exfalso.
      assert (exists b g,
                 finish b {| learner := learner w; disk := disk w; rng := g |}
                 = (Ok st, w')) as (b & g & Hf).
      { destruct Hcn as [-> | ->].
        - apply call_inv in Hcw as (_ & b & g & _ & Hf). eauto.
        - apply next_inv in Hcw
            as (_ & N & s & b & g & _ & _ & _ & _ & _ & Hf). eauto. }
      eapply Hfin; [|exact Hf]; reflexivity.
    - split; [eauto|]. cbn [snd].
      assert (Hor : (__call__ w = (Raise e, w')) \/ (__next__ w = (Raise e, w')))
        by (destruct Hcn as [-> | ->]; auto).
      destruct (step_failure_cases _ _ _ Hor) as [[_ Hd]|(b & g & Hf)];
        [exact Hd|].
      eapply eq_trans; [eapply Hdisk; [|exact Hf]; reflexivity|].
      reflexivity. }
  destruct (Hstep __call__ (or_introl eq_refl)) as [H1 H2].
  destruct (Hstep __next__ (or_intror eq_refl)) as [H3 H4].
  auto.
Qed.

(** ** From the learner to the evaluator *)

(** A replay that succeeds is a run directory that can be replayed. *)
Lemma replay_replayable (k : nat) :
  forall (i : Z) (p : Pool) (d : Disk),
    is_Some (replay k i p d) -> replayable k i p d = true.
Proof.
  induction k as [|k IH]; intros i p d; cbn [replay replayable];
    [reflexivity|].
  destruct (batch_path d !! i) as [b|]; [|intros [? [=]]].
  destruct (model_path d !! i) as [m|]; [|intros [? [=]]].
  destruct (label b p) as [p'|e]; [apply IH|intros [? [=]]].
Qed.

(** A replay keeps the dataset of the pool. *)
Lemma replay_dataset (k : nat) :
  forall (i : Z) (p p' : Pool) (d : Disk),
    replay k i p d = Some p' -> dataset p' = dataset p.
Proof.
  induction k as [|k IH]; intros i p p' d; cbn [replay];
    [intros [= <-]; reflexivity|].
  destruct (batch_path d !! i) as [b|]; [|discriminate].
  destruct (model_path d !! i) as [m|]; [|discriminate].
  destruct (label b p) as [p1|e] eqn:Hl; [|discriminate].
  intros H%IH. rewrite H. apply label_inv in Hl. tauto.
Qed.

(** A replay reads the batch files and the model directories of its own
    iterations only. *)
Lemma replay_ext (k : nat) :
  forall (i : Z) (p : Pool) (d d' : Disk),
    (forall j, i <= j < i + Z.of_nat k ->
       batch_path d' !! j = batch_path d !! j
       /\ (is_Some (model_path d' !! j) <-> is_Some (model_path d !! j))) ->
    replay k i p d' = replay k i p d.
Proof.
  induction k as [|k IH]; intros i p d d' H; cbn [replay]; [reflexivity|].
  destruct (H i ltac:(lia)) as [-> Hm].
  destruct (batch_path d !! i) as [b|]; [|reflexivity].
  assert (Hrest : forall p1, replay k (i + 1) p1 d' = replay k (i + 1) p1 d).
  { intros p1. apply IH. intros j Hj. apply H. lia. }
  destruct (model_path d' !! i) as [m'|], (model_path d !! i) as [m|].
  - destruct (label b p); [apply Hrest|reflexivity].
  - exfalso. destruct (proj1 Hm ltac:(eauto)) as [? [=]].
  - exfalso. destruct (proj2 Hm ltac:(eauto)) as [? [=]].
  - reflexivity.
Qed.

(** A replay goes on for one more iteration when the next batch file and
    model directory are there and the batch can be labeled. *)
Lemma replay_snoc (k : nat) :
  forall (i : Z) (p pk p' : Pool) (d : Disk) (b : list Z),
    replay k i p d = Some pk ->
    batch_path d !! (i + Z.of_nat k) = Some b ->
    is_Some (model_path d !! (i + Z.of_nat k)) ->
    label b pk = Ok p' ->
    replay (S k) i p d = Some p'.
Proof.
  induction k as [|k IH]; intros i p pk p' d b.
  - cbn [replay]. intros [= <-]. rewrite Z.add_0_r.
    intros -> [m ->] ->. reflexivity.
  - intros Hk Hb Hm Hl. cbn [replay] in Hk.
    change (replay (S (S k)) i p d)
      with (match batch_path d !! i, model_path d !! i with
            | Some b0, Some _ =>
                match label b0 p with
                | Ok p1 => replay (S k) (i + 1) p1 d
                | Raise _ => None
                end
            | _, _ => None
            end).
    destruct (batch_path d !! i) as [b0|]; [|discriminate].
    destruct (model_path d !! i) as [m0|]; [|discriminate].
    destruct (label b0 p) as [p1|e]; [|discriminate].
    apply (IH (i + 1) p1 pk p' d b Hk); auto.
    + rewrite <- Hb. f_equal. lia.
    + replace (i + 1 + Z.of_nat k) with (i + Z.of_nat (S k)) by lia. exact Hm.
Qed.

(** A batch a pool accepts is accepted by a pool over the same dataset
    with fewer labeled rows. *)
Lemma label_fewer (b : list Z) (p p' q : Pool) :
  label b p = Ok p' ->
  dataset q = dataset p -> labeled_idx q ⊆ labeled_idx p ->
  exists q', label b q = Ok q'
             /\ dataset q' = dataset p'
             /\ labeled_idx q' ⊆ labeled_idx p'.
Proof.
  intros Hl Hds Hsub.
  destruct (label_inv _ _ _ Hl) as (Hin & Hds' & Hlab).
  unfold label.
  assert (Hall : forallb (fun i => bool_decide (i ∈ unlabeled_idx q)) b = true).
  { apply forallb_forall. intros i Hi%list_elem_of_In.
    apply bool_decide_eq_true. apply elem_of_unlabeled_idx.
    apply Hin, elem_of_unlabeled_idx in Hi as [Hr Hn].
    rewrite Hds. split; [exact Hr|]. intros Hq. apply Hn, Hsub, Hq. }
  rewrite Hall. eexists. split; [reflexivity|]. cbn.
  split; [congruence|]. rewrite Hlab. apply union_mono_r, Hsub.
Qed.

(** A step of the learner that returns at iteration [j], over a run
    directory that replays for the [j] iterations before into a pool with
    no more labeled rows than the learner's, leaves a run directory that
    replays for one iteration more, into such a pool again. *)
Lemma step_extends_replay (j : nat) (w w' : LearnerWorld) (st : LearnerState)
    (p0 pe : Pool) :
  (__call__ w = (Ok st, w')) \/ (__next__ w = (Ok st, w')) ->
  iteration (learner w) = Z.of_nat j ->
  replay j 0 p0 (disk w) = Some pe ->
  dataset pe = dataset (pool (learner w)) ->
  labeled_idx pe ⊆ labeled_idx (pool (learner w)) ->
  exists pe',
    replay (S j) 0 p0 (disk w') = Some pe'
    /\ dataset pe' = dataset (pool (learner w'))
    /\ labeled_idx pe' ⊆ labeled_idx (pool (learner w')).
Proof.
  intros H Hi Hr Hds Hsub.
  assert (exists b g,
             finish b {| learner := learner w; disk := disk w; rng := g |}
             = (Ok st, w')) as (b & g & Hf).
  { destruct H as [H|H].
    - apply call_inv in H as (_ & b & g & _ & Hf). eauto.
    - apply next_inv in H as (_ & N & s & b & g & _ & _ & _ & _ & _ & Hf).
      eauto. }
  apply finish_effects in Hf. cbn [learner disk rng] in Hf.
  destruct Hf as (p' & ts & sp & tr & out & saved & g' & Hl & _ & _ & _ & _
                  & Hlw & _ & _ & _ & _ & _ & Hb & Hm & _).
  destruct (label_fewer _ _ _ pe Hl Hds Hsub) as (pe' & Hle & Hds' & Hsub').
  exists pe'. rewrite Hlw. cbn [pool]. split; [|split; assumption].
  apply (replay_snoc j 0 p0 pe pe' (disk w') b).
  - rewrite <- Hr. apply replay_ext. intros k Hk.
    rewrite Hb, Hm, !lookup_insert_ne by lia. tauto.
  - rewrite Hb, Hi, Z.add_0_l. apply lookup_insert_eq.
  - rewrite Hm, Hi, Z.add_0_l, lookup_insert_eq. eauto.
  - exact Hle.
Qed.

(** What the first run leaves for an evaluator to read. *)
Lemma call_writes (w w' : LearnerWorld) (st : LearnerState) :
  __call__ w = (Ok st, w') ->
  iteration (learner w) = 0
  /\ iteration (learner w') = 1
  /\ config (learner w') = config (learner w)
  /\ root_exists (disk w') = true
  /\ config_path (disk w') = Some (config (learner w))
  /\ tr_dataset_path (disk w') = Some (dataset (pool (learner w)))
  /\ test_metrics_path (disk w') = test_metrics_path (disk w).
Proof.
  intros (Hi & b & g & _ & Hf)%call_inv.
  apply finish_effects in Hf. cbn [learner disk rng] in Hf.
  destruct Hf as (p' & ts & sp & tr & out & saved & g' & Hl & _ & _ & _ & _
                  & Hlw & _ & Hroot & Hcfg & Htr & _ & _ & _ & _ & _ & Htm).
  apply label_inv in Hl as (_ & Hds & _).
  rewrite Hi in *. rewrite Hlw, Hroot, Hcfg, Htr, Htm, Hds. cbn.
  repeat split.
Qed.

(** What an advance keeps of it. *)
Lemma next_keeps (w w' : LearnerWorld) (st : LearnerState) :
  __next__ w = (Ok st, w') ->
  iteration (learner w') = iteration (learner w) + 1
  /\ config (learner w') = config (learner w)
  /\ root_exists (disk w') = root_exists (disk w)
  /\ config_path (disk w') = config_path (disk w)
  /\ tr_dataset_path (disk w') = tr_dataset_path (disk w)
  /\ test_metrics_path (disk w') = test_metrics_path (disk w).
Proof.
  intros (Hi & N & s & b & g & _ & _ & _ & _ & _ & Hf)%next_inv.
  apply finish_effects in Hf. cbn [learner disk rng] in Hf.
  destruct Hf as (p' & ts & sp & tr & out & saved & g' & _ & _ & _ & _ & _
                  & Hlw & _ & Hroot & Hcfg & Htr & _ & _ & _ & _ & _ & Htm).
  apply Z.eqb_neq in Hi. rewrite Hi in *.
  rewrite Hlw, Hroot, Hcfg, Htr, Htm. cbn. repeat split.
Qed.

(** Advances that all return extend the replay by as many iterations,
    and keep what the first run wrote. *)
Lemma advances_extend_replay (k : nat) :
  forall (j : nat) (w w' : LearnerWorld) (sts : list LearnerState)
         (p0 pe : Pool),
    advances k w = (Ok sts, w') ->
    iteration (learner w) = Z.of_nat j ->
    replay j 0 p0 (disk w) = Some pe ->
    dataset pe = dataset (pool (learner w)) ->
    labeled_idx pe ⊆ labeled_idx (pool (learner w)) ->
    iteration (learner w') = Z.of_nat (j + k)
    /\ length sts = k
    /\ config (learner w') = config (learner w)
    /\ root_exists (disk w') = root_exists (disk w)
    /\ config_path (disk w') = config_path (disk w)
    /\ tr_dataset_path (disk w') = tr_dataset_path (disk w)
    /\ test_metrics_path (disk w') = test_metrics_path (disk w)
    /\ is_Some (replay (j + k) 0 p0 (disk w')).
Proof.
  induction k as [|k IH]; intros j w w' sts p0 pe; cbn [advances].
  - intros [= <- <-] Hi Hr _ _. rewrite Nat.add_0_r.
    repeat split; eauto.
  - unfold mbind at 1.
    destruct (__next__ w) as [[st|e] w1] eqn:Hn; [|discriminate].
    unfold mbind at 1.
    destruct (advances k w1) as [[sts1|e] w2] eqn:Ha; [|discriminate].
    intros [= <- <-] Hi Hr Hds Hsub.
    destruct (step_extends_replay j w w1 st p0 pe (or_intror Hn) Hi Hr Hds Hsub)
      as (pe1 & Hr1 & Hds1 & Hsub1).
    destruct (next_keeps _ _ _ Hn) as (Hi1 & Hc1 & Hroot1 & Hcfg1 & Htr1 & Htm1).
    assert (Hi1' : iteration (learner w1) = Z.of_nat (S j)) by lia.
    destruct (IH (S j) w1 w2 sts1 p0 pe1 Ha Hi1' Hr1 Hds1 Hsub1)
      as (Hi2 & Hlen & Hc2 & Hroot2 & Hcfg2 & Htr2 & Htm2 & Hr2).
    replace (j + S k)%nat with (S j + k)%nat by lia.
    cbn [length]. repeat (split; [congruence|]). exact Hr2.
Qed.

(** X10: a run of the learner can be evaluated.  After a first run and
    as many advances as the configuration has iterations, all of which
    returned, the iterator is exhausted; an [Evaluator] can be built on
    the run directory, with the configuration of the learner and a pool
    over its dataset with no row labeled, whatever rows the learner's
    pool had labeled before the run; and a loop over that evaluator
    evaluates one model per iteration of the learner, stops, and has
    written the test metrics of these iterations and no other. *)
Theorem learner_run_can_be_evaluated (N : Z) (w0 w1 w2 : LearnerWorld)
    (st0 : LearnerState) (sts : list LearnerState) (ts : Dataset) :
  n_iterations (config (learner w0)) = PyInt N ->
  0 <= N < 2 ^ 63 ->
  __call__ w0 = (Ok st0, w1) ->
  advances (Z.to_nat N) w1 = (Ok sts, w2) ->
  __next__ w2 = (Raise StopIteration, w2)
  /\ exists ev,
       new_Evaluator ts 0 (disk w2) = Ok ev
       /\ ev_config ev = config (learner w0)
       /\ ev_pool ev = new_Pool (dataset (pool (learner w0)))
       /\ forall fuel,
            (S (Z.to_nat N) < fuel)%nat ->
            exists w',
              exhaust fuel {| evaluator := ev; ev_disk := disk w2 |}
              = Some (S (Z.to_nat N), StopIteration, w')
              /\ forall j,
                   is_Some (test_metrics_path (ev_disk w') !! j)
                   <-> is_Some (test_metrics_path (disk w0) !! j)
                       \/ 0 <= j <= N.
Proof.
  intros HN Hrange Hcall Hadv.
  destruct (call_writes _ _ _ Hcall)
    as (Hi0 & Hi1 & Hc1 & Hroot1 & Hcfg1 & Htr1 & Htm1).
  set (p0 := new_Pool (dataset (pool (learner w0)))).
  destruct (step_extends_replay 0 w0 w1 st0 p0 p0 (or_introl Hcall) Hi0 eq_refl
              eq_refl (empty_subseteq _))
    as (pe1 & Hr1 & Hds1 & Hsub1).
  destruct (advances_extend_replay (Z.to_nat N) 1 w1 w2 sts p0 pe1 Hadv Hi1 Hr1
              Hds1 Hsub1)
    as (Hi2 & _ & Hc2 & Hroot2 & Hcfg2 & Htr2 & Htm2 & Hr2).
  assert (Hi2' : iteration (learner w2) = N + 1) by lia.
  split.
  - unfold __next__, mbind at 1, the at 1. rewrite Hi2'.
    destruct (Z.eqb_spec (N + 1) 0); [lia|].
    unfold mbind at 1, learner_len, mbind at 1, the at 1, lift, py_len.
    rewrite Hc2, Hc1, HN.
    destruct (Z.ltb_spec N 0); [lia|].
    destruct (Z.leb_spec (2 ^ 63) N); [lia|].
    destruct (Z.ltb_spec N (N + 1)); [reflexivity|lia].
  - unfold new_Evaluator, exists_.
    rewrite Hroot2, Hroot1, Hcfg2, Hcfg1, Htr2, Htr1. cbn.
    eexists. split; [reflexivity|]. cbn [ev_config ev_pool].
    split; [reflexivity|]. split; [reflexivity|].
    intros fuel Hfuel.
    match goal with
    | |- context [exhaust fuel ?w] => set (we := w)
    end.
    destruct (exhaust_replay N (S (Z.to_nat N)) we fuel) as (w' & Hex & _ & Hm);
      subst we; cbn [evaluator ev_disk ev_iteration ev_config ev_pool]; auto.
    + lia.
    + apply replay_replayable.
      replace (S (Z.to_nat N)) with (1 + Z.to_nat N)%nat by lia. exact Hr2.
    + exists w'. split; [exact Hex|].
      intros j. rewrite Hm. cbn [evaluator ev_disk ev_iteration].
      rewrite Htm2, Htm1. reflexivity.
Qed.

End LearnerSteps.

Lemma learner_step_effects_witness :
  exists st w',
    @__call__ toy_engine toy_learner_world = (Ok st, w')
    /\ iteration (learner w') = 1
    /\ batch_path (disk w') !! 0 = Some (batch st)
    /\ model_path (disk w') !! 0 = best_model st.
Proof.
  destruct (@__call__ toy_engine toy_learner_world) as [[st|e] w'] eqn:H;
    [|vm_compute in H; discriminate].
  exists st, w'. split; [reflexivity|].
  destruct (@learner_step_effects toy_engine toy_learner_world w' st
              (or_introl H))
    as (Hi & _ & _ & _ & _ & _ & _ & _ & Hb & Hm & _).
  split; [exact Hi|]. split; [exact Hb|exact Hm].
Defined.


Lemma unconfigured_learner_never_steps_witness :
  exists e,
    fst (@__call__ toy_engine
           (@Build_LearnerWorld toy_engine
              (@Build_Learner toy_engine (@new_Pool toy_engine 4)
                 default_fields 0
                 (@RandomQuerierWrapper toy_engine toy_sampler) None)
              toy_empty_disk 0))
    = Raise e.
Proof.
  exact (proj1 (@unconfigured_learner_never_steps toy_engine
                  (@Build_LearnerWorld toy_engine
                     (@Build_Learner toy_engine (@new_Pool toy_engine 4)
                        default_fields 0
                        (@RandomQuerierWrapper toy_engine toy_sampler) None)
                     toy_empty_disk 0)
                  eq_refl)).
Defined.

Lemma learner_run_can_be_evaluated_witness :
  exists st0 w1 sts w2 ev w',
    @__call__ toy_engine toy_learner_world = (Ok st0, w1)
    /\ @advances toy_engine 1 w1 = (Ok sts, w2)
    /\ @new_Evaluator toy_engine 5 0 (disk w2) = Ok ev
    /\ @exhaust toy_engine 3 {| evaluator := ev; ev_disk := disk w2 |}
       = Some (2%nat, StopIteration, w').
Proof.
  destruct (@__call__ toy_engine toy_learner_world) as [[st0|e] w1] eqn:H1;
    [|vm_compute in H1; discriminate].
  destruct (@advances toy_engine 1 w1) as [[sts|e] w2] eqn:H2.
  2:{ exfalso. vm_compute in H1. injection H1 as <- <-.
      vm_compute in H2. discriminate. }
  destruct (@learner_run_can_be_evaluated toy_engine 1 toy_learner_world w1 w2
              st0 sts 5 eq_refl (conj (Z.le_0_1) eq_refl) H1 H2)
    as (_ & ev & Hev & _ & _ & Hloop).
  destruct (Hloop 3%nat (Nat.lt_succ_diag_r 2)) as (w' & Hex & _).
  exists st0, w1, sts, w2, ev, w'. repeat split; assumption.
Defined.

(** ** The guards of the learner *)

Section LearnerGuards.

Context {E : Engine}.

(** X11: the order of the calls the learner insists on.  An advance
    before the first run raises [RuntimeError]; so does a first run on a
    learner that is past iteration 0, in particular a second first run
    after any step that returned; a learner past iteration 0 that holds no
    state, as the constructor with [_iteration] set leaves it, raises
    [AttributeError] when it advances within the configured iterations;
    and past them it raises [StopIteration], again and again.  None of
    these touches the learner, the run directory or the random state. *)
Theorem learner_guards (w : LearnerWorld) :
  (iteration (learner w) = 0 -> __next__ w = (Raise RuntimeError, w))
  /\ (iteration (learner w) <> 0 -> __call__ w = (Raise RuntimeError, w))
  /\ (forall st w',
        (__call__ w = (Ok st, w')) \/ (__next__ w = (Ok st, w')) ->
        0 <= iteration (learner w) ->
        __call__ w' = (Raise RuntimeError, w'))
  /\ (forall N,
        n_iterations (config (learner w)) = PyInt N -> 0 <= N < 2 ^ 63 ->
        iteration (learner w) <> 0 ->
        (iteration (learner w) <= N -> state (learner w) = None ->
         __next__ w = (Raise AttributeError, w))
        /\ (N < iteration (learner w) ->
            __next__ w = (Raise StopIteration, w))).
Proof.
  assert (Hcall : forall w0 : LearnerWorld,
             iteration (learner w0) <> 0 ->
             __call__ w0 = (Raise RuntimeError, w0)).
  { intros w0 Hi. unfold __call__, mbind at 1, the at 1.
    destruct (Z.eqb_spec (iteration (learner w0)) 0); [contradiction|].
    reflexivity. }
  split; [|split; [|split]].
  - intros Hi. unfold __next__, mbind at 1, the at 1. rewrite Hi. reflexivity.
  - apply Hcall.
  - intros st w' H Hi. apply Hcall.
    assert (iteration (learner w') = iteration (learner w) + 1) as ->; [|lia].
    destruct H as [H|H].
    + apply call_writes in H as (H0 & H1 & _). lia.
    + apply next_keeps in H as (H1 & _). exact H1.
  - intros N HN [H0 H63] Hi.
    split; [intros Hle Hst|intros Hlt];
      unfold __next__, mbind at 1, the at 1;
      (destruct (Z.eqb_spec (iteration (learner w)) 0); [contradiction|]);
      unfold mbind at 1, learner_len, mbind at 1, the at 1, lift, py_len;
      rewrite HN;
      (destruct (Z.ltb_spec N 0); [lia|]);
      (destruct (Z.leb_spec (2 ^ 63) N); [lia|]).
    + destruct (Z.ltb_spec N (iteration (learner w))); [lia|].
      cbv [pre mbind ret query the raise]. rewrite Hst. reflexivity.
    + destruct (Z.ltb_spec N (iteration (learner w))); [reflexivity|lia].
Qed.

End LearnerGuards.

Lemma learner_guards_witness :
  exists st w',
    @__call__ toy_engine toy_learner_world = (Ok st, w')
    /\ @__call__ toy_engine w' = (Raise RuntimeError, w').
Proof.
  destruct (@__call__ toy_engine toy_learner_world) as [[st|e] w'] eqn:H;
    [|vm_compute in H; discriminate].
  exists st, w'. split; [reflexivity|].
  destruct (@learner_guards toy_engine toy_learner_world) as (_ & _ & Hg & _).
  apply (Hg st w' (or_introl H)). vm_compute. discriminate.
Defined.

(** ** One iteration of the evaluator *)

Section EvaluatorSteps.

Context {E : Engine}.

Ltac run_ev_next_in H :=
  cbv [ev_next mbind its evaluator_len lift raise on_file on_evaluator eval
       ev_save_to_disk on_ev_disk modify ret] in H.

(** X12: what an advance of the evaluator that returns has done.  The
    iteration was within the configured ones, had its batch file and its
    model directory; the batch is now labeled in the pool of the
    evaluator; the metrics returned are those of that model on the test
    set, and they are the test-metrics file of the iteration; the counter
    has advanced by one; and on the run directory nothing else has
    changed but the test dataset, written at iteration 0. *)
Theorem evaluator_step_effects (w w' : EvaluatorWorld) (m : Model)
    (results : Metrics) :
  ev_next w = (Ok (m, results), w') ->
  let i := ev_iteration (evaluator w) in
  let d := ev_disk w in
  let d' := ev_disk w' in
  (exists N, n_iterations (ev_config (evaluator w)) = PyInt N
             /\ 0 <= N < 2 ^ 63 /\ i <= N)
  /\ (exists b saved,
        batch_path d !! i = Some b
        /\ model_path d !! i = Some saved
        /\ label b (ev_pool (evaluator w)) = Ok (ev_pool (evaluator w'))
        /\ results = snd (evaluate_model saved (ts_dataset (evaluator w)))
        /\ m = trainer_model
                 (fst (evaluate_model saved (ts_dataset (evaluator w)))))
  /\ ev_iteration (evaluator w') = i + 1
  /\ ev_config (evaluator w') = ev_config (evaluator w)
  /\ ts_dataset (evaluator w') = ts_dataset (evaluator w)
  /\ test_metrics_path d' = <[ i := results ]> (test_metrics_path d)
  /\ ts_dataset_path d'
     = (if i =? 0 then Some (ts_dataset (evaluator w)) else ts_dataset_path d)
  /\ root_exists d' = root_exists d
  /\ config_path d' = config_path d
  /\ tr_dataset_path d' = tr_dataset_path d
  /\ batch_path d' = batch_path d
  /\ model_path d' = model_path d
  /\ trainer_output_path d' = trainer_output_path d
  /\ checkpoints_path d' = checkpoints_path d.
Proof.
  cbv zeta. intros H. run_ev_next_in H.
  destruct (n_iterations (ev_config (evaluator w))) as [N|f] eqn:HN;
    [|discriminate].
  cbv [py_len] in H.
  destruct (Z.ltb_spec N 0); [discriminate|].
  destruct (Z.leb_spec (2 ^ 63) N); [discriminate|].
  destruct (Z.ltb_spec N (ev_iteration (evaluator w))); [discriminate|].
  destruct (batch_path (ev_disk w) !! ev_iteration (evaluator w)) as [b|] eqn:Hb;
    [|discriminate].
  destruct (label b (ev_pool (evaluator w))) as [p'|e] eqn:Hl; [|discriminate].
  cbn [ev_disk evaluator ev_iteration ts_dataset] in H.
  destruct (model_path (ev_disk w) !! ev_iteration (evaluator w)) as [saved|]
    eqn:Hm; [|discriminate].
  cbn [ev_disk evaluator ev_iteration ts_dataset] in H.
  destruct (evaluate_model saved (ts_dataset (evaluator w))) as [tr res] eqn:He.
  cbn [ev_disk evaluator ev_iteration ts_dataset] in H.
  destruct (Z.eqb_spec (ev_iteration (evaluator w)) 0);
    injection H as <- <- <-; cbn;
    (split; [exists N; repeat split; auto; lia|]);
    (split; [exists b, saved; rewrite He; repeat split; auto|]);
    repeat split; auto.
Qed.



End EvaluatorSteps.

Lemma evaluator_step_effects_witness :
  exists m results w',
    @ev_next toy_engine toy_evaluator_world = (Ok (m, results), w')
    /\ ev_iteration (evaluator w') = 1
    /\ test_metrics_path (ev_disk w') !! 0 = Some results.
Proof.
  destruct (@ev_next toy_engine toy_evaluator_world) as [[[m results]|e] w']
    eqn:H; [|vm_compute in H; discriminate].
  exists m, results, w'. split; [reflexivity|].
  destruct (@evaluator_step_effects toy_engine toy_evaluator_world w' m results H)
    as (_ & _ & Hi & _ & _ & Hm & _).
  split; [exact Hi|]. rewrite Hm. apply lookup_insert_eq.
Defined.


(** ** The wrapper of the ranking queriers *)

Section WrapperFacts.

Context {E : Engine}.




End WrapperFacts.

(** ** The stoppers over a sequence of calls *)

Section StopperRuns.

Import Stoppers.

Variable ndarray : Type.
Variable array_equal : ndarray -> ndarray -> bool.
Variable cohen_kappa_score : ndarray -> ndarray -> float.
Variable mean : list float -> float.

(** The comparison loop over a deque long enough never runs off its end,
    and answers whether every pair of neighbours it visits is equal. *)
Lemma all_unchanged_spec (d : list ndarray) (n : nat) :
  forall i : nat,
    (i + n < length d)%nat ->
    exists b,
      all_unchanged array_equal d i n = Ok b
      /\ (b = true <->
          forall j a a',
            (i <= j < i + n)%nat ->
            d !! j = Some a -> d !! S j = Some a' -> array_equal a a' = true).
Proof.
  induction n as [|n IH]; intros i Hi; cbn [all_unchanged].
  - exists true. split; [reflexivity|]. split; [|reflexivity].
    intros _ j a a' Hj. lia.
  - destruct (lookup_lt_is_Some_2 d i ltac:(lia)) as [a Ha].
    destruct (lookup_lt_is_Some_2 d (S i) ltac:(lia)) as [a' Ha'].
    rewrite Ha, Ha'.
    destruct (array_equal a a') eqn:Heq.
    + destruct (IH (S i) ltac:(lia)) as (b & Hb & Hiff).
      exists b. split; [exact Hb|]. rewrite Hiff. split.
      * intros H j x x' Hj Hx Hx'.
        destruct (Nat.eq_dec j i) as [->|Hne].
        -- congruence.
        -- apply (H j x x'); auto. lia.
      * intros H j x x' Hj. apply H. lia.
    + exists false. split; [reflexivity|]. split; [discriminate|].
      intros H. rewrite <- Heq. apply (H i a a'); auto. lia.
Qed.

(** X15: a call of a [ClassificationChangeStopper] whose window holds no
    more arrays than its capacity, as every window grown by calls does.
    The call never raises; it appends the array, dropping the oldest one
    from a full window, so that the window stays within its capacity; and
    it answers true exactly when the window is full after the append and
    every array in it equals its neighbour.  With a capacity of 0 or 1
    there are no neighbours, and every call answers true once the window
    is full, which at capacity 0 it always is. *)
Theorem classification_change_call (w : nat) (d : list ndarray)
    (preds : ndarray) :
  (length d <= w)%nat ->
  let d' := deque_append w d preds in
  exists b,
    cl_call array_equal preds {| cl_windows := w; unlabeled_preds := d |}
    = (Ok b, {| cl_windows := w; unlabeled_preds := d' |})
    /\ length d' = Nat.min (S (length d)) w
    /\ (b = true <->
        length d' = w
        /\ forall j a a',
             d' !! j = Some a -> d' !! S j = Some a' ->
             array_equal a a' = true)
    /\ ((w <= 1)%nat -> length d' = w -> b = true).
Proof.
  intros Hd d'.
  pose proof (length_deque_append w d preds Hd) as Hlen. fold d' in Hlen.
  unfold cl_call. cbn [cl_windows unlabeled_preds]. fold d'.
  destruct (Nat.ltb_spec (length d') w) as [Hlt|Hge].
  - exists false. split; [reflexivity|]. split; [exact Hlen|].
    split; [|intros _ Hw; lia].
    split; [discriminate|]. intros [Hw _]. lia.
  - assert (Hfull : length d' = w) by lia.
    destruct (Nat.eq_dec w 0%nat) as [Hw0|Hw0].
    + exists true. rewrite Hw0. cbn [Nat.sub all_unchanged].
      split; [reflexivity|]. split; [lia|]. split; [|reflexivity].
      split; [|reflexivity]. intros _. split; [lia|].
      intros j a a' Ha. apply lookup_lt_Some in Ha. lia.
    + destruct (all_unchanged_spec d' (w - 1)%nat 0%nat ltac:(lia)) as (b & Hb & Hiff).
      exists b. rewrite Hb. split; [reflexivity|]. split; [exact Hlen|].
      split.
      * rewrite Hiff. split.
        -- intros H. split; [exact Hfull|].
           intros j a a' Ha Ha'. apply (H j a a'); auto.
           apply lookup_lt_Some in Ha'. lia.
        -- intros [_ H] j a a' _. apply H.
      * intros Hw1 _. apply Hiff. intros j a a' Hj. lia.
Qed.

(** While the window of a fresh [StabilizingPredictionsStopper] is not
    full, it holds the scores of all the calls so far, the first of which
    is not-a-number. *)
Lemma sp_feed_head (w : nat) (t : float) (calls : list ndarray) :
  (length calls <= w)%nat ->
  let st := sp_feed array_equal cohen_kappa_score mean calls
              {| sp_windows := w; threshold := t;
                 agreement_scores := []; prv_stop_set_preds := None |} in
  match calls with
  | [] => agreement_scores st = [] /\ prv_stop_set_preds st = None
  | _ => exists rest, agreement_scores st = nan :: rest
  end.
Proof.
  induction calls as [|p calls IH] using rev_ind; intros Hlen.
  - cbn. split; reflexivity.
  - rewrite length_app in Hlen. cbn [length] in Hlen.
    cbv zeta in *. unfold sp_feed in *. rewrite fold_left_app. cbn [fold_left].
    rewrite snd_sp_call. cbn [agreement_scores].
    pose proof (sp_feed_inv ndarray array_equal cohen_kappa_score mean w t calls)
      as (Hw & _ & _ & Hl).
    unfold sp_feed in Hw, Hl. rewrite Hw.
    assert (Happ : forall x,
               deque_append w
                 (agreement_scores
                    (fold_left
                       (fun s p0 =>
                          snd (sp_call array_equal cohen_kappa_score mean p0 s))
                       calls
                       {| sp_windows := w; threshold := t;
                          agreement_scores := [];
                          prv_stop_set_preds := None |})) x
               = agreement_scores
                   (fold_left
                      (fun s p0 =>
                         snd (sp_call array_equal cohen_kappa_score mean p0 s))
                      calls
                      {| sp_windows := w; threshold := t;
                         agreement_scores := [];
                         prv_stop_set_preds := None |}) ++ [x]).
    { intros x. unfold deque_append.
      destruct (Nat.eqb_spec w 0%nat); [lia|].
      destruct (Nat.ltb_spec
                  (length (agreement_scores
                     (fold_left
                        (fun s p0 =>
                           snd (sp_call array_equal cohen_kappa_score mean p0 s))
                        calls
                        {| sp_windows := w; threshold := t;
                           agreement_scores := [];
                           prv_stop_set_preds := None |}))) w);
        [reflexivity|lia]. }
    rewrite Happ.
    specialize (IH ltac:(lia)).
    destruct calls as [|c calls]; [|destruct (c :: calls ++ [p]) eqn:Hc].
    + destruct IH as [Hs Hp]. cbn in Hs, Hp |- *. exists []. reflexivity.
    + discriminate.
    + destruct IH as [rest Hrest]. rewrite Hrest. eexists. reflexivity.
Qed.

(** X16: a [StabilizingPredictionsStopper] cannot stop early.  The first
    call scores not-a-number, [np.mean] of a window that holds a
    not-a-number is not-a-number, and no number compares below it: each of
    the first [windows] calls answers false, whatever the arrays and the
    threshold. *)
Theorem stabilizing_predictions_not_before (w : nat) (t : float)
    (calls : list ndarray) (preds : ndarray) :
  (forall l, mean (nan :: l) = nan) ->
  (length calls < w)%nat ->
  fst (sp_call array_equal cohen_kappa_score mean preds
         (sp_feed array_equal cohen_kappa_score mean calls
            {| sp_windows := w; threshold := t;
               agreement_scores := []; prv_stop_set_preds := None |}))
  = false.
Proof.
  intros Hnan Hlen.
  rewrite fst_sp_call. cbv zeta. rewrite snd_sp_call. cbn [agreement_scores].
  pose proof (sp_feed_inv ndarray array_equal cohen_kappa_score mean w t calls)
    as (Hw & Ht & Hp & Hl).
  pose proof (sp_feed_head w t calls ltac:(lia)) as Hhead.
  cbv zeta in Hhead.
  set (st := sp_feed _ _ _ calls _) in *.
  rewrite Hw.
  assert (Happ : deque_append w (agreement_scores st)
                   (agreement array_equal cohen_kappa_score
                      (prv_stop_set_preds st) preds)
                 = agreement_scores st
                   ++ [agreement array_equal cohen_kappa_score
                         (prv_stop_set_preds st) preds]).
  { unfold deque_append.
    destruct (Nat.eqb_spec w 0%nat); [lia|].
    destruct (Nat.ltb_spec (length (agreement_scores st)) w);
      [reflexivity|lia]. }
  rewrite Happ.
  assert (Hmean : exists rest,
             agreement_scores st
             ++ [agreement array_equal cohen_kappa_score
                   (prv_stop_set_preds st) preds] = nan :: rest).
  { destruct calls as [|c calls].
    - destruct Hhead as [-> ->]. exists []. reflexivity.
    - destruct Hhead as [rest ->]. eexists. reflexivity. }
  destruct Hmean as [rest ->]. rewrite Hnan.
  apply andb_false_iff. right. unfold ltb, SFltb.
  destruct (threshold st) as [s|s| |s m e]; reflexivity.
Qed.

End StopperRuns.

(** [np.mean] as the examples compute it propagates not-a-number. *)
Lemma mean_seq_nan (l : list Float.float) : mean_seq (nan :: l) = nan.
Proof.
  unfold mean_seq. cbn [fold_left].
  assert (Hfold : forall l', fold_left (SFadd prec emax) l' nan = nan).
  { induction l' as [|x l' IH]; [reflexivity|]. cbn [fold_left].
    exact IH. }
  change (SFadd prec emax zero nan) with nan. rewrite Hfold. reflexivity.
Qed.

Lemma classification_change_call_witness :
  exists b,
    Stoppers.cl_call int_array_equal [1; 0]
      {| Stoppers.cl_windows := 2; Stoppers.unlabeled_preds := [[1; 1]; [1; 0]] |}
    = (Ok b, {| Stoppers.cl_windows := 2;
                Stoppers.unlabeled_preds := [[1; 0]; [1; 0]] |})
    /\ b = true.
Proof.
  destruct (classification_change_call (list Z) int_array_equal 2
              [[1; 1]; [1; 0]] [1; 0] (Nat.le_refl 2))
    as (b & Hcall & _ & Hiff & _).
  exists b. split; [exact Hcall|].
  apply Hiff. split; [reflexivity|].
  intros [|[|j]] a a'; cbn; try discriminate.
  intros [= <-] [= <-]. reflexivity.
Defined.

Lemma stabilizing_predictions_not_before_witness :
  fst (Stoppers.sp_call int_array_equal constant_kappa mean_seq [1; 0; 1]
         (Stoppers.sp_feed int_array_equal constant_kappa mean_seq
            [[1; 0; 1]; [1; 0; 1]]
            {| Stoppers.sp_windows := 3; Stoppers.threshold := nine_tenths;
               Stoppers.agreement_scores := [];
               Stoppers.prv_stop_set_preds := None |}))
  = false.
Proof.
  apply (stabilizing_predictions_not_before (list Z) int_array_equal
           constant_kappa mean_seq 3 nine_tenths [[1; 0; 1]; [1; 0; 1]]
           [1; 0; 1] mean_seq_nan).
  cbn. lia.
Defined.

(** ** The highest path among equals *)

Section HighestPathTies.

Variable int_of_str : string -> option Z.
Variable iterdir : Path -> result (list Path).

(** Where an element lands last when it is inserted. *)
Lemma last_insert_keyed (x : Z * Path) (l : list (Z * Path)) :
  last (insert_keyed x l)
  = if forallb (fun h => fst h <? fst x) l then Some x else last l.
Proof.
  induction l as [|h t IH]; cbn [insert_keyed forallb]; [reflexivity|].
  destruct (Z.leb_spec (fst x) (fst h)) as [Hle|Hgt].
  - destruct (Z.ltb_spec (fst h) (fst x)); [lia|]. reflexivity.
  - destruct (Z.ltb_spec (fst h) (fst x)); [|lia]. cbn [andb].
    destruct (insert_keyed x t) as [|y l'] eqn:Hins.
    { destruct t; cbn in Hins; [discriminate|].
      destruct (_ <=? _); discriminate. }
    change (last (h :: y :: l')) with (last (y :: l')). rewrite IH.
    destruct (forallb _ t) eqn:Hall; [reflexivity|].
    destruct t as [|h' t']; [discriminate|]. reflexivity.
Qed.

(** Among the greatest keys the stable sort keeps the last one last. *)
Lemma last_sorted_tie (k : Z) (p : Path) (ks2 : list (Z * Path)) :
  Forall (fun kp => fst kp < k) ks2 ->
  forall ks1,
    Forall (fun kp => fst kp <= k) ks1 ->
    last (sorted (ks1 ++ (k, p) :: ks2)) = Some (k, p).
Proof.
  intros H2. induction ks1 as [|x ks1 IH]; intros H1.
  - cbn [app sorted]. rewrite last_insert_keyed.
    assert (Hall : forallb (fun h => fst h <? fst (k, p)) (sorted ks2) = true).
    { apply forallb_forall. intros h Hh.
      apply (proj1 (In_sorted iterdir _ _)) in Hh.
      rewrite List.Forall_forall in H2. apply Z.ltb_lt, H2, Hh. }
    rewrite Hall. reflexivity.
  - cbn [app sorted]. rewrite last_insert_keyed.
    inversion H1 as [|? ? Hx H1']; subst.
    assert (Hall : forallb (fun h => fst h <? fst x)
                     (sorted (ks1 ++ (k, p) :: ks2)) = false).
    { apply not_true_is_false. intros Hall.
      rewrite forallb_forall in Hall.
      assert (Hin : In (k, p) (sorted (ks1 ++ (k, p) :: ks2))).
      { apply (proj2 (In_sorted iterdir _ _)), in_or_app. right. left.
        reflexivity. }
      apply Hall, Z.ltb_lt in Hin. cbn in Hin. lia. }
    rewrite Hall. apply IH, H1'.
Qed.

(** The keys of paths that all parse, with a bound they all meet. *)
Lemma keyed_bounded (P : Z -> Prop) (ls rs : string) (files : list Path) :
  (forall q, In q files ->
     exists kq, Utils.key int_of_str ls rs q = Ok kq /\ P kq) ->
  exists ks,
    Utils.keyed int_of_str ls rs files = Ok ks
    /\ Forall (fun kp => P (fst kp)) ks.
Proof.
  induction files as [|q files IH]; intros H.
  - exists []. split; [reflexivity|constructor].
  - destruct (H q (or_introl eq_refl)) as (kq & Hk & HP).
    destruct IH as (ks & Hks & Hall); [intros; apply H; right; auto|].
    exists ((kq, q) :: ks). cbn [Utils.keyed]. rewrite Hk, Hks.
    split; [reflexivity|]. constructor; auto.
Qed.

Lemma keyed_app (ls rs : string) (l1 l2 : list Path)
    (ks1 ks2 : list (Z * Path)) :
  Utils.keyed int_of_str ls rs l1 = Ok ks1 ->
  Utils.keyed int_of_str ls rs l2 = Ok ks2 ->
  Utils.keyed int_of_str ls rs (l1 ++ l2) = Ok (ks1 ++ ks2).
Proof.
  revert ks1. induction l1 as [|q l1 IH]; intros ks1; cbn [Utils.keyed app].
  - intros [= <-] H2. exact H2.
  - destruct (Utils.key int_of_str ls rs q) as [kq|e]; [|discriminate].
    cbn [bind].
    destruct (Utils.keyed int_of_str ls rs l1) as [r|e]; [|discriminate].
    intros [= <-] H2. rewrite (IH r eq_refl H2). reflexivity.
Qed.

(** X17: which path [get_highest_path] returns when several share the
    greatest key.  [sorted] is stable and the function takes the last
    element, so a path is returned when no path before it in the
    collection has a greater key and every path after it has a smaller
    one: among the paths with the greatest key, the last of the
    collection.  Given a directory, the collection is its listing, in
    the order the file system lists it, and a listing that fails is the
    failure of the call. *)
Theorem get_highest_path_last_of_greatest (l1 l2 : list Path) (p : Path)
    (k : Z) (ls rs : string) :
  Utils.key int_of_str ls rs p = Ok k ->
  (forall q, In q l1 ->
     exists kq, Utils.key int_of_str ls rs q = Ok kq /\ kq <= k) ->
  (forall q, In q l2 ->
     exists kq, Utils.key int_of_str ls rs q = Ok kq /\ kq < k) ->
  get_highest_path int_of_str iterdir (Files (l1 ++ p :: l2)) ls rs = Ok p
  /\ forall dir,
       (iterdir dir = Ok (l1 ++ p :: l2) ->
        get_highest_path int_of_str iterdir (APath dir) ls rs = Ok p)
       /\ (forall e,
             iterdir dir = Raise e ->
             get_highest_path int_of_str iterdir (APath dir) ls rs = Raise e).
Proof.
  intros Hk H1 H2.
  destruct (keyed_bounded (fun z => z <= k) ls rs l1 H1) as (ks1 & Hks1 & Hb1).
  destruct (keyed_bounded (fun z => z < k) ls rs l2 H2) as (ks2 & Hks2 & Hb2).
  assert (Hkeyed : Utils.keyed int_of_str ls rs (l1 ++ p :: l2)
                   = Ok (ks1 ++ (k, p) :: ks2)).
  { apply keyed_app; [exact Hks1|].
    cbn [Utils.keyed]. rewrite Hk, Hks2. reflexivity. }
  assert (Hfiles : get_highest_path int_of_str iterdir (Files (l1 ++ p :: l2))
                     ls rs = Ok p).
  { unfold get_highest_path. cbn [bind]. rewrite Hkeyed. cbn [bind].
    rewrite (last_sorted_tie k p ks2 Hb2 ks1 Hb1). reflexivity. }
  split; [exact Hfiles|].
  intros dir. split.
  - intros Hdir. unfold get_highest_path in *. rewrite Hdir. exact Hfiles.
  - intros e Hdir. unfold get_highest_path. rewrite Hdir. reflexivity.
Qed.

End HighestPathTies.

Lemma get_highest_path_last_of_greatest_witness :
  get_highest_path int_of_decimal no_iterdir
    (Files [file "3.txt"; file "07.json"; file "7.txt"; file "5.txt"])
    "" ""
  = Ok (file "7.txt").
Proof.
  apply (get_highest_path_last_of_greatest int_of_decimal no_iterdir
           [file "3.txt"; file "07.json"] [file "5.txt"] (file "7.txt") 7
           "" "" eq_refl).
  - intros q [<- | [<- | []]]; eexists;
      (split; [vm_compute; reflexivity|vm_compute; discriminate]).
  - intros q [<- | []]. eexists.
    split; [vm_compute; reflexivity|vm_compute; reflexivity].
Defined.

(** ** The batches of a run *)

Section LearnerRuns.

Context {E : Engine}.

(** What an advance that returns has done to the pool, the counter and
    the batch files. *)
Lemma next_labels (w w' : LearnerWorld) (st : LearnerState) :
  __next__ w = (Ok st, w') ->
  label (batch st) (pool (learner w)) = Ok (pool (learner w'))
  /\ iteration (learner w') = iteration (learner w) + 1
  /\ state_iteration st = iteration (learner w) + 1
  /\ batch_path (disk w')
     = <[ iteration (learner w) := batch st ]> (batch_path (disk w)).
Proof.
  intros (_ & N & s & b & g & _ & _ & _ & _ & _ & Hf)%next_inv.
  apply finish_effects in Hf. cbn [learner disk rng] in Hf.
  destruct Hf as (p' & ts & sp & tr & out & saved & g' & Hl & _ & _ & _ & Hst
                  & Hlw & _ & _ & _ & _ & _ & Hb & _).
  rewrite Hlw, Hb, Hst. cbn. repeat split. exact Hl.
Qed.

(** X18: no row is labeled twice.  Over any number of advances of the
    learner that all return, there is one state per advance, numbered
    from the counter on; every row of every batch was an unlabeled row of
    the dataset before the run; the batches of two different advances
    share no row; the rows labeled after the run are the ones labeled
    before it and those of the batches; and the batch file of each of
    these iterations is the batch of its state, later advances having
    left it alone. *)
Theorem advances_label_once (k : nat) :
  forall (w w' : LearnerWorld) (sts : list LearnerState),
    advances k w = (Ok sts, w') ->
    length sts = k
    /\ iteration (learner w') = iteration (learner w) + Z.of_nat k
    /\ dataset (pool (learner w')) = dataset (pool (learner w))
    /\ (forall r,
          r ∈ labeled_idx (pool (learner w'))
          <-> r ∈ labeled_idx (pool (learner w))
              \/ exists st, st ∈ sts /\ r ∈ batch st)
    /\ (forall st r,
          st ∈ sts -> r ∈ batch st ->
          0 <= r < num_rows (dataset (pool (learner w)))
          /\ r ∉ labeled_idx (pool (learner w)))
    /\ (forall i j sti stj r,
          (i < j)%nat -> sts !! i = Some sti -> sts !! j = Some stj ->
          r ∈ batch sti -> r ∉ batch stj)
    /\ (forall i st,
          sts !! i = Some st ->
          state_iteration st = iteration (learner w) + Z.of_nat i + 1
          /\ batch_path (disk w') !! (iteration (learner w) + Z.of_nat i)
             = Some (batch st))
    /\ (forall j,
          j < iteration (learner w) ->
          batch_path (disk w') !! j = batch_path (disk w) !! j).
Proof.
  induction k as [|k IH]; intros w w' sts; cbn [advances].
  - intros [= <- <-]. split; [reflexivity|]. split; [lia|].
    split; [reflexivity|]. split.
    { intros r. split; [auto|]. intros [H|(st & Hst & _)]; [exact H|].
      apply elem_of_nil in Hst. contradiction. }
    split. { intros st r Hst. apply elem_of_nil in Hst. contradiction. }
    split. { intros i j sti stj r _ Hi. discriminate. }
    split. { intros i st Hi. discriminate. }
    reflexivity.
  - unfold mbind at 1.
    destruct (__next__ w) as [[st|e] w1] eqn:Hn; [|discriminate].
    unfold mbind at 1.
    destruct (advances k w1) as [[sts1|e] w2] eqn:Ha; [|discriminate].
    intros [= <- <-].
    destruct (next_labels _ _ _ Hn) as (Hl & Hi1 & Hsi & Hb1).
    destruct (label_inv _ _ _ Hl) as (Hin & Hds & Hlab).
    destruct (IH _ _ _ Ha)
      as (Hlen & Hi2 & Hds2 & Hlab2 & Hfresh2 & Hdisj2 & Hfile2 & Hold2).
    split; [cbn [length]; congruence|]. split; [lia|].
    split; [congruence|]. split; [|split; [|split; [|split]]].
    + intros r. rewrite Hlab2, Hlab, elem_of_union, elem_of_list_to_set.
      split.
      * intros [[H|H]|(st1 & Hst1 & Hr)]; [left; exact H| |].
        -- right. exists st. split; [apply list_elem_of_here|exact H].
        -- right. exists st1. split; [apply list_elem_of_further, Hst1|exact Hr].
      * intros [H|(st1 & Hst1 & Hr)]; [left; left; exact H|].
        apply elem_of_cons in Hst1 as [->|Hst1]; [left; right; exact Hr|].
        right. eauto.
    + intros st1 r Hst1 Hr.
      apply elem_of_cons in Hst1 as [->|Hst1].
      * apply elem_of_unlabeled_idx, Hin, Hr.
      * destruct (Hfresh2 st1 r Hst1 Hr) as [Hrange Hnot].
        rewrite Hds in Hrange. split; [exact Hrange|].
        intros Hr0. apply Hnot. rewrite Hlab. apply elem_of_union_l, Hr0.
    + intros [|i] [|j] sti stj r Hij; cbn; try lia.
      * intros [= <-] Hj Hr Hrj.
        assert (Hstj : stj ∈ sts1) by (apply list_elem_of_lookup; eauto).
        destruct (Hfresh2 stj r Hstj Hrj) as [_ Hnot].
        apply Hnot. rewrite Hlab.
        apply elem_of_union_r, elem_of_list_to_set, Hr.
      * intros Hsi' Hsj. apply (Hdisj2 i j sti stj r); auto. lia.
    + intros [|i] st1; cbn.
      * intros [= <-]. split; [lia|].
        rewrite Z.add_0_r, Hold2 by lia. rewrite Hb1. apply lookup_insert_eq.
      * intros Hst1. destruct (Hfile2 i st1 Hst1) as [Hit Hfile].
        split; [lia|].
        rewrite <- Hfile. f_equal. lia.
    + intros j Hj. rewrite Hold2 by lia. rewrite Hb1.
      apply lookup_insert_ne. lia.
Qed.

End LearnerRuns.

Lemma advances_label_once_witness :
  exists st0 w1 sts w2,
    @__call__ toy_engine toy_learner_world = (Ok st0, w1)
    /\ @advances toy_engine 1 w1 = (Ok sts, w2)
    /\ length sts = 1%nat
    /\ iteration (learner w2) = 2.
Proof.
  destruct (@__call__ toy_engine toy_learner_world) as [[st0|e] w1] eqn:H1;
    [|vm_compute in H1; discriminate].
  destruct (@advances toy_engine 1 w1) as [[sts|e] w2] eqn:H2.
  2:{ exfalso. vm_compute in H1. injection H1 as <- <-.
      vm_compute in H2. discriminate. }
  destruct (@advances_label_once toy_engine 1 w1 w2 sts H2) as (Hlen & Hi & _).
  exists st0, w1, sts, w2. split; [reflexivity|]. split; [exact H2|].
  split; [exact Hlen|]. rewrite Hi.
  vm_compute in H1. injection H1 as <- <-. reflexivity.
Defined.

(** ** The confidence stopper over a sequence of calls *)

Section ConfidenceRuns.

Import Stoppers Calls.

Variable ndarray : Type.
Variable mean_of_array : ndarray -> float.

(** From any window within a capacity that is not 0, a sequence of calls
    never raises and leaves the last scores in the window. *)
Lemma cc_run_window (w : nat) (m : string) (calls : list ndarray) :
  (0 < w)%nat ->
  forall scores : list float,
    (length scores <= w)%nat ->
    let all := scores ++ List.map mean_of_array calls in
    exists bs,
      cc_run mean_of_array calls
        {| cc_windows := w; mode := m; conf_scores := scores |}
      = (Ok bs, {| cc_windows := w; mode := m;
                   conf_scores := skipn (length all - w) all |})
      /\ length bs = length calls
      /\ (forall i, (i < w - length scores)%nat -> (i < length calls)%nat ->
            bs !! i = Some false)
      /\ (m <> "D"%string -> m <> "N"%string ->
          forall i b, bs !! i = Some b -> b = false).
Proof.
  intros Hw. induction calls as [|c calls IH]; intros scores Hlen; cbv zeta.
  - cbn [List.map cc_run length]. rewrite app_nil_r.
    replace (length scores - w)%nat with 0%nat by lia. cbn [skipn].
    exists []. repeat split; auto.
    + intros i _ Hi. cbn in Hi. lia.
    + intros _ _ i b Hi. discriminate.
  - cbn [List.map cc_run].
    unfold cc_call at 1. cbn [cc_windows conf_scores mode].
    destruct (Nat.ltb_spec (length scores) w) as [Hlt|Hge].
    + assert (Happ : deque_append w scores (mean_of_array c)
                     = scores ++ [mean_of_array c]).
      { unfold deque_append. destruct (Nat.eqb_spec w 0%nat); [lia|].
        destruct (Nat.ltb_spec (length scores) w); [reflexivity|lia]. }
      rewrite Happ.
      destruct (IH (scores ++ [mean_of_array c])) as (bs & Hrun & Hbs & Hf & Hm).
      { rewrite length_app. cbn [length]. lia. }
      cbv zeta in Hrun. rewrite <- app_assoc in Hrun. cbn [app] in Hrun.
      rewrite Hrun. exists (false :: bs).
      split; [reflexivity|]. split; [cbn [length]; congruence|]. split.
      * intros [|i] Hi Hi'; [reflexivity|]. cbn. apply Hf.
        -- rewrite length_app. cbn [length]. lia.
        -- cbn [length] in Hi'. lia.
      * intros HD HN [|i] b; cbn; [congruence|]. apply Hm; assumption.
    + destruct scores as [|prv rest]; [cbn [length] in Hge, Hlen; lia|].
      cbn [length] in Hlen, Hge.
      assert (Happ : deque_append w rest (mean_of_array c)
                     = rest ++ [mean_of_array c]).
      { unfold deque_append. destruct (Nat.eqb_spec w 0%nat); [lia|].
        destruct (Nat.ltb_spec (length rest) w); [reflexivity|lia]. }
      rewrite Happ.
      assert (Hstep : exists b,
                 (if String.eqb m "D"
                     && forallb (fun c' => ltb c' prv)
                          (rest ++ [mean_of_array c])
                  then (Ok true,
                        {| cc_windows := w; mode := m;
                           conf_scores := rest ++ [mean_of_array c] |})
                  else if String.eqb m "N"
                          && forallb (fun c' => leb c' prv)
                               (rest ++ [mean_of_array c])
                       then (Ok true,
                             {| cc_windows := w; mode := m;
                                conf_scores := rest ++ [mean_of_array c] |})
                       else (Ok false,
                             {| cc_windows := w; mode := m;
                                conf_scores := rest ++ [mean_of_array c] |}))
                 = (Ok b, {| cc_windows := w; mode := m;
                             conf_scores := rest ++ [mean_of_array c] |})
                 /\ (m <> "D"%string -> m <> "N"%string -> b = false)).
      { destruct (String.eqb_spec m "D") as [->|HD]; cbn [andb].
        - destruct (forallb _ _); [|cbn [String.eqb Ascii.eqb andb]];
            eexists; (split; [reflexivity|congruence]).
        - destruct (String.eqb_spec m "N") as [->|HN]; cbn [andb].
          + destruct (forallb _ _); eexists; (split; [reflexivity|congruence]).
          + eexists. split; reflexivity. }
      destruct Hstep as (b & -> & Hb).
      destruct (IH (rest ++ [mean_of_array c])) as (bs & Hrun & Hbs & Hf & Hm).
      { rewrite length_app. cbn [length]. lia. }
      cbv zeta in Hrun. rewrite <- app_assoc in Hrun. cbn [app] in Hrun.
      rewrite Hrun. exists (b :: bs).
      assert (Hdrop :
                skipn (length ((prv :: rest) ++ List.map mean_of_array (c :: calls))
                       - w)
                  ((prv :: rest) ++ List.map mean_of_array (c :: calls))
                = skipn (length (rest ++ mean_of_array c
                                   :: List.map mean_of_array calls) - w)
                    (rest ++ mean_of_array c :: List.map mean_of_array calls)).
      { cbn [app List.map length].
        set (X := rest ++ mean_of_array c :: List.map mean_of_array calls).
        assert (HX : (w <= length X)%nat).
        { subst X. rewrite length_app. cbn [length]. lia. }
        replace (S (length X) - w)%nat with (S (length X - w)) by lia.
        reflexivity. }
      split.
      { apply (f_equal (fun x => (Ok (b :: bs),
                                  {| cc_windows := w; mode := m;
                                     conf_scores := x |}))).
        symmetry. exact Hdrop. }
      split; [cbn [length]; congruence|]. split.
      * intros i Hi. cbn [length] in Hi. lia.
      * intros HD HN [|i] b0; cbn; [intros [= <-]; auto|]. apply Hm; assumption.
Qed.

(** X19: a [ChangingConfidenceStopper] asked again and again.  With a
    capacity that is not 0, a fresh stopper never raises, whatever the
    arrays; it answers once per call; its window holds the mean
    confidences of the last [windows] calls, or of all the calls while
    there are fewer; each of the first [windows] calls answers false; and
    in a mode other than ["D"] and ["N"] every call answers false.  With
    a capacity of 0 the very first call raises [IndexError]. *)
Theorem changing_confidence_run (w : nat) (m : string) (calls : list ndarray) :
  let fresh := {| cc_windows := w; mode := m; conf_scores := [] |} in
  let confs := List.map mean_of_array calls in
  ((0 < w)%nat ->
   exists bs,
     cc_run mean_of_array calls fresh
     = (Ok bs, {| cc_windows := w; mode := m;
                  conf_scores := skipn (length calls - w) confs |})
     /\ length bs = length calls
     /\ (forall i, (i < w)%nat -> (i < length calls)%nat ->
           bs !! i = Some false)
     /\ (m <> "D"%string -> m <> "N"%string ->
         forall i b, bs !! i = Some b -> b = false))
  /\ (w = 0%nat -> calls <> [] ->
      cc_run mean_of_array calls fresh = (Raise IndexError, fresh)).
Proof.
  cbv zeta. split.
  - intros Hw.
    destruct (cc_run_window w m calls Hw [] ltac:(cbn [length]; lia))
      as (bs & Hrun & Hlen & Hf & Hm).
    cbv zeta in Hrun. cbn [app] in Hrun. rewrite length_map in Hrun.
    exists bs. split; [exact Hrun|]. split; [exact Hlen|].
    split; [|exact Hm].
    intros i Hi Hi'. apply Hf; [cbn [length]; lia|exact Hi'].
  - intros -> Hne. destruct calls as [|c calls]; [contradiction|].
    reflexivity.
Qed.

End ConfidenceRuns.

Lemma changing_confidence_run_witness :
  exists bs,
    Calls.cc_run mean_seq [[nine_tenths]; [half]; [tenth]]
      {| Stoppers.cc_windows := 2; Stoppers.mode := "D";
         Stoppers.conf_scores := [] |}
    = (Ok bs,
       {| Stoppers.cc_windows := 2; Stoppers.mode := "D";
          Stoppers.conf_scores := [mean_seq [half]; mean_seq [tenth]] |})
    /\ bs !! 0%nat = Some false /\ bs !! 1%nat = Some false.
Proof.
  destruct (changing_confidence_run (list Float.float) mean_seq 2 "D"
              [[nine_tenths]; [half]; [tenth]])
    as [H _].
  destruct (H (Nat.lt_0_succ 1)) as (bs & Hrun & _ & Hf & _).
  exists bs. split; [exact Hrun|].
  split; apply Hf; cbn; lia.
Defined.

(** ** A learner as its constructor leaves it *)

Section LearnerConstruction.

Context {E : Engine}.

(** X20: what the constructor of [Learner] gives.  It raises
    [FileExistsError] exactly when the run directory exists, is not empty
    and may not be overwritten, whatever the querier; otherwise
    [TypeError] exactly for a querier the factory does not know; and
    otherwise it returns a learner with the pool, the configuration and
    the iteration it was given, no state, and the querier wrapped: a
    missing one as the default random querier, a [RandomQuerier] as
    itself, the three others as rankers of class probabilities.  As it
    holds no state, a learner built with [_iteration] other than 0 can
    complete no step: its first run and its advances all raise. *)
Theorem new_Learner_outcomes (p : Pool) (c : Config) (overwrite : bool)
    (q : option Querier) (i : Z) (d : Disk) :
  (new_Learner p c overwrite q i d = Raise FileExistsError
   <-> root_exists d = true /\ is_directory_empty d = false
       /\ overwrite = false)
  /\ (new_Learner p c overwrite q i d = Raise TypeError
      <-> valid overwrite d = true /\ q = Some OtherQuerier)
  /\ (forall l,
        new_Learner p c overwrite q i d = Ok l ->
        pool l = p /\ config l = c /\ iteration l = i /\ state l = None
        /\ querier l
           = match q with
             | None => RandomQuerierWrapper default_sampler
             | Some (RandomQuerier f) => RandomQuerierWrapper f
             | Some (UncertaintyQuerier f) | Some (MarginQuerier f)
             | Some (EntropyQuerier f) => ClasswiseProbsQuerierWrapper f
             | Some OtherQuerier => querier l
             end
        /\ (i <> 0 ->
            forall (d' : Disk) (g : Rng),
              (exists e, fst (__call__ {| learner := l; disk := d'; rng := g |})
                         = Raise e)
              /\ (exists e, fst (__next__ {| learner := l; disk := d'; rng := g |})
                            = Raise e))).
Proof.
  unfold new_Learner, valid.
  split; [|split].
  - destruct (root_exists d), (is_directory_empty d), overwrite; cbn;
      try (split; [intros _; auto|intros _; reflexivity]);
      (split; [|intros (? & ? & ?); discriminate]);
      destruct q as [[f|f|f|f|]|]; cbn; discriminate.
  - destruct (root_exists d), (is_directory_empty d), overwrite; cbn;
      try (split; [discriminate|intros [? _]; discriminate]);
      (split; [|intros [_ ->]; reflexivity]);
      destruct q as [[f|f|f|f|]|]; cbn; try discriminate; auto.
  - intros l.
    destruct (negb (negb (root_exists d) || is_directory_empty d || overwrite));
      [discriminate|].
    intros H.
    assert (Hl : pool l = p /\ config l = c /\ iteration l = i
                 /\ state l = None).
    { destruct q as [[f|f|f|f|]|]; cbn in H; try discriminate;
        injection H as <-; repeat split. }
    destruct Hl as (Hp & Hc & Hi & Hs).
    repeat split; auto.
    + destruct q as [[f|f|f|f|]|]; cbn in H; try discriminate;
        injection H as <-; reflexivity.
    + destruct (__call__ {| learner := l; disk := d'; rng := g |})
        as [[st|e] w'] eqn:Hcall; [|eauto].
      apply call_inv in Hcall as [Hi0 _]. cbn in Hi0. congruence.
    + destruct (__next__ {| learner := l; disk := d'; rng := g |})
        as [[st|e] w'] eqn:Hnext; [|eauto].
      apply next_inv in Hnext as (_ & N & s & b0 & g0 & _ & _ & _ & Hst & _).
      cbn in Hst. congruence.
Qed.

End LearnerConstruction.
